(** * stitch: multipart upload of one local file to S3

    A shallow embedding of the three variants of the uploader found in the
    repository, and the properties of its specification checked against them:

    - [MainGo]      src/main.go            (chunk size flag, inline loop)
    - [Refactored]  src/unnamed/part_000   (same flags, loop in [uploadParts])
    - [FixedChunk]  src/unnamed/part_001   (no chunk size flag, 5 MiB buffer)

    The Go runtime, the [os] package and the S3 client are the environment:
    their answers are fields of [Env], every call the program makes is an
    [event] of the trace, and a run ends in a [halt] status.  [log.Fatalf]
    is [os.Exit(1)] after printing, so it skips deferred calls; a panic and
    a normal return run them. *)

From Stdlib Require Import String.
From Stdlib Require Import ZArith List Bool Lia Arith Permutation Sorted.
Import ListNotations.

Open Scope string_scope.
Open Scope list_scope.
Open Scope Z_scope.

(** ** Go values *)

Definition byte : Type := Byte.byte.

(** [int32] arithmetic wraps around: [partNum++] on an [int32]. *)
Definition int32 (z : Z) : Z := (z + 2147483648) mod 4294967296 - 2147483648.

(** Go [error] values.  [Failure] is an error of the operating system or of
    the service; [Errorf] is [fmt.Errorf] with its format and arguments. *)
Inductive error : Type :=
| EOF
| Failure (msg : string)
| Errorf (format : string) (args : list value)
with value : Type :=
| VInt (n : Z)
| VStr (s : string)
| VErr (e : error).

(** [types.CompletedPart] *)
Record CompletedPart : Type := { ETag : string; PartNumber : Z }.

(** [s3.UploadPartInput] *)
Record UploadPartInput : Type := {
  Bucket : string;
  Key : string;
  PartNumber_ : Z;
  UploadId : string;
  Body : list byte
}.

(** An opened [*os.File]: its name and the bytes of the regular file. *)
Record File : Type := { name : string; data : list byte }.

(** ** The environment *)

(** What the world outside the program answers.  [read_fault i] is the
    non-EOF error of the [i]-th [Read] call, if that call fails;
    [UploadPart_resp i input] is the answer to the [i]-th [UploadPart] call.
    An answer of the service that is not an error carries its upload id or
    its ETag (the pointers the program dereferences are not nil). *)
Record Env : Type := {
  LoadDefaultConfig : option error;
  os_Open : string -> File + error;
  read_fault : nat -> option string;
  CreateMultipartUpload_resp : string -> string -> string + error;
  UploadPart_resp : nat -> UploadPartInput -> string + error;
  AbortMultipartUpload_resp : option error;
  CompleteMultipartUpload_resp : list CompletedPart -> option error
}.

(** Every observable call of a run, in order. *)
Inductive event : Type :=
| flag_Usage
| fmt_Println (args : list value)
| fmt_Printf (format : string) (args : list value)
| log_Fatal (args : list value)
| log_Fatalf (format : string) (args : list value)
| os_Exit (code : Z)
| Open (path : string)
| Read (n : nat) (err : option error)
| Close (path : string)
| CreateMultipartUpload (bucket key : string)
| UploadPart (input : UploadPartInput)
| AbortMultipartUpload (bucket key uploadId : string)
| CompleteMultipartUpload (bucket key uploadId : string) (parts : list CompletedPart).

(** How a run ends. *)
Inductive halt : Type :=
| Returned
| Exited (code : Z)
| Panicked (msg : string)
| OutOfFuel.

Inductive deferred : Type :=
| defer_Close (f : File).

(** The mutable part of the world: the cursor of the opened file, the number
    of [Read] and [UploadPart] calls issued so far, and the deferred calls of
    the running function. *)
Record state : Type := {
  offset : nat;
  n_read : nat;
  n_upload : nat;
  defers : list deferred
}.

Definition init_state : state :=
  {| offset := 0; n_read := 0; n_upload := 0; defers := [] |}.

(** The state after a [Read] of [n] bytes, and after an [UploadPart] call. *)
Definition after_read (st : state) (n : nat) : state :=
  {| offset := offset st + n; n_read := S (n_read st); n_upload := n_upload st;
     defers := defers st |}.

Definition after_upload (st : state) : state :=
  {| offset := offset st; n_read := n_read st; n_upload := S (n_upload st);
     defers := defers st |}.

Definition opened (st : state) : state :=
  {| offset := 0; n_read := n_read st; n_upload := n_upload st; defers := defers st |}.

(** ** The monad of runs *)

Inductive outcome (A : Type) : Type :=
| Val (a : A)
| Halt (h : halt).
Arguments Val {A} a.
Arguments Halt {A} h.

Definition M (A : Type) : Type := Env -> state -> list event * state * outcome A.

Definition ret {A} (a : A) : M A := fun _ st => ([], st, Val a).

Definition bind {A B} (m : M A) (k : A -> M B) : M B :=
  fun env st =>
    match m env st with
    | (t1, st1, Val a) =>
        match k a env st1 with
        | (t2, st2, r) => (t1 ++ t2, st2, r)
        end
    | (t1, st1, Halt h) => (t1, st1, Halt h)
    end.

Notation "x <- m ;; k" := (bind m (fun x => k))
  (at level 61, m at next level, right associativity).
Notation "m ;;; k" := (bind m (fun _ => k))
  (at level 61, right associativity).

Definition emit (e : event) : M unit := fun _ st => ([e], st, Val tt).
Definition stop {A} (h : halt) : M A := fun _ st => ([], st, Halt h).

(** [when c m] is [if c { m }]. *)
Definition when (c : bool) (m : M unit) : M unit := if c then m else ret tt.

Definition Println (args : list value) : M unit := emit (fmt_Println args).
Definition Printf (format : string) (args : list value) : M unit :=
  emit (fmt_Printf format args).

(** [os.Exit] ends the process at once: deferred calls are not run. *)
Definition Exit {A} (code : Z) : M A := emit (os_Exit code) ;;; stop (Exited code).

(** [log.Fatalf] and [log.Fatal] print and call [os.Exit(1)]. *)
Definition Fatalf {A} (format : string) (args : list value) : M A :=
  emit (log_Fatalf format args) ;;; stop (Exited 1).
Definition Fatal {A} (args : list value) : M A :=
  emit (log_Fatal args) ;;; stop (Exited 1).

Definition panic {A} (msg : string) : M A := stop (Panicked msg).

(** [defer f.Close()] *)
Definition defer (d : deferred) : M unit :=
  fun _ st =>
    ([], {| offset := offset st; n_read := n_read st; n_upload := n_upload st;
            defers := d :: defers st |}, Val tt).

Definition run_deferred (d : deferred) : event :=
  match d with defer_Close f => Close (name f) end.

(** A function call: the body runs with a deferred list of its own, which is
    run, last first, when the body returns or panics, and skipped when the
    process exits. *)
Definition call {A} (body : M A) : M A :=
  fun env st =>
    let st0 := {| offset := offset st; n_read := n_read st; n_upload := n_upload st;
                  defers := [] |} in
    match body env st0 with
    | (t, st1, r) =>
        let back := {| offset := offset st1; n_read := n_read st1;
                       n_upload := n_upload st1; defers := defers st |} in
        match r with
        | Halt (Exited c) => (t, back, r)
        | Halt OutOfFuel => (t, back, r)
        | _ => (t ++ map run_deferred (defers st1), back, r)
        end
    end.

(** ** The [os] package and the S3 client *)

(** [make([]byte, n)] panics on a negative length.  Memory is not bounded
    here: every other length is allocated, filled with zeros. *)
Definition make_bytes (n : Z) : M (list byte) :=
  if n <? 0 then panic "makeslice: len out of range"
  else ret (repeat Byte.x00 (Z.to_nat n)).

(** [os.Open]: a file that opens has its cursor at the first byte. *)
Definition Open_ (path : string) : M (File + error) :=
  fun env st =>
    match os_Open env path with
    | inl f => ([Open path], opened st, Val (inl f))
    | inr err => ([Open path], st, Val (inr err))
    end.

(** [f.Read(b)] on a regular file: a zero-length buffer reads [0, nil]; at the
    end of the file the answer is [0, io.EOF]; otherwise the next
    [min (len b) remaining] bytes overwrite the front of [b] (a regular file
    is not read short before its end).  A call that the environment makes
    fail returns its error, which is never [io.EOF].  The result is
    [(n, b', err)] with [b'] the buffer after the call. *)
Definition File_Read (f : File) (b : list byte) : M (nat * list byte * option error) :=
  fun env st =>
    match read_fault env (n_read st) with
    | Some msg =>
        ([Read 0 (Some (Failure msg))], after_read st 0,
         Val (0%nat, b, Some (Failure msg)))
    | None =>
        let rest := skipn (offset st) (data f) in
        match b, rest with
        | [], _ => ([Read 0 None], after_read st 0, Val (0%nat, b, None))
        | _, [] => ([Read 0 (Some EOF)], after_read st 0, Val (0%nat, b, Some EOF))
        | _, _ =>
            let n := Nat.min (length b) (length rest) in
            ([Read n None], after_read st n,
             Val (n, firstn n rest ++ skipn n b, None))
        end
    end.

Definition client_CreateMultipartUpload (bucket key : string) : M (string + error) :=
  fun env st =>
    ([CreateMultipartUpload bucket key], st, Val (CreateMultipartUpload_resp env bucket key)).

Definition client_UploadPart (input : UploadPartInput) : M (string + error) :=
  fun env st =>
    ([UploadPart input], after_upload st, Val (UploadPart_resp env (n_upload st) input)).

Definition client_AbortMultipartUpload (bucket key uploadId : string) : M (option error) :=
  fun env st =>
    ([AbortMultipartUpload bucket key uploadId], st, Val (AbortMultipartUpload_resp env)).

Definition client_CompleteMultipartUpload (bucket key uploadId : string)
    (parts : list CompletedPart) : M (option error) :=
  fun env st =>
    ([CompleteMultipartUpload bucket key uploadId parts], st,
     Val (CompleteMultipartUpload_resp env parts)).

(** [sort.Slice(parts, func(i, j) { return *parts[i].PartNumber < *parts[j].PartNumber })]:
    the library sort, here by insertion.  On part numbers that are pairwise
    distinct every sorting algorithm returns the same list
    ([sorted_permutation_unique] below). *)
Fixpoint insert_part (p : CompletedPart) (l : list CompletedPart) : list CompletedPart :=
  match l with
  | [] => [p]
  | q :: l' =>
      if PartNumber q <? PartNumber p then q :: insert_part p l' else p :: l
  end.

Fixpoint sort_Slice (l : list CompletedPart) : list CompletedPart :=
  match l with
  | [] => []
  | p :: l' => insert_part p (sort_Slice l')
  end.

(** The error of a [Read] of zero bytes into [b]: [nil] for an empty buffer,
    [io.EOF] at the end of the file. *)
Definition zero_read_error (b : list byte) : option error :=
  match b with
  | [] => None
  | _ => Some EOF
  end.

(** [err != nil && err != io.EOF] *)
Definition is_real_error (err : option error) : option error :=
  match err with
  | Some EOF => None
  | Some e => Some e
  | None => None
  end.

(** [config.LoadDefaultConfig(ctx)]: the error, [nil] when the configuration
    loads. *)
Definition config_LoadDefaultConfig : M (option error) :=
  fun env st => ([], st, Val (LoadDefaultConfig env)).

(** [initializeClient]: [inl tt] is the client, [inr err] the error. *)
Definition initializeClient : M (unit + error) :=
  err <- config_LoadDefaultConfig ;;
  match err with
  | Some err => ret (inr (Errorf "unable to load SDK config: %v" [VErr err]))
  | None => ret (inl tt)
  end.

(** A whole program: [main] called on the initial state. *)
Definition run (main : M unit) (env : Env) : list event * halt :=
  match call main env init_state with
  | (t, _, Val _) => (t, Returned)
  | (t, _, Halt h) => (t, h)
  end.

(** The command-line flags ([UploadConfiguration] in the refactored variant). *)
Record UploadConfiguration : Type := {
  bucket : string;
  key : string;
  filePath : string;
  chunkSize : Z
}.

Definition defaultChunkSize : Z := 15 * 1024 * 1024.
Definition minimumChunkSize : Z := 5 * 1024 * 1024.

(** [*bucket == "" || *key == "" || *filePath == ""] *)
Definition missing_flag (bucket key filePath : string) : bool :=
  (bucket =? "")%string || (key =? "")%string || (filePath =? "")%string.

(** ** The inline loop of src/main.go (lines 70-108)

    The same text is the loop of src/unnamed/part_001 (lines 64-102).  Each
    iteration reads, stops the process on a read error, leaves the loop on a
    read of zero bytes, uploads the bytes read as part [partNum], and on an
    upload error aborts the session and stops the process.  [fuel] bounds the
    number of iterations; [loop_enough_fuel] below shows that one more than
    the number of unread bytes is enough. *)
Fixpoint loop (fuel : nat) (bucket key : string) (f : File) (uploadID : string)
    (buffer : list byte) (partNum : Z) (completedParts : list CompletedPart)
    : M (list CompletedPart) :=
  match fuel with
  | O => stop OutOfFuel
  | S fuel' =>
      r <- File_Read f buffer ;;
      match r with
      | (n, buffer, err) =>
          match is_real_error err with
          | Some err => Fatalf "failed to read file: %v" [VErr err]
          | None =>
              if (n =? 0)%nat then ret completedParts
              else
                resp <- client_UploadPart
                          {| Bucket := bucket; Key := key; PartNumber_ := partNum;
                             UploadId := uploadID; Body := firstn n buffer |} ;;
                match resp with
                | inr err =>
                    (client_AbortMultipartUpload bucket key uploadID) ;;;
                    Fatalf "failed to upload part %d: %v" [VInt partNum; VErr err]
                | inl etag =>
                    (Printf "Uploaded part %d, ETag: %s\n" [VInt partNum; VStr etag]) ;;;
                    loop fuel' bucket key f uploadID buffer (int32 (partNum + 1))
                      (completedParts ++ [{| ETag := etag; PartNumber := partNum |}])
                end
          end
      end
  end.

(** What follows the sort in both files (lines 114-127 of src/main.go):
    complete, report. *)
Definition complete (bucket key uploadID : string) (completedParts : list CompletedPart)
    : M unit :=
  e <- client_CompleteMultipartUpload bucket key uploadID completedParts ;;
  match e with
  | Some err => Fatalf "failed to complete multipart upload: %v" [VErr err]
  | None => Println [VStr "Upload completed successfully!"]
  end.

(** ** src/main.go *)
Module MainGo.

(** Lines 64-112: the buffer, the loop and the sort. *)
Definition collect (a : UploadConfiguration) (f : File) (uploadID : string)
    : M (list CompletedPart) :=
  buffer <- make_bytes (chunkSize a) ;;
  completedParts <- loop (S (length (data f))) (bucket a) (key a) f uploadID buffer 1 [] ;;
  ret (sort_Slice completedParts).

Definition main (a : UploadConfiguration) : M unit :=
  (when (missing_flag (bucket a) (key a) (filePath a))
     (emit flag_Usage ;;;
      Println [VStr "bucket, key, and file must all be provided"])) ;;;
  (when (chunkSize a <? minimumChunkSize)
     (Println [VStr "--chunkSize must be greater than: "; VInt minimumChunkSize])) ;;;
  c <- initializeClient ;;
  match c with
  | inr err => Fatalf "%v" [VErr err]
  | inl _ =>
      o <- Open_ (filePath a) ;;
      match o with
      | inr err => Fatalf "failed to open file, %v" [VErr err]
      | inl f =>
          (defer (defer_Close f)) ;;;
          cr <- client_CreateMultipartUpload (bucket a) (key a) ;;
          match cr with
          | inr err => Fatalf "failed to create multipart upload: %v" [VErr err]
          | inl uploadID =>
              (Println [VStr "Upload ID: "; VStr uploadID]) ;;;
              completedParts <- collect a f uploadID ;;
              complete (bucket a) (key a) uploadID completedParts
          end
      end
  end.

End MainGo.

(** ** src/unnamed/part_001: no chunk size flag, a buffer of 5 MiB *)
Module FixedChunk.

Definition main (bucket key filePath : string) : M unit :=
  (when (missing_flag bucket key filePath)
     (emit flag_Usage ;;;
      Fatal [VStr "bucket, key, and file must all be provided"])) ;;;
  err <- config_LoadDefaultConfig ;;
  match err with
  | Some err => Fatalf "unable to load SDK config, %v" [VErr err]
  | None =>
      o <- Open_ filePath ;;
      match o with
      | inr err => Fatalf "failed to open file, %v" [VErr err]
      | inl f =>
          (defer (defer_Close f)) ;;;
          cr <- client_CreateMultipartUpload bucket key ;;
          match cr with
          | inr err => Fatalf "failed to create multipart upload: %v" [VErr err]
          | inl uploadID =>
              (Println [VStr "Upload ID: "; VStr uploadID]) ;;;
              buffer <- make_bytes (5 * 1024 * 1024) ;;
              completedParts <-
                loop (S (length (data f))) bucket key f uploadID buffer 1 [] ;;
              complete bucket key uploadID (sort_Slice completedParts)
          end
      end
  end.

End FixedChunk.

(** ** src/unnamed/part_000: the loop moved into [uploadParts] *)
Module Refactored.

(** The loop of [uploadParts] (lines 118-151): [inr err] is [return nil, err],
    [inl parts] is leaving the loop by [break]. *)
Fixpoint loop (fuel : nat) (cfg : UploadConfiguration) (f : File) (uploadId : string)
    (buffer : list byte) (partNum : Z) (completedParts : list CompletedPart)
    : M (list CompletedPart + error) :=
  match fuel with
  | O => stop OutOfFuel
  | S fuel' =>
      r <- File_Read f buffer ;;
      match r with
      | (n, buffer, err) =>
          match is_real_error err with
          | Some err => ret (inr (Errorf "failed to read file: %v" [VErr err]))
          | None =>
              if (n =? 0)%nat then ret (inl completedParts)
              else
                resp <- client_UploadPart
                          {| Bucket := bucket cfg; Key := key cfg; PartNumber_ := partNum;
                             UploadId := uploadId; Body := firstn n buffer |} ;;
                match resp with
                | inr err =>
                    ret (inr (Errorf "failed to upload part %d: %v"
                                [VInt partNum; VErr err]))
                | inl etag =>
                    (Printf "Uploaded part %d, ETag: %s\n" [VInt partNum; VStr etag]) ;;;
                    loop fuel' cfg f uploadId buffer (int32 (partNum + 1))
                      (completedParts ++ [{| ETag := etag; PartNumber := partNum |}])
                end
          end
      end
  end.

Definition uploadParts (cfg : UploadConfiguration) (uploadId : string)
    : M (list CompletedPart * option error) :=
  call
    (o <- Open_ (filePath cfg) ;;
     match o with
     | inr err => ret ([], Some (Errorf "failed to open file: %v" [VErr err]))
     | inl f =>
         (defer (defer_Close f)) ;;;
         buffer <- make_bytes (chunkSize cfg) ;;
         r <- loop (S (length (data f))) cfg f uploadId buffer 1 [] ;;
         match r with
         | inr err => ret ([], Some err)
         | inl completedParts => ret (sort_Slice completedParts, None)
         end
     end).

Definition main (a : UploadConfiguration) : M unit :=
  (when (missing_flag (bucket a) (key a) (filePath a))
     (emit flag_Usage ;;;
      (Println [VStr "bucket, key, and file must all be provided"]) ;;;
      Exit 1)) ;;;
  (when (chunkSize a <? minimumChunkSize)
     ((Println [VStr "-chunkSize must be greater than: "; VInt minimumChunkSize]) ;;;
      Exit 1)) ;;;
  c <- initializeClient ;;
  match c with
  | inr err => Fatalf "%v" [VErr err]
  | inl _ =>
      cr <- client_CreateMultipartUpload (bucket a) (key a) ;;
      match cr with
      | inr err => Fatalf "failed to create multipart upload: %v" [VErr err]
      | inl uploadId =>
          (Println [VStr "Upload ID: "; VStr uploadId]) ;;;
          r <- uploadParts a uploadId ;;
          match r with
          | (_, Some err) =>
              (client_AbortMultipartUpload (bucket a) (key a) uploadId) ;;;
              Fatalf "failed to upload parts: %v" [VErr err]
          | (completedParts, None) =>
              e <- client_CompleteMultipartUpload (bucket a) (key a) uploadId
                     completedParts ;;
              match e with
              | Some err => Fatalf "failed to complete multipart upload: %v" [VErr err]
              | None => Println [VStr "Upload completed successfully!"]
              end
          end
      end
  end.

End Refactored.

(** ** The two loops side by side *)

(** Two states with the same cursor and the same call counts (the deferred
    calls may differ: [uploadParts] defers in a frame of its own). *)
Definition same_io (s1 s2 : state) : Prop :=
  offset s1 = offset s2 /\ n_read s1 = n_read s2 /\ n_upload s1 = n_upload s2.

(** How a run of the inline loop of src/main.go and a run of the loop of
    [uploadParts] correspond: they leave the loop with the same trace and the
    same parts, or the inline loop exits where [uploadParts] returns the
    error, after the same trace, the inline loop aborting the session itself
    on a failed upload. *)
Inductive loop_sim :
  list event * state * outcome (list CompletedPart) ->
  list event * state * outcome (list CompletedPart + error) -> Prop :=
| sim_done t s1 s2 parts :
    same_io s1 s2 ->
    loop_sim (t, s1, Val parts) (t, s2, Val (inl parts))
| sim_read_error t s1 s2 e :
    same_io s1 s2 ->
    loop_sim (t ++ [log_Fatalf "failed to read file: %v" [VErr e]], s1, Halt (Exited 1))
             (t, s2, Val (inr (Errorf "failed to read file: %v" [VErr e])))
| sim_upload_error t s1 s2 b k u pn e :
    same_io s1 s2 ->
    loop_sim (t ++ [AbortMultipartUpload b k u;
                    log_Fatalf "failed to upload part %d: %v" [VInt pn; VErr e]],
              s1, Halt (Exited 1))
             (t, s2, Val (inr (Errorf "failed to upload part %d: %v" [VInt pn; VErr e])))
| sim_fuel t s1 s2 :
    loop_sim (t, s1, Halt OutOfFuel) (t, s2, Halt OutOfFuel).

(** ** Sample runs *)

Definition ok_env (content : list byte) : Env :=
  {| LoadDefaultConfig := None;
     os_Open := fun path => inl {| name := path; data := content |};
     read_fault := fun _ => None;
     CreateMultipartUpload_resp := fun _ _ => inl "id-1";
     UploadPart_resp := fun i _ => inl "etag";
     AbortMultipartUpload_resp := None;
     CompleteMultipartUpload_resp := fun _ => None |}.

(** As [ok_env], with the [k]-th upload (from 0) refused by the service and
    the abort refused too. *)
Definition upload_fails_env (content : list byte) (k : nat) : Env :=
  {| LoadDefaultConfig := None;
     os_Open := fun path => inl {| name := path; data := content |};
     read_fault := fun _ => None;
     CreateMultipartUpload_resp := fun _ _ => inl "id-1";
     UploadPart_resp := fun i _ =>
       if (i =? k)%nat then inr (Failure "503 Slow Down") else inl "etag";
     AbortMultipartUpload_resp := Some (Failure "abort refused");
     CompleteMultipartUpload_resp := fun _ => None |}.

(** As [ok_env], with the completion call refused. *)
Definition complete_fails_env (content : list byte) : Env :=
  {| LoadDefaultConfig := None;
     os_Open := fun path => inl {| name := path; data := content |};
     read_fault := fun _ => None;
     CreateMultipartUpload_resp := fun _ _ => inl "id-1";
     UploadPart_resp := fun i _ => inl "etag";
     AbortMultipartUpload_resp := None;
     CompleteMultipartUpload_resp := fun _ => Some (Failure "500 Internal Error") |}.

(** As [ok_env], with the [k]-th read (from 0) failing. *)
Definition read_fails_env (content : list byte) (k : nat) : Env :=
  {| LoadDefaultConfig := None;
     os_Open := fun path => inl {| name := path; data := content |};
     read_fault := fun i => if (i =? k)%nat then Some "input/output error" else None;
     CreateMultipartUpload_resp := fun _ _ => inl "id-1";
     UploadPart_resp := fun i _ => inl "etag";
     AbortMultipartUpload_resp := None;
     CompleteMultipartUpload_resp := fun _ => None |}.

(** As [ok_env], with a different ETag for the first part. *)
Definition etags_env (content : list byte) : Env :=
  {| LoadDefaultConfig := None;
     os_Open := fun path => inl {| name := path; data := content |};
     read_fault := fun _ => None;
     CreateMultipartUpload_resp := fun _ _ => inl "id-1";
     UploadPart_resp := fun i _ => if (i =? 0)%nat then inl "etag-1" else inl "etag-2";
     AbortMultipartUpload_resp := None;
     CompleteMultipartUpload_resp := fun _ => None |}.

(** As [ok_env], with a file that does not open. *)
Definition no_file_env : Env :=
  {| LoadDefaultConfig := None;
     os_Open := fun _ => inr (Failure "no such file");
     read_fault := fun _ => None;
     CreateMultipartUpload_resp := fun _ _ => inl "id-1";
     UploadPart_resp := fun _ _ => inl "etag";
     AbortMultipartUpload_resp := None;
     CompleteMultipartUpload_resp := fun _ => None |}.

(** As [ok_env], with a configuration that does not load. *)
Definition no_config_env (content : list byte) : Env :=
  {| LoadDefaultConfig := Some (Failure "no credentials");
     os_Open := fun path => inl {| name := path; data := content |};
     read_fault := fun _ => None;
     CreateMultipartUpload_resp := fun _ _ => inl "id-1";
     UploadPart_resp := fun _ _ => inl "etag";
     AbortMultipartUpload_resp := None;
     CompleteMultipartUpload_resp := fun _ => None |}.

(** As [ok_env], with the session refused by the service. *)
Definition no_session_env (content : list byte) : Env :=
  {| LoadDefaultConfig := None;
     os_Open := fun path => inl {| name := path; data := content |};
     read_fault := fun _ => None;
     CreateMultipartUpload_resp := fun _ _ => inr (Failure "403 Access Denied");
     UploadPart_resp := fun _ _ => inl "etag";
     AbortMultipartUpload_resp := None;
     CompleteMultipartUpload_resp := fun _ => None |}.

Definition abc : list byte := [Byte.x61; Byte.x62; Byte.x63].

Definition flags2 : UploadConfiguration :=
  {| bucket := "b"; key := "k"; filePath := "f"; chunkSize := 2 |}.

Definition flags0 : UploadConfiguration :=
  {| bucket := "b"; key := "k"; filePath := "f"; chunkSize := 0 |}.

Definition flags_min : UploadConfiguration :=
  {| bucket := "b"; key := "k"; filePath := "f"; chunkSize := minimumChunkSize |}.

Definition flags_no_bucket : UploadConfiguration :=
  {| bucket := ""; key := "k"; filePath := "f"; chunkSize := minimumChunkSize |}.

(** A file of [2^31] chunks of [minimumChunkSize] bytes (10 PiB of zeros). *)
Definition big_file : list byte :=
  repeat Byte.x00 (Z.to_nat (2147483648 * 5242880)).

(** ** Reading traces *)

Definition uploads (t : list event) : list UploadPartInput :=
  flat_map (fun e => match e with UploadPart i => [i] | _ => [] end) t.

Definition aborts (t : list event) : list (string * string * string) :=
  flat_map (fun e => match e with
                     | AbortMultipartUpload b k u => [(b, k, u)]
                     | _ => []
                     end) t.

Definition creates (t : list event) : list (string * string) :=
  flat_map (fun e => match e with CreateMultipartUpload b k => [(b, k)] | _ => [] end) t.

Definition completions (t : list event) : list (list CompletedPart) :=
  flat_map (fun e => match e with
                     | CompleteMultipartUpload _ _ _ parts => [parts]
                     | _ => []
                     end) t.

Definition closes (t : list event) : list string :=
  flat_map (fun e => match e with Close p => [p] | _ => [] end) t.

Definition opens (t : list event) : list string :=
  flat_map (fun e => match e with Open p => [p] | _ => [] end) t.

(** The bytes of [f] not read yet, and the size of the next read into [buffer]. *)
Definition unread (f : File) (st : state) : list byte := skipn (offset st) (data f).

Definition chunk_len (f : File) (buffer : list byte) (st : state) : nat :=
  Nat.min (length buffer) (length (unread f st)).

Definition part_input (bucket key uploadID : string) (partNum : Z) (body : list byte)
    : UploadPartInput :=
  {| Bucket := bucket; Key := key; PartNumber_ := partNum; UploadId := uploadID;
     Body := body |}.

(** What src/main.go prints while it validates its flags (lines 29-36). *)
Definition validation (a : UploadConfiguration) : list event :=
  (if missing_flag (bucket a) (key a) (filePath a)
   then [flag_Usage; fmt_Println [VStr "bucket, key, and file must all be provided"]]
   else []) ++
  (if chunkSize a <? minimumChunkSize
   then [fmt_Println [VStr "--chunkSize must be greater than: "; VInt minimumChunkSize]]
   else []).

(** The events of src/main.go from the flags to the printed upload id. *)
Definition session_opened (a : UploadConfiguration) (uploadID : string) : list event :=
  validation a ++
  [Open (filePath a); CreateMultipartUpload (bucket a) (key a);
   fmt_Println [VStr "Upload ID: "; VStr uploadID]].

(** The state of [main] when its loop starts: the file is open at its first
    byte and [f.Close] is deferred. *)
Definition loop_start (f : File) : state :=
  {| offset := 0; n_read := 0; n_upload := 0; defers := [defer_Close f] |}.

Definition fatals (t : list event) : list (string * list value) :=
  flat_map (fun e => match e with log_Fatalf fmt args => [(fmt, args)] | _ => [] end) t.

(** [ceil (s / c)] on integers, for [0 < c]. *)
Definition ceil_div (s c : Z) : Z := (s + c - 1) / c.

(** The part numbers the loop hands out in [n] iterations when it starts at
    [pn]: [partNum++] on an [int32], [n] times. *)
Definition numbered (pn : Z) (n : nat) : list Z :=
  map (fun j => int32 (pn + Z.of_nat j)) (seq 0 n).

(** [1; 2; ...; n] *)
Definition one_to (n : nat) : list Z := map Z.of_nat (seq 1 n).

(** The buffer after the next read. *)
Definition next_buffer (f : File) (buffer : list byte) (st : state) : list byte :=
  firstn (chunk_len f buffer st) (unread f st) ++ skipn (chunk_len f buffer st) buffer.

(** The state after one full iteration: a read and an upload. *)
Definition after_part (f : File) (buffer : list byte) (st : state) : state :=
  after_upload (after_read st (chunk_len f buffer st)).

(** ** More readings of traces *)

(** The progress lines: the part number and ETag of each
    [fmt.Printf("Uploaded part %d, ETag: %s\n", ...)]. *)
Definition progress (t : list event) : list (Z * string) :=
  flat_map (fun e => match e with
                     | fmt_Printf "Uploaded part %d, ETag: %s\n" [VInt pn; VStr etag] =>
                         [(pn, etag)]
                     | _ => []
                     end) t.

(** The session each call to the service addresses, [CreateMultipartUpload]
    apart: bucket, key and upload id. *)
Definition sessions_used (t : list event) : list (string * string * string) :=
  flat_map (fun e => match e with
                     | UploadPart i => [(Bucket i, Key i, UploadId i)]
                     | AbortMultipartUpload b k u => [(b, k, u)]
                     | CompleteMultipartUpload b k u _ => [(b, k, u)]
                     | _ => []
                     end) t.

(** The parts the service acknowledged: the requests [ups], sent as the
    calls number [k], [k+1], ... and answered by [env], up to the first
    refusal, each with the ETag of its answer. *)
Fixpoint acknowledged (env : Env) (k : nat) (ups : list UploadPartInput)
    : list CompletedPart :=
  match ups with
  | [] => []
  | inp :: ups' =>
      match UploadPart_resp env k inp with
      | inl etag =>
          {| ETag := etag; PartNumber := PartNumber_ inp |} :: acknowledged env (S k) ups'
      | inr _ => []
      end
  end.

(** The flags of src/unnamed/part_001 seen as flags of src/main.go: the
    buffer of [5*1024*1024] bytes is the chunk size. *)
Definition fixed_flags (bucket key filePath : string) : UploadConfiguration :=
  {| bucket := bucket; key := key; filePath := filePath; chunkSize := 5 * 1024 * 1024 |}.

(** The events of the refactored variant from the flags to the opening of
    the file, on valid flags. *)
Definition refactored_opened (a : UploadConfiguration) (uploadId : string) : list event :=
  [CreateMultipartUpload (bucket a) (key a);
   fmt_Println [VStr "Upload ID: "; VStr uploadId];
   Open (filePath a)].

(** ** The embedding at work *)

Example int32_wraps : int32 (2147483647 + 1) = -2147483648.
Proof. reflexivity. Qed.

(** Three bytes in chunks of two: parts of 2 and 1 bytes, numbered 1 and 2. *)
Example main_go_uploads_abc :
  run (MainGo.main flags2) (ok_env abc) =
    ([fmt_Println [VStr "--chunkSize must be greater than: "; VInt 5242880];
      Open "f"; CreateMultipartUpload "b" "k";
      fmt_Println [VStr "Upload ID: "; VStr "id-1"];
      Read 2 None;
      UploadPart (part_input "b" "k" "id-1" 1 [Byte.x61; Byte.x62]);
      fmt_Printf "Uploaded part %d, ETag: %s\n" [VInt 1; VStr "etag"];
      Read 1 None;
      UploadPart (part_input "b" "k" "id-1" 2 [Byte.x63]);
      fmt_Printf "Uploaded part %d, ETag: %s\n" [VInt 2; VStr "etag"];
      Read 0 (Some EOF);
      CompleteMultipartUpload "b" "k" "id-1"
        [{| ETag := "etag"; PartNumber := 1 |}; {| ETag := "etag"; PartNumber := 2 |}];
      fmt_Println [VStr "Upload completed successfully!"];
      Close "f"],
     Returned).
Proof. reflexivity. Qed.

(** The refactored variant on the same file with the minimum chunk size:
    one part; the file is closed when [uploadParts] returns. *)
Example refactored_uploads_abc :
  run (Refactored.main flags_min) (ok_env abc) =
    ([CreateMultipartUpload "b" "k";
      fmt_Println [VStr "Upload ID: "; VStr "id-1"];
      Open "f";
      Read 3 None;
      UploadPart (part_input "b" "k" "id-1" 1 abc);
      fmt_Printf "Uploaded part %d, ETag: %s\n" [VInt 1; VStr "etag"];
      Read 0 (Some EOF);
      Close "f";
      CompleteMultipartUpload "b" "k" "id-1" [{| ETag := "etag"; PartNumber := 1 |}];
      fmt_Println [VStr "Upload completed successfully!"]],
     Returned).
Proof. vm_compute. reflexivity. Qed.

(** A failed second upload in src/main.go: abort, then [log.Fatalf]. *)
Example main_go_second_upload_fails :
  run (MainGo.main flags2) (upload_fails_env abc 1) =
    ([fmt_Println [VStr "--chunkSize must be greater than: "; VInt 5242880];
      Open "f"; CreateMultipartUpload "b" "k";
      fmt_Println [VStr "Upload ID: "; VStr "id-1"];
      Read 2 None;
      UploadPart (part_input "b" "k" "id-1" 1 [Byte.x61; Byte.x62]);
      fmt_Printf "Uploaded part %d, ETag: %s\n" [VInt 1; VStr "etag"];
      Read 1 None;
      UploadPart (part_input "b" "k" "id-1" 2 [Byte.x63]);
      AbortMultipartUpload "b" "k" "id-1";
      log_Fatalf "failed to upload part %d: %v" [VInt 2; VErr (Failure "503 Slow Down")]],
     Exited 1).
Proof. reflexivity. Qed.

(** ** Projections of traces *)

Lemma uploads_app t1 t2 : uploads (t1 ++ t2) = uploads t1 ++ uploads t2.
Proof. apply flat_map_app. Qed.

Lemma aborts_app t1 t2 : aborts (t1 ++ t2) = aborts t1 ++ aborts t2.
Proof. apply flat_map_app. Qed.

Lemma creates_app t1 t2 : creates (t1 ++ t2) = creates t1 ++ creates t2.
Proof. apply flat_map_app. Qed.

Lemma completions_app t1 t2 : completions (t1 ++ t2) = completions t1 ++ completions t2.
Proof. apply flat_map_app. Qed.

Lemma closes_app t1 t2 : closes (t1 ++ t2) = closes t1 ++ closes t2.
Proof. apply flat_map_app. Qed.

Lemma opens_app t1 t2 : opens (t1 ++ t2) = opens t1 ++ opens t2.
Proof. apply flat_map_app. Qed.

Lemma fatals_app t1 t2 : fatals (t1 ++ t2) = fatals t1 ++ fatals t2.
Proof. apply flat_map_app. Qed.

Lemma uploads_deferred l : uploads (map run_deferred l) = [].
Proof. induction l as [|[g] l IH]; [reflexivity | exact IH]. Qed.

Lemma validation_quiet a :
  uploads (validation a) = [] /\ aborts (validation a) = [] /\
  creates (validation a) = [] /\ completions (validation a) = [] /\
  closes (validation a) = [] /\ fatals (validation a) = [].
Proof.
  unfold validation.
  destruct (missing_flag _ _ _), (chunkSize a <? minimumChunkSize); repeat split.
Qed.

Lemma session_opened_quiet a uploadID :
  uploads (session_opened a uploadID) = [] /\ aborts (session_opened a uploadID) = [] /\
  completions (session_opened a uploadID) = [] /\
  closes (session_opened a uploadID) = [] /\ fatals (session_opened a uploadID) = [] /\
  creates (session_opened a uploadID) = [(bucket a, key a)].
Proof.
  unfold session_opened.
  rewrite uploads_app, aborts_app, completions_app, closes_app, fatals_app, creates_app.
  destruct (validation_quiet a) as (-> & -> & -> & -> & -> & ->). repeat split.
Qed.

(** ** Arithmetic of part counts and part numbers *)

Lemma ceil_div_zero c : 0 < c -> ceil_div 0 c = 0.
Proof. intros H. unfold ceil_div. apply Z.div_small. lia. Qed.

Lemma ceil_div_step s c n :
  0 < c -> 0 < s -> n = Z.min c s -> 1 + ceil_div (s - n) c = ceil_div s c.
Proof.
  intros Hc Hs ->. unfold ceil_div.
  destruct (Z.le_gt_cases c s) as [Hle|Hgt].
  - rewrite Z.min_l by lia.
    replace (s + c - 1) with ((s - c + c - 1) + 1 * c) by lia.
    rewrite Z.div_add by lia. lia.
  - rewrite Z.min_r by lia.
    replace (s - s + c - 1) with (c - 1) by lia.
    rewrite (Z.div_small (c - 1) c) by lia.
    rewrite Z.add_0_r. apply (Z.div_unique (s + c - 1) c 1 (s - 1)); lia.
Qed.

Lemma numbered_S pn n : numbered pn (S n) = int32 pn :: numbered (pn + 1) n.
Proof.
  unfold numbered. cbn [seq map]. rewrite Z.add_0_r. f_equal.
  rewrite <- seq_shift, map_map. apply map_ext. intros j. f_equal. lia.
Qed.

Lemma int32_add z k : int32 (int32 z + k) = int32 (z + k).
Proof.
  unfold int32. f_equal.
  replace ((z + 2147483648) mod 4294967296 - 2147483648 + k + 2147483648)
    with ((z + 2147483648) mod 4294967296 + k) by lia.
  rewrite Z.add_mod_idemp_l by lia. f_equal. lia.
Qed.

Lemma numbered_int32 pn n : numbered (int32 pn) n = numbered pn n.
Proof. unfold numbered. apply map_ext. intros j. apply int32_add. Qed.

Lemma int32_small z : -2147483648 <= z < 2147483648 -> int32 z = z.
Proof. intros H. unfold int32. rewrite Z.mod_small; lia. Qed.

Lemma int32_idem z : int32 (int32 z) = int32 z.
Proof. pose proof (int32_add z 0) as H. now rewrite !Z.add_0_r in H. Qed.

Lemma one_to_bound n x : In x (one_to n) -> 1 <= x <= Z.of_nat n.
Proof.
  unfold one_to. intros H. apply in_map_iff in H. destruct H as (j & <- & Hj).
  apply in_seq in Hj. lia.
Qed.

Lemma nth_error_one_to n i :
  (i < n)%nat -> nth_error (one_to n) i = Some (Z.of_nat (S i)).
Proof.
  intros H. unfold one_to. rewrite nth_error_map.
  rewrite nth_error_nth' with (d := 0%nat) by (rewrite length_seq; lia).
  rewrite seq_nth by lia. reflexivity.
Qed.

(** Below [2^31] parts the numbers are [1, 2, ..., n]. *)
Lemma numbered_one_to n : Z.of_nat n < 2147483648 -> numbered 1 n = one_to n.
Proof.
  intros H. unfold numbered, one_to. rewrite <- seq_shift, map_map.
  apply map_ext_in. intros j Hj. apply in_seq in Hj.
  rewrite int32_small; lia.
Qed.

(** ** The library sort *)

Lemma insert_part_in p l x : In x (insert_part p l) <-> x = p \/ In x l.
Proof.
  induction l as [|q l IH]; cbn.
  - intuition.
  - destruct (PartNumber q <? PartNumber p); cbn; rewrite ?IH; intuition.
Qed.

Lemma sort_Slice_in l x : In x (sort_Slice l) <-> In x l.
Proof.
  induction l as [|p l IH]; cbn; [reflexivity|].
  rewrite insert_part_in, IH. intuition.
Qed.

Lemma insert_part_perm p l : Permutation (insert_part p l) (p :: l).
Proof.
  induction l as [|q l IH]; cbn; [reflexivity|].
  destruct (PartNumber q <? PartNumber p); [|reflexivity].
  rewrite IH. apply perm_swap.
Qed.

Lemma sort_Slice_perm l : Permutation (sort_Slice l) l.
Proof.
  induction l as [|p l IH]; cbn; [reflexivity|].
  rewrite insert_part_perm. now constructor.
Qed.

(** Sorting a slice whose part numbers already increase changes nothing. *)
Lemma sort_Slice_sorted l :
  StronglySorted Z.lt (map PartNumber l) -> sort_Slice l = l.
Proof.
  induction l as [|p l IH]; intros H; [reflexivity|].
  cbn in *. inversion H as [|x xs Hs Hall]; subst.
  rewrite (IH Hs). destruct l as [|q l]; [reflexivity|].
  cbn in *. inversion Hall as [|y ys Hlt _]; subst.
  destruct (Z.ltb_spec (PartNumber q) (PartNumber p)); [lia | reflexivity].
Qed.

Lemma one_to_sorted n : StronglySorted Z.lt (one_to n).
Proof.
  unfold one_to. generalize 1%nat. induction n as [|n IH]; intros k; cbn.
  - constructor.
  - constructor; [apply IH|].
    apply Forall_forall. intros x Hx. apply in_map_iff in Hx.
    destruct Hx as (j & <- & Hj). apply in_seq in Hj. lia.
Qed.

(** ** The loop, one iteration at a time *)

Section LoopSteps.

Variables (env : Env) (bucket key : string) (f : File) (uploadID : string).

Lemma Read_fault (b : list byte) (st : state) (msg : string) :
  read_fault env (n_read st) = Some msg ->
  File_Read f b env st =
    ([Read 0 (Some (Failure msg))], after_read st 0, Val (0%nat, b, Some (Failure msg))).
Proof. intros H. unfold File_Read. now rewrite H. Qed.

Lemma Read_zero (b : list byte) (st : state) :
  read_fault env (n_read st) = None ->
  chunk_len f b st = 0%nat ->
  File_Read f b env st =
    ([Read 0 (zero_read_error b)], after_read st 0, Val (0%nat, b, zero_read_error b)).
Proof.
  intros H Hn. unfold File_Read. rewrite H. unfold chunk_len, unread in Hn.
  destruct b as [|x b]; [reflexivity|].
  destruct (skipn (offset st) (data f)) as [|y r] eqn:E; [reflexivity|].
  simpl in Hn. discriminate.
Qed.

Lemma zero_read_error_not_real (b : list byte) : is_real_error (zero_read_error b) = None.
Proof. now destruct b. Qed.

Lemma Read_some (b : list byte) (st : state) :
  read_fault env (n_read st) = None ->
  chunk_len f b st <> 0%nat ->
  File_Read f b env st =
    ([Read (chunk_len f b st) None], after_read st (chunk_len f b st),
     Val (chunk_len f b st,
          firstn (chunk_len f b st) (unread f st) ++ skipn (chunk_len f b st) b, None)).
Proof.
  intros H Hn. unfold File_Read. rewrite H. unfold chunk_len, unread in *.
  destruct b as [|x b]; [now elim Hn|].
  destruct (skipn (offset st) (data f)) as [|y r] eqn:E; [now elim Hn|].
  reflexivity.
Qed.

(** The slice [buffer[:n]] after a read of [n] bytes is the bytes read. *)
Lemma buffer_prefix (b : list byte) (st : state) :
  firstn (chunk_len f b st)
    (firstn (chunk_len f b st) (unread f st) ++ skipn (chunk_len f b st) b)
  = firstn (chunk_len f b st) (unread f st).
Proof.
  rewrite firstn_app.
  rewrite firstn_firstn, Nat.min_id.
  rewrite firstn_length_le by (unfold chunk_len; lia).
  rewrite Nat.sub_diag. simpl. now rewrite app_nil_r.
Qed.

End LoopSteps.

Section InlineLoop.

Variables (env : Env) (bucket key : string) (f : File) (uploadID : string).

Abbreviation request b pn st :=
  (part_input bucket key uploadID pn (firstn (chunk_len f b st) (unread f st))).

Lemma loop_read_fault fuel b pn acc st msg :
  read_fault env (n_read st) = Some msg ->
  loop (S fuel) bucket key f uploadID b pn acc env st =
    ([Read 0 (Some (Failure msg));
      log_Fatalf "failed to read file: %v" [VErr (Failure msg)]],
     after_read st 0, Halt (Exited 1)).
Proof.
  intros H. simpl. unfold bind. rewrite (Read_fault env f b st msg H). reflexivity.
Qed.

Lemma loop_break fuel b pn acc st :
  read_fault env (n_read st) = None ->
  chunk_len f b st = 0%nat ->
  loop (S fuel) bucket key f uploadID b pn acc env st =
    ([Read 0 (zero_read_error b)], after_read st 0, Val acc).
Proof.
  intros H Hn. simpl. unfold bind.
  rewrite (Read_zero env f b st H Hn), zero_read_error_not_real. reflexivity.
Qed.

Lemma loop_upload_failed fuel b pn acc st err :
  read_fault env (n_read st) = None ->
  chunk_len f b st <> 0%nat ->
  UploadPart_resp env (n_upload st) (request b pn st) = inr err ->
  loop (S fuel) bucket key f uploadID b pn acc env st =
    ([Read (chunk_len f b st) None; UploadPart (request b pn st);
      AbortMultipartUpload bucket key uploadID;
      log_Fatalf "failed to upload part %d: %v" [VInt pn; VErr err]],
     after_part f b st, Halt (Exited 1)).
Proof.
  intros H Hn Hu. simpl. unfold bind. rewrite (Read_some env f b st H Hn).
  cbn [is_real_error]. apply Nat.eqb_neq in Hn. rewrite Hn.
  unfold client_UploadPart. rewrite buffer_prefix.
  cbn [n_upload after_read]. unfold part_input in Hu. rewrite Hu.
  reflexivity.
Qed.

Lemma loop_upload_ok fuel b pn acc st etag :
  read_fault env (n_read st) = None ->
  chunk_len f b st <> 0%nat ->
  UploadPart_resp env (n_upload st) (request b pn st) = inl etag ->
  loop (S fuel) bucket key f uploadID b pn acc env st =
    match loop fuel bucket key f uploadID (next_buffer f b st) (int32 (pn + 1))
            (acc ++ [{| ETag := etag; PartNumber := pn |}]) env (after_part f b st) with
    | (t, st', r) =>
        ([Read (chunk_len f b st) None; UploadPart (request b pn st);
          fmt_Printf "Uploaded part %d, ETag: %s\n" [VInt pn; VStr etag]] ++ t, st', r)
    end.
Proof.
  intros H Hn Hu. cbn [loop]. unfold bind at 1. rewrite (Read_some env f b st H Hn).
  cbn [is_real_error]. apply Nat.eqb_neq in Hn. rewrite Hn.
  unfold bind at 1. unfold client_UploadPart. rewrite buffer_prefix.
  cbn [n_upload after_read]. unfold part_input in *. rewrite Hu.
  unfold bind at 1. unfold Printf, emit.
  fold (next_buffer f b st). fold (after_part f b st).
  destruct (loop fuel bucket key f uploadID (next_buffer f b st) (int32 (pn + 1))
              (acc ++ [{| ETag := etag; PartNumber := pn |}]) env (after_part f b st))
    as [[t st'] r].
  reflexivity.
Qed.

Lemma unread_after_part b st :
  length (unread f (after_part f b st)) = (length (unread f st) - chunk_len f b st)%nat.
Proof.
  unfold unread, after_part, after_upload, after_read. cbn [offset].
  rewrite !length_skipn. lia.
Qed.

(** Induction over the iterations of the loop: a property of a run of the
    loop follows from its four ways through one iteration.  The fuel has to
    exceed the number of unread bytes. *)
Lemma loop_cases
    (P : list byte -> Z -> list CompletedPart -> state ->
         list event * state * outcome (list CompletedPart) -> Prop) :
  (forall b pn acc st msg,
      read_fault env (n_read st) = Some msg ->
      P b pn acc st
        ([Read 0 (Some (Failure msg));
          log_Fatalf "failed to read file: %v" [VErr (Failure msg)]],
         after_read st 0, Halt (Exited 1))) ->
  (forall b pn acc st,
      read_fault env (n_read st) = None ->
      chunk_len f b st = 0%nat ->
      P b pn acc st ([Read 0 (zero_read_error b)], after_read st 0, Val acc)) ->
  (forall b pn acc st err,
      read_fault env (n_read st) = None ->
      chunk_len f b st <> 0%nat ->
      UploadPart_resp env (n_upload st) (request b pn st) = inr err ->
      P b pn acc st
        ([Read (chunk_len f b st) None; UploadPart (request b pn st);
          AbortMultipartUpload bucket key uploadID;
          log_Fatalf "failed to upload part %d: %v" [VInt pn; VErr err]],
         after_part f b st, Halt (Exited 1))) ->
  (forall b pn acc st etag t st' r,
      read_fault env (n_read st) = None ->
      chunk_len f b st <> 0%nat ->
      UploadPart_resp env (n_upload st) (request b pn st) = inl etag ->
      P (next_buffer f b st) (int32 (pn + 1))
        (acc ++ [{| ETag := etag; PartNumber := pn |}]) (after_part f b st) (t, st', r) ->
      P b pn acc st
        ([Read (chunk_len f b st) None; UploadPart (request b pn st);
          fmt_Printf "Uploaded part %d, ETag: %s\n" [VInt pn; VStr etag]] ++ t, st', r)) ->
  forall fuel b pn acc st,
    (length (unread f st) < fuel)%nat ->
    P b pn acc st (loop fuel bucket key f uploadID b pn acc env st).
Proof.
  intros Hfault Hbreak Hfail Hok.
  induction fuel as [|fuel IH]; intros b pn acc st Hfuel; [lia|].
  destruct (read_fault env (n_read st)) as [msg|] eqn:Hr.
  - rewrite (loop_read_fault fuel b pn acc st msg Hr). now apply Hfault.
  - destruct (Nat.eq_dec (chunk_len f b st) 0) as [Hn|Hn].
    + rewrite (loop_break fuel b pn acc st Hr Hn). now apply Hbreak.
    + destruct (UploadPart_resp env (n_upload st) (request b pn st)) as [etag|err] eqn:Hu.
      * rewrite (loop_upload_ok fuel b pn acc st etag Hr Hn Hu).
        specialize (IH (next_buffer f b st) (int32 (pn + 1))
                       (acc ++ [{| ETag := etag; PartNumber := pn |}]) (after_part f b st)).
        destruct (loop fuel bucket key f uploadID (next_buffer f b st) (int32 (pn + 1))
                    (acc ++ [{| ETag := etag; PartNumber := pn |}]) env (after_part f b st))
          as [[t st'] r].
        apply Hok; try assumption. apply IH.
        rewrite unread_after_part. unfold chunk_len in *. lia.
      * rewrite (loop_upload_failed fuel b pn acc st err Hr Hn Hu). now apply Hfail.
Qed.

(** The loop defers nothing. *)
Lemma loop_defers fuel b pn acc st :
  defers (snd (fst (loop fuel bucket key f uploadID b pn acc env st))) = defers st.
Proof.
  revert b pn acc st. induction fuel as [|fuel IH]; intros b pn acc st; [reflexivity|].
  destruct (read_fault env (n_read st)) as [msg|] eqn:Hr.
  - now rewrite (loop_read_fault fuel b pn acc st msg Hr).
  - destruct (Nat.eq_dec (chunk_len f b st) 0) as [Hn|Hn].
    + now rewrite (loop_break fuel b pn acc st Hr Hn).
    + destruct (UploadPart_resp env (n_upload st) (request b pn st)) as [etag|err] eqn:Hu.
      * rewrite (loop_upload_ok fuel b pn acc st etag Hr Hn Hu).
        specialize (IH (next_buffer f b st) (int32 (pn + 1))
                       (acc ++ [{| ETag := etag; PartNumber := pn |}]) (after_part f b st)).
        destruct (loop fuel bucket key f uploadID (next_buffer f b st) (int32 (pn + 1))
                    (acc ++ [{| ETag := etag; PartNumber := pn |}]) env (after_part f b st))
          as [[t st'] r].
        exact IH.
      * now rewrite (loop_upload_failed fuel b pn acc st err Hr Hn Hu).
Qed.

End InlineLoop.

(** ** src/main.go, phase by phase *)

Section MainGoRun.

Variables (env : Env) (a : UploadConfiguration).

Lemma main_config_error err :
  LoadDefaultConfig env = Some err ->
  run (MainGo.main a) env =
    (validation a ++
     [log_Fatalf "%v" [VErr (Errorf "unable to load SDK config: %v" [VErr err])]],
     Exited 1).
Proof.
  intros H.
  unfold run, call, MainGo.main, validation, bind, when, initializeClient,
    config_LoadDefaultConfig, bind, ret.
  rewrite H.
  destruct (missing_flag _ _ _), (chunkSize a <? minimumChunkSize); reflexivity.
Qed.

Lemma main_open_error err :
  LoadDefaultConfig env = None ->
  os_Open env (filePath a) = inr err ->
  run (MainGo.main a) env =
    (validation a ++ [Open (filePath a); log_Fatalf "failed to open file, %v" [VErr err]],
     Exited 1).
Proof.
  intros H Ho.
  unfold run, call, MainGo.main, validation, bind, when, initializeClient,
    config_LoadDefaultConfig, bind, ret, Open_.
  rewrite H. cbn [init_state offset n_read n_upload defers]. rewrite Ho.
  destruct (missing_flag _ _ _), (chunkSize a <? minimumChunkSize); reflexivity.
Qed.

Lemma main_create_error f err :
  LoadDefaultConfig env = None ->
  os_Open env (filePath a) = inl f ->
  CreateMultipartUpload_resp env (bucket a) (key a) = inr err ->
  run (MainGo.main a) env =
    (validation a ++
     [Open (filePath a); CreateMultipartUpload (bucket a) (key a);
      log_Fatalf "failed to create multipart upload: %v" [VErr err]],
     Exited 1).
Proof.
  intros H Ho Hc.
  unfold run, call, MainGo.main, validation, bind, when, initializeClient,
    config_LoadDefaultConfig, bind, ret, Open_, client_CreateMultipartUpload.
  rewrite H. cbn [init_state offset n_read n_upload defers]. rewrite Ho, Hc.
  destruct (missing_flag _ _ _), (chunkSize a <? minimumChunkSize); reflexivity.
Qed.

Lemma main_negative_chunk f uploadID :
  LoadDefaultConfig env = None ->
  os_Open env (filePath a) = inl f ->
  CreateMultipartUpload_resp env (bucket a) (key a) = inl uploadID ->
  chunkSize a < 0 ->
  run (MainGo.main a) env =
    (session_opened a uploadID ++ [Close (name f)],
     Panicked "makeslice: len out of range").
Proof.
  intros H Ho Hc Hn. apply Z.ltb_lt in Hn.
  unfold run, call, MainGo.main, MainGo.collect, session_opened, validation, bind, when,
    initializeClient, config_LoadDefaultConfig, bind, ret, Open_,
    client_CreateMultipartUpload, make_bytes.
  rewrite H. cbn [init_state offset n_read n_upload defers]. rewrite Ho, Hc, Hn.
  destruct (missing_flag _ _ _), (chunkSize a <? minimumChunkSize); reflexivity.
Qed.

(** Once the session exists and the buffer is allocated, the run is the
    loop's run followed by the completion call. *)
Lemma main_session f uploadID :
  LoadDefaultConfig env = None ->
  os_Open env (filePath a) = inl f ->
  CreateMultipartUpload_resp env (bucket a) (key a) = inl uploadID ->
  0 <= chunkSize a ->
  run (MainGo.main a) env =
    match loop (S (length (data f))) (bucket a) (key a) f uploadID
            (repeat Byte.x00 (Z.to_nat (chunkSize a))) 1 [] env (loop_start f) with
    | (t, _, Val parts) =>
        match CompleteMultipartUpload_resp env (sort_Slice parts) with
        | Some err =>
            (session_opened a uploadID ++ t ++
             [CompleteMultipartUpload (bucket a) (key a) uploadID (sort_Slice parts);
              log_Fatalf "failed to complete multipart upload: %v" [VErr err]],
             Exited 1)
        | None =>
            (session_opened a uploadID ++ t ++
             [CompleteMultipartUpload (bucket a) (key a) uploadID (sort_Slice parts);
              fmt_Println [VStr "Upload completed successfully!"];
              Close (name f)],
             Returned)
        end
    | (t, _, Halt (Exited c)) => (session_opened a uploadID ++ t, Exited c)
    | (t, _, Halt OutOfFuel) => (session_opened a uploadID ++ t, OutOfFuel)
    | (t, _, Halt h) => (session_opened a uploadID ++ t ++ [Close (name f)], h)
    end.
Proof.
  intros H Ho Hc Hn. apply Z.ltb_ge in Hn.
  unfold run, call, MainGo.main, MainGo.collect, complete, session_opened, validation,
    bind, when, initializeClient, config_LoadDefaultConfig, bind, ret, Open_,
    client_CreateMultipartUpload, make_bytes, client_CompleteMultipartUpload, ret,
    defer, Println, emit, opened.
  rewrite H. cbn [init_state offset n_read n_upload defers]. rewrite Ho, Hc, Hn.
  pose proof (loop_defers env (bucket a) (key a) f uploadID (S (length (data f)))
                (repeat Byte.x00 (Z.to_nat (chunkSize a))) 1 [] (loop_start f)) as Hd.
  destruct (missing_flag _ _ _), (chunkSize a <? minimumChunkSize);
    cbn -[loop sort_Slice]; fold (loop_start f);
    destruct (loop _ _ _ _ _ _ _ _ _ _) as [[t st] [parts|h]];
    cbn [fst snd] in Hd;
    try destruct (CompleteMultipartUpload_resp env (sort_Slice parts));
    try destruct h;
    cbn -[loop sort_Slice]; rewrite ?Hd; cbn -[loop sort_Slice];
    rewrite ?app_nil_r, <- ?app_assoc; reflexivity.
Qed.

End MainGoRun.

(** ** What a run of the loop looks like *)

Section LoopFacts.

Variables (env : Env) (bucket key : string) (f : File) (uploadID : string).

Abbreviation request b pn st :=
  (part_input bucket key uploadID pn (firstn (chunk_len f b st) (unread f st))).

Abbreviation run_loop fuel b pn acc st :=
  (loop fuel bucket key f uploadID b pn acc env st).

(** The loop ends, by leaving the loop or by [log.Fatalf]. *)
Lemma loop_enough_fuel fuel b pn acc st :
  (length (unread f st) < fuel)%nat ->
  (exists parts, snd (run_loop fuel b pn acc st) = Val parts) \/
  snd (run_loop fuel b pn acc st) = Halt (Exited 1).
Proof.
  apply (loop_cases env bucket key f uploadID
           (fun _ _ _ _ res => (exists parts, snd res = Val parts) \/
                               snd res = Halt (Exited 1))).
  - intros; now right.
  - intros; left; now eexists.
  - intros; now right.
  - intros b' pn' acc' st' etag t st'' r _ _ _ IH. exact IH.
Qed.

(** The [j]-th upload of the loop carries the number [int32 (pn + j)], the
    bucket, the key and the upload id. *)
Lemma loop_uploads_numbered fuel b pn acc st :
  (length (unread f st) < fuel)%nat ->
  int32 pn = pn ->
  map PartNumber_ (uploads (fst (fst (run_loop fuel b pn acc st)))) =
    numbered pn (length (uploads (fst (fst (run_loop fuel b pn acc st))))).
Proof.
  intros Hfuel. revert fuel b pn acc st Hfuel.
  apply (loop_cases env bucket key f uploadID
           (fun _ pn _ _ res =>
              int32 pn = pn ->
              map PartNumber_ (uploads (fst (fst res))) =
                numbered pn (length (uploads (fst (fst res)))))).
  - reflexivity.
  - reflexivity.
  - intros b pn acc st err _ _ _ Hpn. cbn. unfold numbered. cbn.
    rewrite Z.add_0_r. now rewrite Hpn.
  - intros b pn acc st etag t st' r _ _ _ IH Hpn.
    specialize (IH (int32_idem _)). cbn [fst] in *.
    change (uploads (_ ++ t)) with (request b pn st :: uploads t).
    cbn [map length PartNumber_ part_input]. rewrite numbered_S, IH, Hpn.
    now rewrite numbered_int32.
Qed.

Lemma loop_uploads_session fuel b pn acc st :
  (length (unread f st) < fuel)%nat ->
  Forall (fun inp => Bucket inp = bucket /\ Key inp = key /\ UploadId inp = uploadID)
    (uploads (fst (fst (run_loop fuel b pn acc st)))).
Proof.
  apply (loop_cases env bucket key f uploadID
           (fun _ _ _ _ res =>
              Forall (fun inp => Bucket inp = bucket /\ Key inp = key /\
                                 UploadId inp = uploadID)
                (uploads (fst (fst res))))).
  - intros; constructor.
  - intros; constructor.
  - intros. cbn. repeat constructor.
  - intros b' pn' acc' st' etag t st'' r _ _ _ IH. cbn [fst] in *.
    change (uploads (_ ++ t)) with (request b' pn' st' :: uploads t).
    constructor; [now repeat split | exact IH].
Qed.

Lemma unread_split b st :
  firstn (chunk_len f b st) (unread f st) ++ unread f (after_part f b st) = unread f st.
Proof.
  unfold unread, after_part, after_upload, after_read. cbn [offset].
  rewrite Nat.add_comm, <- skipn_skipn. apply firstn_skipn.
Qed.

(** A run of the loop that leaves the loop: every part was uploaded.  No
    session was aborted and nothing was fatal; the recorded parts are the
    uploaded ones, in order; and with a buffer of [c > 0] bytes the bodies
    are the unread bytes, in order, in [ceil (unread / c)] parts. *)
Lemma loop_done fuel b pn acc st :
  (length (unread f st) < fuel)%nat ->
  forall parts,
    snd (run_loop fuel b pn acc st) = Val parts ->
    let t := fst (fst (run_loop fuel b pn acc st)) in
    aborts t = [] /\ fatals t = [] /\ completions t = [] /\ closes t = [] /\
    map PartNumber parts = map PartNumber acc ++ map PartNumber_ (uploads t) /\
    ((0 < length b)%nat ->
     concat (map Body (uploads t)) = unread f st /\
     Z.of_nat (length (uploads t)) =
       ceil_div (Z.of_nat (length (unread f st))) (Z.of_nat (length b))).
Proof.
  intros Hfuel. revert fuel b pn acc st Hfuel.
  apply (loop_cases env bucket key f uploadID
           (fun b _ acc st res =>
              forall parts, snd res = Val parts ->
                let t := fst (fst res) in
                aborts t = [] /\ fatals t = [] /\ completions t = [] /\ closes t = [] /\
                map PartNumber parts = map PartNumber acc ++ map PartNumber_ (uploads t) /\
                ((0 < length b)%nat ->
                 concat (map Body (uploads t)) = unread f st /\
                 Z.of_nat (length (uploads t)) =
                   ceil_div (Z.of_nat (length (unread f st))) (Z.of_nat (length b))))).
  - intros; discriminate.
  - intros b pn acc st _ Hn parts [= <-]. cbn.
    rewrite app_nil_r. repeat split; try reflexivity.
    + unfold chunk_len in Hn. destruct (unread f st); [reflexivity|cbn in Hn; lia].
    + unfold chunk_len in Hn.
      replace (length (unread f st)) with 0%nat by lia.
      rewrite ceil_div_zero; lia.
  - intros; discriminate.
  - intros b pn acc st etag t st' r _ Hn _ IH parts Hr. cbn [fst snd] in *.
    destruct (IH parts Hr) as (Ha & Hf & Hc & Hcl & Hp & Hb).
    change (aborts (_ ++ t)) with (aborts t).
    change (fatals (_ ++ t)) with (fatals t).
    change (completions (_ ++ t)) with (completions t).
    change (closes (_ ++ t)) with (closes t).
    change (uploads (_ ++ t)) with (request b pn st :: uploads t).
    repeat split; try assumption.
    + rewrite Hp, map_app. cbn. now rewrite <- app_assoc.
    + cbn [map concat Body part_input].
      unfold next_buffer in Hb. rewrite length_app, length_firstn, length_skipn in Hb.
      unfold chunk_len in Hb at 1 2.
      destruct Hb as [Hb _]; [lia|]. rewrite Hb. apply unread_split.
    + unfold next_buffer in Hb. rewrite length_app, length_firstn, length_skipn in Hb.
      unfold chunk_len in Hb at 1 2.
      destruct Hb as [_ Hb]; [lia|].
      cbn [length]. rewrite Nat2Z.inj_succ, Hb, unread_after_part.
      replace (Nat.min _ _ + (length b - _))%nat with (length b) by (unfold chunk_len; lia).
      unfold chunk_len in *. rewrite Nat2Z.inj_sub by lia. rewrite Nat2Z.inj_min.
      rewrite <- (ceil_div_step (Z.of_nat (length (unread f st))) (Z.of_nat (length b))
                   (Z.min (Z.of_nat (length b)) (Z.of_nat (length (unread f st)))));
        lia.
Qed.

(** A failed upload is the last one: the session is aborted and the process
    exits on the upload's error. *)
Lemma loop_upload_failure fuel b pn acc st :
  (length (unread f st) < fuel)%nat ->
  forall i inp err,
    nth_error (uploads (fst (fst (run_loop fuel b pn acc st)))) i = Some inp ->
    UploadPart_resp env (n_upload st + i) inp = inr err ->
    length (uploads (fst (fst (run_loop fuel b pn acc st)))) = S i /\
    snd (run_loop fuel b pn acc st) = Halt (Exited 1) /\
    exists t0,
      fst (fst (run_loop fuel b pn acc st)) =
        t0 ++ [UploadPart inp; AbortMultipartUpload bucket key uploadID;
               log_Fatalf "failed to upload part %d: %v"
                 [VInt (PartNumber_ inp); VErr err]] /\
      aborts t0 = [] /\ fatals t0 = [] /\ completions t0 = [].
Proof.
  intros Hfuel. revert fuel b pn acc st Hfuel.
  apply (loop_cases env bucket key f uploadID
           (fun _ _ _ st res =>
              forall i inp err,
                nth_error (uploads (fst (fst res))) i = Some inp ->
                UploadPart_resp env (n_upload st + i) inp = inr err ->
                length (uploads (fst (fst res))) = S i /\
                snd res = Halt (Exited 1) /\
                exists t0,
                  fst (fst res) =
                    t0 ++ [UploadPart inp; AbortMultipartUpload bucket key uploadID;
                           log_Fatalf "failed to upload part %d: %v"
                             [VInt (PartNumber_ inp); VErr err]] /\
                  aborts t0 = [] /\ fatals t0 = [] /\ completions t0 = [])).
  - intros b pn acc st msg _ i inp err Hi. destruct i; discriminate.
  - intros b pn acc st _ _ i inp err Hi. destruct i; discriminate.
  - intros b pn acc st e _ _ Hu i inp err Hi Hresp. cbn [fst snd] in *.
    destruct i as [|i]; [|destruct i; discriminate].
    injection Hi as <-. rewrite Nat.add_0_r, Hu in Hresp. injection Hresp as <-.
    repeat split. exists [Read (chunk_len f b st) None]. repeat split.
  - intros b pn acc st etag t st' r _ _ Hu IH i inp err Hi Hresp. cbn [fst snd] in *.
    change (uploads (_ ++ t)) with (request b pn st :: uploads t) in *.
    destruct i as [|i].
    + injection Hi as <-. rewrite Nat.add_0_r, Hu in Hresp. discriminate.
    + cbn [nth_error] in Hi.
      destruct (IH i inp err Hi) as (Hlen & Hr & t0 & Ht & Ha & Hf & Hc).
      { unfold after_part, after_upload, after_read. cbn [n_upload].
        now rewrite <- Nat.add_succ_comm in Hresp. }
      repeat split; [cbn [length]; now rewrite Hlen | exact Hr |].
      exists ([Read (chunk_len f b st) None; UploadPart (request b pn st);
               fmt_Printf "Uploaded part %d, ETag: %s\n" [VInt pn; VStr etag]] ++ t0).
      rewrite Ht, <- app_assoc. repeat split; assumption.
Qed.

(** The loop completes no session, creates none and closes no file. *)
Lemma loop_quiet fuel b pn acc st :
  (length (unread f st) < fuel)%nat ->
  completions (fst (fst (run_loop fuel b pn acc st))) = [] /\
  closes (fst (fst (run_loop fuel b pn acc st))) = [] /\
  creates (fst (fst (run_loop fuel b pn acc st))) = [].
Proof.
  apply (loop_cases env bucket key f uploadID
           (fun _ _ _ _ res =>
              completions (fst (fst res)) = [] /\ closes (fst (fst res)) = [] /\
              creates (fst (fst res)) = [])); intros; now repeat split.
Qed.

(** A failed read is the last read: the process exits on it, and the loop
    has aborted nothing. *)
Lemma loop_read_failure fuel b pn acc st :
  (length (unread f st) < fuel)%nat ->
  forall n msg,
    In (Read n (Some (Failure msg))) (fst (fst (run_loop fuel b pn acc st))) ->
    snd (run_loop fuel b pn acc st) = Halt (Exited 1) /\
    aborts (fst (fst (run_loop fuel b pn acc st))) = [] /\
    exists t0,
      fst (fst (run_loop fuel b pn acc st)) =
        t0 ++ [Read 0 (Some (Failure msg));
               log_Fatalf "failed to read file: %v" [VErr (Failure msg)]].
Proof.
  intros Hfuel. revert fuel b pn acc st Hfuel.
  apply (loop_cases env bucket key f uploadID
           (fun _ _ _ _ res =>
              forall n msg,
                In (Read n (Some (Failure msg))) (fst (fst res)) ->
                snd res = Halt (Exited 1) /\
                aborts (fst (fst res)) = [] /\
                exists t0,
                  fst (fst res) =
                    t0 ++ [Read 0 (Some (Failure msg));
                           log_Fatalf "failed to read file: %v" [VErr (Failure msg)]])).
  - intros b pn acc st msg _ n msg' Hin. cbn in Hin.
    destruct Hin as [[= <- <-]|[Hin|[]]]; [|discriminate].
    repeat split. now exists [].
  - intros b pn acc st _ _ n msg Hin. cbn in Hin.
    destruct Hin as [Hin|[]]. destruct b; discriminate.
  - intros b pn acc st err _ _ _ n msg Hin. cbn in Hin.
    repeat (destruct Hin as [Hin|Hin]; try discriminate). contradiction.
  - intros b pn acc st etag t st' r _ _ _ IH n msg Hin. cbn [fst snd] in *.
    cbn in Hin. destruct Hin as [Hin|[Hin|[Hin|Hin]]]; try discriminate.
    destruct (IH n msg Hin) as (Hr & Ha & t0 & ->).
    change (aborts (_ ++ t0 ++ _)) with (aborts (t0 ++ [Read 0 (Some (Failure msg));
               log_Fatalf "failed to read file: %v" [VErr (Failure msg)]])).
    repeat split; try assumption.
    eexists. rewrite app_assoc. reflexivity.
Qed.

(** With no read fault and no refused upload the loop leaves the loop. *)
Lemma loop_succeeds fuel b pn acc st :
  (length (unread f st) < fuel)%nat ->
  (forall i, read_fault env i = None) ->
  (forall i inp, exists etag, UploadPart_resp env i inp = inl etag) ->
  exists parts, snd (run_loop fuel b pn acc st) = Val parts.
Proof.
  intros Hfuel Hread Hup. revert fuel b pn acc st Hfuel.
  apply (loop_cases env bucket key f uploadID
           (fun _ _ _ _ res => exists parts, snd res = Val parts)).
  - intros b pn acc st msg H. now rewrite Hread in H.
  - intros. now eexists.
  - intros b pn acc st err _ _ H.
    destruct (Hup (n_upload st) (request b pn st)) as (etag & He). congruence.
  - intros b pn acc st etag t st' r _ _ _ IH. exact IH.
Qed.

End LoopFacts.

Lemma unread_start f : unread f (loop_start f) = data f.
Proof. reflexivity. Qed.

Lemma start_fuel f : (length (unread f (loop_start f)) < S (length (data f)))%nat.
Proof. rewrite unread_start. lia. Qed.

(** The runs of src/main.go that get a session and a buffer, by the way the
    loop ends. *)
Lemma main_session_run env a f uploadID :
  LoadDefaultConfig env = None ->
  os_Open env (filePath a) = inl f ->
  CreateMultipartUpload_resp env (bucket a) (key a) = inl uploadID ->
  0 <= chunkSize a ->
  exists tl st r,
    loop (S (length (data f))) (bucket a) (key a) f uploadID
      (repeat Byte.x00 (Z.to_nat (chunkSize a))) 1 [] env (loop_start f) = (tl, st, r) /\
    ((r = Halt (Exited 1) /\
      run (MainGo.main a) env = (session_opened a uploadID ++ tl, Exited 1)) \/
     (exists parts err,
        r = Val parts /\
        CompleteMultipartUpload_resp env (sort_Slice parts) = Some err /\
        run (MainGo.main a) env =
          (session_opened a uploadID ++ tl ++
           [CompleteMultipartUpload (bucket a) (key a) uploadID (sort_Slice parts);
            log_Fatalf "failed to complete multipart upload: %v" [VErr err]],
           Exited 1)) \/
     (exists parts,
        r = Val parts /\
        CompleteMultipartUpload_resp env (sort_Slice parts) = None /\
        run (MainGo.main a) env =
          (session_opened a uploadID ++ tl ++
           [CompleteMultipartUpload (bucket a) (key a) uploadID (sort_Slice parts);
            fmt_Println [VStr "Upload completed successfully!"];
            Close (name f)],
           Returned))).
Proof.
  intros Hcfg Hopen Hcreate Hpos.
  rewrite (main_session env a f uploadID Hcfg Hopen Hcreate Hpos).
  pose proof (loop_enough_fuel env (bucket a) (key a) f uploadID (S (length (data f)))
                (repeat Byte.x00 (Z.to_nat (chunkSize a))) 1 [] (loop_start f)) as Hend.
  destruct (loop _ _ _ _ _ _ _ _ _ _) as [[tl st] r].
  exists tl, st, r. split; [reflexivity|]. cbn [snd] in Hend.
  destruct Hend as [[parts ->] | ->].
  - unfold unread, loop_start. cbn [offset skipn]. lia.
  - right. destruct (CompleteMultipartUpload_resp env (sort_Slice parts)) as [err|] eqn:Hc.
    + left. now exists parts, err.
    + right. now exists parts.
  - now left.
Qed.

(** Case analysis on the phase in which a run of src/main.go ends. *)
Ltac main_phases env a :=
  let cerr := fresh "cerr" in
  let oerr := fresh "oerr" in
  let crerr := fresh "crerr" in
  let f := fresh "f" in
  let uploadID := fresh "uploadID" in
  let Hcfg := fresh "Hcfg" in
  let Hopen := fresh "Hopen" in
  let Hcreate := fresh "Hcreate" in
  let Hchunk := fresh "Hchunk" in
  destruct (LoadDefaultConfig env) as [cerr|] eqn:Hcfg;
  [ rewrite (main_config_error env a cerr Hcfg) in *
  | destruct (os_Open env (filePath a)) as [f|oerr] eqn:Hopen;
    [ destruct (CreateMultipartUpload_resp env (bucket a) (key a))
        as [uploadID|crerr] eqn:Hcreate;
      [ destruct (Z.lt_ge_cases (chunkSize a) 0) as [Hchunk|Hchunk];
        [ rewrite (main_negative_chunk env a f uploadID Hcfg Hopen Hcreate Hchunk) in *
        | destruct (main_session_run env a f uploadID Hcfg Hopen Hcreate Hchunk)
            as (tl & stl & rl & Hloop &
                [(-> & Hmain) | [(ps & e_complete & -> & Hcomplete & Hmain) |
                                 (ps & -> & Hcomplete & Hmain)]]);
          rewrite Hmain in * ]
      | rewrite (main_create_error env a f crerr Hcfg Hopen Hcreate) in * ]
    | rewrite (main_open_error env a oerr Hcfg Hopen) in * ] ].

(** A run of src/main.go that calls [CompleteMultipartUpload]: the loop ran
    to its end, the manifest is the sorted list of the recorded parts, and
    the run ends by the answer to that one call. *)
Lemma completed_run a env t h manifest :
  run (MainGo.main a) env = (t, h) ->
  In manifest (completions t) ->
  exists f uploadID tl parts,
    os_Open env (filePath a) = inl f /\
    CreateMultipartUpload_resp env (bucket a) (key a) = inl uploadID /\
    0 <= chunkSize a /\
    manifest = sort_Slice parts /\
    uploads t = uploads tl /\ aborts t = [] /\ completions t = [manifest] /\
    map PartNumber parts = numbered 1 (length (uploads t)) /\
    (0 < chunkSize a ->
     concat (map Body (uploads t)) = data f /\
     Z.of_nat (length (uploads t)) = ceil_div (Z.of_nat (length (data f))) (chunkSize a)) /\
    ((exists err,
         CompleteMultipartUpload_resp env manifest = Some err /\ h = Exited 1 /\
         t = session_opened a uploadID ++ tl ++
             [CompleteMultipartUpload (bucket a) (key a) uploadID manifest;
              log_Fatalf "failed to complete multipart upload: %v" [VErr err]] /\
         fatals t = [("failed to complete multipart upload: %v", [VErr err])] /\
         closes t = []) \/
     (CompleteMultipartUpload_resp env manifest = None /\ h = Returned /\
      t = session_opened a uploadID ++ tl ++
          [CompleteMultipartUpload (bucket a) (key a) uploadID manifest;
           fmt_Println [VStr "Upload completed successfully!"];
           Close (name f)] /\
      fatals t = [] /\ closes t = [name f])).
Proof.
  intros Hrun Hin.
  main_phases env a; injection Hrun as <- <-;
    try (rewrite !completions_app in Hin;
         destruct (validation_quiet a) as (_ & _ & _ & Hq & _); rewrite Hq in Hin;
         contradiction).
  - rewrite completions_app in Hin.
    destruct (session_opened_quiet a uploadID) as (_ & _ & Hq & _). rewrite Hq in Hin.
    contradiction.
  - (* the loop ended in log.Fatalf: no completion call *)
    exfalso.
    pose proof (loop_quiet env (bucket a) (key a) f uploadID (S (length (data f)))
                  (repeat Byte.x00 (Z.to_nat (chunkSize a))) 1 [] (loop_start f)
                  (start_fuel f)) as (Hq' & _).
    rewrite Hloop in Hq'. cbn [fst] in Hq'.
    rewrite completions_app, Hq' in Hin.
    destruct (session_opened_quiet a uploadID) as (_ & _ & Hq & _). rewrite Hq in Hin.
    contradiction.
  - pose proof (loop_done env (bucket a) (key a) f uploadID (S (length (data f)))
                  (repeat Byte.x00 (Z.to_nat (chunkSize a))) 1 [] (loop_start f)
                  (start_fuel f) ps) as Hdone.
    pose proof (loop_uploads_numbered env (bucket a) (key a) f uploadID
                  (S (length (data f))) (repeat Byte.x00 (Z.to_nat (chunkSize a)))
                  1 [] (loop_start f) (start_fuel f) eq_refl) as Hnum.
    rewrite Hloop in Hdone, Hnum. cbn [fst snd] in Hdone, Hnum.
    destruct (Hdone eq_refl) as (Ha & Hf & Hc & Hcl & Hp & Hb). clear Hdone.
    destruct (session_opened_quiet a uploadID) as (Hqu & Hqa & Hqc & Hqcl & Hqf & _).
    rewrite !completions_app, Hqc, Hc in Hin. cbn in Hin.
    destruct Hin as [<- | []].
    exists f, uploadID, tl, ps.
    rewrite !uploads_app, !aborts_app, !completions_app, !fatals_app, !closes_app.
    rewrite Hqu, Hqa, Hqc, Hqcl, Hqf, Ha, Hf, Hc, Hcl. cbn [app].
    change (uploads [_; _]) with (@nil UploadPartInput). rewrite app_nil_r.
    repeat split; try assumption; try reflexivity.
    + now rewrite <- Hnum, Hp.
    + rewrite repeat_length in Hb. destruct Hb as [Hb _]; [lia | exact Hb].
    + rewrite repeat_length in Hb. destruct Hb as [_ Hb]; [lia|].
      rewrite Hb, unread_start, Z2Nat.id by lia. reflexivity.
    + left. exists e_complete. repeat split; assumption.
  - pose proof (loop_done env (bucket a) (key a) f uploadID (S (length (data f)))
                  (repeat Byte.x00 (Z.to_nat (chunkSize a))) 1 [] (loop_start f)
                  (start_fuel f) ps) as Hdone.
    pose proof (loop_uploads_numbered env (bucket a) (key a) f uploadID
                  (S (length (data f))) (repeat Byte.x00 (Z.to_nat (chunkSize a)))
                  1 [] (loop_start f) (start_fuel f) eq_refl) as Hnum.
    rewrite Hloop in Hdone, Hnum. cbn [fst snd] in Hdone, Hnum.
    destruct (Hdone eq_refl) as (Ha & Hf & Hc & Hcl & Hp & Hb). clear Hdone.
    destruct (session_opened_quiet a uploadID) as (Hqu & Hqa & Hqc & Hqcl & Hqf & _).
    rewrite !completions_app, Hqc, Hc in Hin. cbn in Hin.
    destruct Hin as [<- | []].
    exists f, uploadID, tl, ps.
    rewrite !uploads_app, !aborts_app, !completions_app, !fatals_app, !closes_app.
    rewrite Hqu, Hqa, Hqc, Hqcl, Hqf, Ha, Hf, Hc, Hcl. cbn [app].
    change (uploads [_; _; _]) with (@nil UploadPartInput). rewrite app_nil_r.
    repeat split; try assumption; try reflexivity.
    + now rewrite <- Hnum, Hp.
    + rewrite repeat_length in Hb. destruct Hb as [Hb _]; [lia | exact Hb].
    + rewrite repeat_length in Hb. destruct Hb as [_ Hb]; [lia|].
      rewrite Hb, unread_start, Z2Nat.id by lia. reflexivity.
    + right. repeat split; assumption.
Qed.

Lemma returned_run a env t :
  run (MainGo.main a) env = (t, Returned) ->
  exists manifest, In manifest (completions t).
Proof.
  intros Hrun. main_phases env a; injection Hrun as <-; try discriminate.
  exists (sort_Slice ps). rewrite !completions_app. apply in_or_app. right.
  apply in_or_app. right. now left.
Qed.

(** With every collaborator answering well the run of src/main.go returns. *)
Lemma main_succeeds a env f uploadID :
  LoadDefaultConfig env = None ->
  os_Open env (filePath a) = inl f ->
  CreateMultipartUpload_resp env (bucket a) (key a) = inl uploadID ->
  0 <= chunkSize a ->
  (forall i, read_fault env i = None) ->
  (forall i inp, exists etag, UploadPart_resp env i inp = inl etag) ->
  (forall parts, CompleteMultipartUpload_resp env parts = None) ->
  snd (run (MainGo.main a) env) = Returned.
Proof.
  intros Hcfg Hopen Hcreate Hchunk Hread Hup Hcomplete.
  destruct (main_session_run env a f uploadID Hcfg Hopen Hcreate Hchunk)
    as (tl & st & r & Hloop & Hcases).
  destruct (loop_succeeds env (bucket a) (key a) f uploadID (S (length (data f)))
              (repeat Byte.x00 (Z.to_nat (chunkSize a))) 1 [] (loop_start f)
              (start_fuel f) Hread Hup) as (parts & Hparts).
  rewrite Hloop in Hparts. cbn [snd] in Hparts. subst r.
  destruct Hcases as [(Hr & _) | [(ps & err & _ & He & _) | (ps & _ & _ & ->)]].
  - discriminate.
  - now rewrite Hcomplete in He.
  - reflexivity.
Qed.


(** ** The loop of [uploadParts], one iteration at a time *)

Section RefactoredLoop.

Variables (env : Env) (cfg : UploadConfiguration) (f : File) (uploadId : string).

Abbreviation request b pn st :=
  (part_input (bucket cfg) (key cfg) uploadId pn
     (firstn (chunk_len f b st) (unread f st))).

Lemma uploadParts_read_fault fuel b pn acc st msg :
  read_fault env (n_read st) = Some msg ->
  Refactored.loop (S fuel) cfg f uploadId b pn acc env st =
    ([Read 0 (Some (Failure msg))], after_read st 0,
     Val (inr (Errorf "failed to read file: %v" [VErr (Failure msg)]))).
Proof.
  intros H. simpl. unfold bind. rewrite (Read_fault env f b st msg H). reflexivity.
Qed.

Lemma uploadParts_break fuel b pn acc st :
  read_fault env (n_read st) = None ->
  chunk_len f b st = 0%nat ->
  Refactored.loop (S fuel) cfg f uploadId b pn acc env st =
    ([Read 0 (zero_read_error b)], after_read st 0, Val (inl acc)).
Proof.
  intros H Hn. simpl. unfold bind.
  rewrite (Read_zero env f b st H Hn), zero_read_error_not_real. reflexivity.
Qed.

Lemma uploadParts_upload_failed fuel b pn acc st err :
  read_fault env (n_read st) = None ->
  chunk_len f b st <> 0%nat ->
  UploadPart_resp env (n_upload st) (request b pn st) = inr err ->
  Refactored.loop (S fuel) cfg f uploadId b pn acc env st =
    ([Read (chunk_len f b st) None; UploadPart (request b pn st)],
     after_part f b st,
     Val (inr (Errorf "failed to upload part %d: %v" [VInt pn; VErr err]))).
Proof.
  intros H Hn Hu. simpl. unfold bind. rewrite (Read_some env f b st H Hn).
  cbn [is_real_error]. apply Nat.eqb_neq in Hn. rewrite Hn.
  unfold client_UploadPart. rewrite buffer_prefix.
  cbn [n_upload after_read]. unfold part_input in Hu. rewrite Hu.
  reflexivity.
Qed.

Lemma uploadParts_upload_ok fuel b pn acc st etag :
  read_fault env (n_read st) = None ->
  chunk_len f b st <> 0%nat ->
  UploadPart_resp env (n_upload st) (request b pn st) = inl etag ->
  Refactored.loop (S fuel) cfg f uploadId b pn acc env st =
    match Refactored.loop fuel cfg f uploadId (next_buffer f b st) (int32 (pn + 1))
            (acc ++ [{| ETag := etag; PartNumber := pn |}]) env (after_part f b st) with
    | (t, st', r) =>
        ([Read (chunk_len f b st) None; UploadPart (request b pn st);
          fmt_Printf "Uploaded part %d, ETag: %s\n" [VInt pn; VStr etag]] ++ t, st', r)
    end.
Proof.
  intros H Hn Hu. cbn [Refactored.loop]. unfold bind at 1.
  rewrite (Read_some env f b st H Hn).
  cbn [is_real_error]. apply Nat.eqb_neq in Hn. rewrite Hn.
  unfold bind at 1. unfold client_UploadPart. rewrite buffer_prefix.
  cbn [n_upload after_read]. unfold part_input in *. rewrite Hu.
  unfold bind at 1. unfold Printf, emit.
  fold (next_buffer f b st). fold (after_part f b st).
  destruct (Refactored.loop fuel cfg f uploadId (next_buffer f b st) (int32 (pn + 1))
              (acc ++ [{| ETag := etag; PartNumber := pn |}]) env (after_part f b st))
    as [[t st'] r].
  reflexivity.
Qed.

(** Induction over the iterations of the loop of [uploadParts]. *)
Lemma uploadParts_loop_cases
    (P : list byte -> Z -> list CompletedPart -> state ->
         list event * state * outcome (list CompletedPart + error) -> Prop) :
  (forall b pn acc st msg,
      read_fault env (n_read st) = Some msg ->
      P b pn acc st
        ([Read 0 (Some (Failure msg))], after_read st 0,
         Val (inr (Errorf "failed to read file: %v" [VErr (Failure msg)])))) ->
  (forall b pn acc st,
      read_fault env (n_read st) = None ->
      chunk_len f b st = 0%nat ->
      P b pn acc st ([Read 0 (zero_read_error b)], after_read st 0, Val (inl acc))) ->
  (forall b pn acc st err,
      read_fault env (n_read st) = None ->
      chunk_len f b st <> 0%nat ->
      UploadPart_resp env (n_upload st) (request b pn st) = inr err ->
      P b pn acc st
        ([Read (chunk_len f b st) None; UploadPart (request b pn st)],
         after_part f b st,
         Val (inr (Errorf "failed to upload part %d: %v" [VInt pn; VErr err])))) ->
  (forall b pn acc st etag t st' r,
      read_fault env (n_read st) = None ->
      chunk_len f b st <> 0%nat ->
      UploadPart_resp env (n_upload st) (request b pn st) = inl etag ->
      P (next_buffer f b st) (int32 (pn + 1))
        (acc ++ [{| ETag := etag; PartNumber := pn |}]) (after_part f b st) (t, st', r) ->
      P b pn acc st
        ([Read (chunk_len f b st) None; UploadPart (request b pn st);
          fmt_Printf "Uploaded part %d, ETag: %s\n" [VInt pn; VStr etag]] ++ t, st', r)) ->
  forall fuel b pn acc st,
    (length (unread f st) < fuel)%nat ->
    P b pn acc st (Refactored.loop fuel cfg f uploadId b pn acc env st).
Proof.
  intros Hfault Hbreak Hfail Hok.
  induction fuel as [|fuel IH]; intros b pn acc st Hfuel; [lia|].
  destruct (read_fault env (n_read st)) as [msg|] eqn:Hr.
  - rewrite (uploadParts_read_fault fuel b pn acc st msg Hr). now apply Hfault.
  - destruct (Nat.eq_dec (chunk_len f b st) 0) as [Hn|Hn].
    + rewrite (uploadParts_break fuel b pn acc st Hr Hn). now apply Hbreak.
    + destruct (UploadPart_resp env (n_upload st) (request b pn st)) as [etag|err] eqn:Hu.
      * rewrite (uploadParts_upload_ok fuel b pn acc st etag Hr Hn Hu).
        specialize (IH (next_buffer f b st) (int32 (pn + 1))
                       (acc ++ [{| ETag := etag; PartNumber := pn |}]) (after_part f b st)).
        destruct (Refactored.loop fuel cfg f uploadId (next_buffer f b st) (int32 (pn + 1))
                    (acc ++ [{| ETag := etag; PartNumber := pn |}]) env (after_part f b st))
          as [[t st'] r].
        apply Hok; try assumption. apply IH.
        rewrite unread_after_part. unfold chunk_len in *. lia.
      * rewrite (uploadParts_upload_failed fuel b pn acc st err Hr Hn Hu). now apply Hfail.
Qed.

(** The loop of [uploadParts] always hands a result back to [uploadParts]:
    it never ends the process.  It defers nothing, opens, closes, creates,
    aborts and completes nothing, and a failed read is its last event, with
    the read error as its result. *)
Lemma uploadParts_loop_returns fuel b pn acc st :
  (length (unread f st) < fuel)%nat ->
  let res := Refactored.loop fuel cfg f uploadId b pn acc env st in
  (exists v, snd res = Val v) /\
  defers (snd (fst res)) = defers st /\
  opens (fst (fst res)) = [] /\ closes (fst (fst res)) = [] /\
  creates (fst (fst res)) = [] /\ aborts (fst (fst res)) = [] /\
  completions (fst (fst res)) = [] /\ fatals (fst (fst res)) = [] /\
  (forall n msg,
      In (Read n (Some (Failure msg))) (fst (fst res)) ->
      snd res = Val (inr (Errorf "failed to read file: %v" [VErr (Failure msg)])) /\
      exists t0, fst (fst res) = t0 ++ [Read 0 (Some (Failure msg))]).
Proof.
  intros Hfuel. revert fuel b pn acc st Hfuel.
  apply (uploadParts_loop_cases
           (fun _ _ _ st res =>
              (exists v, snd res = Val v) /\
              defers (snd (fst res)) = defers st /\
              opens (fst (fst res)) = [] /\ closes (fst (fst res)) = [] /\
              creates (fst (fst res)) = [] /\ aborts (fst (fst res)) = [] /\
              completions (fst (fst res)) = [] /\ fatals (fst (fst res)) = [] /\
              (forall n msg,
                  In (Read n (Some (Failure msg))) (fst (fst res)) ->
                  snd res =
                    Val (inr (Errorf "failed to read file: %v" [VErr (Failure msg)])) /\
                  exists t0, fst (fst res) = t0 ++ [Read 0 (Some (Failure msg))]))).
  - intros b pn acc st msg _. cbn. repeat split; try (now eexists).
    + destruct H as [[= _ <-]|[]]. reflexivity.
    + destruct H as [[= <- <-]|[]]. now exists [].
  - intros b pn acc st _ _. cbn. repeat split; try (now eexists);
      destruct H as [H|[]]; destruct b; discriminate.
  - intros b pn acc st err _ _ _. cbn. repeat split; try (now eexists);
      destruct H as [H|[H|[]]]; discriminate.
  - intros b pn acc st etag t st' r _ _ _ (Hv & Hd & Ho & Hc & Hcr & Ha & Hco & Hf & IH).
    cbn [fst snd] in *.
    change (opens (_ ++ t)) with (opens t).
    change (closes (_ ++ t)) with (closes t).
    change (creates (_ ++ t)) with (creates t).
    change (aborts (_ ++ t)) with (aborts t).
    change (completions (_ ++ t)) with (completions t).
    change (fatals (_ ++ t)) with (fatals t).
    repeat split; try assumption.
    + cbn in H. destruct H as [H|[H|[H|H]]]; try discriminate. now apply (IH n msg).
    + cbn in H. destruct H as [H|[H|[H|H]]]; try discriminate.
      destruct (IH n msg H) as (_ & t0 & ->).
      eexists. rewrite app_assoc. reflexivity.
Qed.

End RefactoredLoop.

Lemma same_io_chunk_len f b s1 s2 :
  same_io s1 s2 -> chunk_len f b s1 = chunk_len f b s2 /\ unread f s1 = unread f s2.
Proof. intros (Ho & _ & _). unfold chunk_len, unread. now rewrite Ho. Qed.

Lemma same_io_after_read s1 s2 n : same_io s1 s2 -> same_io (after_read s1 n) (after_read s2 n).
Proof. intros (Ho & Hr & Hu). unfold same_io, after_read. cbn. lia. Qed.

Lemma same_io_after_part f b s1 s2 :
  same_io s1 s2 -> same_io (after_part f b s1) (after_part f b s2).
Proof.
  intros H. destruct (same_io_chunk_len f b s1 s2 H) as (Hc & _).
  destruct H as (Ho & Hr & Hu). unfold same_io, after_part, after_upload, after_read.
  cbn. lia.
Qed.

Lemma loop_sim_prefix pre t1 s1 r1 t2 s2 r2 :
  loop_sim (t1, s1, r1) (t2, s2, r2) -> loop_sim (pre ++ t1, s1, r1) (pre ++ t2, s2, r2).
Proof.
  intros H. inversion H; subst; rewrite ?app_assoc; now constructor.
Qed.

(** The two loops run in step. *)
Lemma loops_in_step env cfg f uploadId fuel :
  forall b pn acc s1 s2,
    same_io s1 s2 ->
    loop_sim (loop fuel (bucket cfg) (key cfg) f uploadId b pn acc env s1)
             (Refactored.loop fuel cfg f uploadId b pn acc env s2).
Proof.
  induction fuel as [|fuel IH]; intros b pn acc s1 s2 Hs; [constructor|].
  destruct (same_io_chunk_len f b s1 s2 Hs) as (Hc & Hun).
  pose proof Hs as (Ho & Hrd & Hu).
  destruct (read_fault env (n_read s2)) as [msg|] eqn:Hr.
  - rewrite (uploadParts_read_fault env cfg f uploadId fuel b pn acc s2 msg Hr).
    rewrite <- Hrd in Hr.
    rewrite (loop_read_fault env (bucket cfg) (key cfg) f uploadId fuel b pn acc s1 msg Hr).
    apply (sim_read_error [Read 0 (Some (Failure msg))]). now apply same_io_after_read.
  - destruct (Nat.eq_dec (chunk_len f b s2) 0) as [Hn|Hn].
    + rewrite (uploadParts_break env cfg f uploadId fuel b pn acc s2 Hr Hn).
      rewrite <- Hrd in Hr. rewrite <- Hc in Hn.
      rewrite (loop_break env (bucket cfg) (key cfg) f uploadId fuel b pn acc s1 Hr Hn).
      constructor. now apply same_io_after_read.
    + destruct (UploadPart_resp env (n_upload s2)
                  (part_input (bucket cfg) (key cfg) uploadId pn
                     (firstn (chunk_len f b s2) (unread f s2)))) as [etag|err] eqn:Hup.
      * rewrite (uploadParts_upload_ok env cfg f uploadId fuel b pn acc s2 etag Hr Hn Hup).
        rewrite <- Hrd in Hr. rewrite <- Hc in Hn. rewrite <- Hu, <- Hc, <- Hun in Hup.
        rewrite (loop_upload_ok env (bucket cfg) (key cfg) f uploadId fuel b pn acc s1
                   etag Hr Hn Hup).
        specialize (IH (next_buffer f b s1) (int32 (pn + 1))
                       (acc ++ [{| ETag := etag; PartNumber := pn |}])
                       (after_part f b s1) (after_part f b s2)
                       (same_io_after_part f b s1 s2 Hs)).
        assert (Hb : next_buffer f b s2 = next_buffer f b s1)
          by (unfold next_buffer; now rewrite Hc, Hun).
        rewrite Hb, <- Hc, <- Hun.
        destruct (loop fuel _ _ _ _ _ _ _ _ _) as [[t1 st1] r1].
        destruct (Refactored.loop fuel _ _ _ _ _ _ _ _) as [[t2 st2] r2].
        now apply loop_sim_prefix.
      * rewrite (uploadParts_upload_failed env cfg f uploadId fuel b pn acc s2 err
                   Hr Hn Hup).
        rewrite <- Hrd in Hr. rewrite <- Hc in Hn. rewrite <- Hu, <- Hc, <- Hun in Hup.
        rewrite (loop_upload_failed env (bucket cfg) (key cfg) f uploadId fuel b pn acc s1
                   err Hr Hn Hup).
        rewrite <- Hc, <- Hun.
        apply (sim_upload_error
                 [Read (chunk_len f b s1) None;
                  UploadPart (part_input (bucket cfg) (key cfg) uploadId pn
                                (firstn (chunk_len f b s1) (unread f s1)))]).
        now apply same_io_after_part.
Qed.

(** * The properties of the specification *)

(** C1, on the code.  A read error in the loop of src/main.go, after the
    session was created and one part uploaded, ends the process at once:
    [AbortMultipartUpload] is not called.  The same holds for
    src/unnamed/part_001. *)
Lemma read_failure_leaves_session_open :
  run (MainGo.main flags2) (read_fails_env abc 1) =
    ([fmt_Println [VStr "--chunkSize must be greater than: "; VInt 5242880];
      Open "f"; CreateMultipartUpload "b" "k";
      fmt_Println [VStr "Upload ID: "; VStr "id-1"];
      Read 2 None;
      UploadPart (part_input "b" "k" "id-1" 1 [Byte.x61; Byte.x62]);
      fmt_Printf "Uploaded part %d, ETag: %s\n" [VInt 1; VStr "etag"];
      Read 0 (Some (Failure "input/output error"));
      log_Fatalf "failed to read file: %v" [VErr (Failure "input/output error")]],
     Exited 1) /\
  aborts (fst (run (MainGo.main flags2) (read_fails_env abc 1))) = [] /\
  creates (fst (run (FixedChunk.main "b" "k" "f") (read_fails_env abc 1))) = [("b", "k")] /\
  aborts (fst (run (FixedChunk.main "b" "k" "f") (read_fails_env abc 1))) = [] /\
  snd (run (FixedChunk.main "b" "k" "f") (read_fails_env abc 1)) = Exited 1.
Proof. repeat split; vm_compute; reflexivity. Qed.

(** C2, on the code.  In src/main.go the file is opened and never closed
    when the run ends on a read error, on a failed part upload or on a
    failed completion: [log.Fatalf] exits without running the deferred
    [f.Close()]. *)
Lemma fatal_exits_skip_close :
  (opens (fst (run (MainGo.main flags2) (read_fails_env abc 1))) = ["f"] /\
   closes (fst (run (MainGo.main flags2) (read_fails_env abc 1))) = [] /\
   snd (run (MainGo.main flags2) (read_fails_env abc 1)) = Exited 1) /\
  (opens (fst (run (MainGo.main flags2) (upload_fails_env abc 0))) = ["f"] /\
   closes (fst (run (MainGo.main flags2) (upload_fails_env abc 0))) = [] /\
   snd (run (MainGo.main flags2) (upload_fails_env abc 0)) = Exited 1) /\
  (opens (fst (run (MainGo.main flags2) (complete_fails_env abc))) = ["f"] /\
   closes (fst (run (MainGo.main flags2) (complete_fails_env abc))) = [] /\
   snd (run (MainGo.main flags2) (complete_fails_env abc)) = Exited 1).
Proof. repeat split; vm_compute; reflexivity. Qed.

(** C3, on the code.  src/main.go reports a missing bucket, and a chunk
    size below the minimum, and goes on: the session is created and the run
    returns as a success. *)
Lemma invalid_flags_do_not_stop_main :
  (missing_flag (bucket flags_no_bucket) (key flags_no_bucket) (filePath flags_no_bucket)
   = true /\
   creates (fst (run (MainGo.main flags_no_bucket) (ok_env abc))) = [("", "k")] /\
   snd (run (MainGo.main flags_no_bucket) (ok_env abc)) = Returned) /\
  (chunkSize flags2 < minimumChunkSize /\
   creates (fst (run (MainGo.main flags2) (ok_env abc))) = [("b", "k")] /\
   snd (run (MainGo.main flags2) (ok_env abc)) = Returned).
Proof. repeat split; vm_compute; reflexivity. Qed.

(** C4.  In every run of src/main.go in which the upload of part [k] fails
    ([k = i + 1], the parts of the file counted from 1), no part after part
    [k] is attempted: the [UploadPart] calls of the run are exactly those of
    the parts [1 .. k], which carry the numbers [int32 1 .. int32 k] (none
    above [k], as long as [k < 2^31]); [AbortMultipartUpload] is then called
    on the session that [CreateMultipartUpload] opened; and the process
    exits with status 1 on [log.Fatalf] of the upload's own error, whatever
    the abort answered. *)
Theorem part_failure_aborts_and_stops a env t h i inp err :
  run (MainGo.main a) env = (t, h) ->
  nth_error (uploads t) i = Some inp ->
  UploadPart_resp env i inp = inr err ->
  length (uploads t) = S i /\
  map PartNumber_ (uploads t) = numbered 1 (S i) /\
  (Z.of_nat (S i) < 2147483648 ->
   PartNumber_ inp = Z.of_nat (S i) /\
   Forall (fun inp' => PartNumber_ inp' <= PartNumber_ inp) (uploads t)) /\
  (exists t0 uploadID,
      CreateMultipartUpload_resp env (bucket a) (key a) = inl uploadID /\
      t = t0 ++ [UploadPart inp;
                 AbortMultipartUpload (bucket a) (key a) uploadID;
                 log_Fatalf "failed to upload part %d: %v"
                   [VInt (PartNumber_ inp); VErr err]] /\
      aborts t0 = [] /\ fatals t0 = [] /\ completions t0 = []) /\
  h = Exited 1.
Proof.
  intros Hrun Hi Hresp.
  assert (Hshape :
    length (uploads t) = S i /\
    map PartNumber_ (uploads t) = numbered 1 (length (uploads t)) /\
    (exists t0 uploadID,
        CreateMultipartUpload_resp env (bucket a) (key a) = inl uploadID /\
        t = t0 ++ [UploadPart inp;
                   AbortMultipartUpload (bucket a) (key a) uploadID;
                   log_Fatalf "failed to upload part %d: %v"
                     [VInt (PartNumber_ inp); VErr err]] /\
        aborts t0 = [] /\ fatals t0 = [] /\ completions t0 = []) /\
    h = Exited 1).
  { main_phases env a; injection Hrun as <- <-;
      try (rewrite !uploads_app in Hi;
           destruct (validation_quiet a) as (Hq & _); rewrite Hq in Hi;
           destruct i; discriminate).
    - rewrite uploads_app in Hi.
      destruct (session_opened_quiet a uploadID) as (Hq & _). rewrite Hq in Hi.
      destruct i; discriminate.
    - pose proof (loop_upload_failure env (bucket a) (key a) f uploadID
                    (S (length (data f))) (repeat Byte.x00 (Z.to_nat (chunkSize a)))
                    1 [] (loop_start f)) as Hfail.
      pose proof (loop_uploads_numbered env (bucket a) (key a) f uploadID
                    (S (length (data f))) (repeat Byte.x00 (Z.to_nat (chunkSize a)))
                    1 [] (loop_start f)) as Hnum.
      rewrite Hloop in Hfail, Hnum. cbn [fst snd] in Hfail, Hnum.
      destruct (session_opened_quiet a uploadID) as (Hq & Hqa & Hqc & _ & Hqf & _).
      rewrite uploads_app, Hq in *. cbn [app] in *.
      destruct (Hfail ltac:(unfold unread, loop_start; cbn [offset skipn]; lia)
                  i inp err Hi Hresp) as (Hlen & _ & t0 & -> & Ha & Hf & Hc).
      repeat split; try assumption.
      + apply Hnum; [unfold unread, loop_start; cbn [offset skipn]; lia | reflexivity].
      + exists (session_opened a uploadID ++ t0), uploadID.
        rewrite aborts_app, fatals_app, completions_app, Hqa, Hqf, Hqc, Ha, Hf, Hc.
        rewrite <- app_assoc. repeat split.
    - exfalso.
      pose proof (loop_upload_failure env (bucket a) (key a) f uploadID
                    (S (length (data f))) (repeat Byte.x00 (Z.to_nat (chunkSize a)))
                    1 [] (loop_start f)) as Hfail.
      rewrite Hloop in Hfail. cbn [fst snd] in Hfail.
      destruct (session_opened_quiet a uploadID) as (Hq & _).
      rewrite !uploads_app, Hq in Hi. cbn [uploads flat_map app] in Hi.
      rewrite app_nil_r in Hi.
      destruct (Hfail ltac:(unfold unread, loop_start; cbn [offset skipn]; lia)
                  i inp err Hi Hresp) as (_ & Hr & _). discriminate.
    - exfalso.
      pose proof (loop_upload_failure env (bucket a) (key a) f uploadID
                    (S (length (data f))) (repeat Byte.x00 (Z.to_nat (chunkSize a)))
                    1 [] (loop_start f)) as Hfail.
      rewrite Hloop in Hfail. cbn [fst snd] in Hfail.
      destruct (session_opened_quiet a uploadID) as (Hq & _).
      rewrite !uploads_app, Hq in Hi. cbn [uploads flat_map app] in Hi.
      rewrite app_nil_r in Hi.
      destruct (Hfail ltac:(unfold unread, loop_start; cbn [offset skipn]; lia)
                  i inp err Hi Hresp) as (_ & Hr & _). discriminate. }
  destruct Hshape as (Hlen & Hnum & Htail & Hh). rewrite Hlen in Hnum.
  repeat split; try assumption.
  - pose proof (map_nth_error PartNumber_ i (uploads t) Hi) as Hn.
    rewrite Hnum, (numbered_one_to (S i) H), nth_error_one_to in Hn by lia.
    now injection Hn.
  - pose proof (map_nth_error PartNumber_ i (uploads t) Hi) as Hn.
    rewrite Hnum, (numbered_one_to (S i) H), nth_error_one_to in Hn by lia.
    injection Hn as Hn. rewrite <- Hn.
    rewrite (numbered_one_to (S i) H) in Hnum.
    apply Forall_forall. intros inp' Hin.
    apply (in_map PartNumber_) in Hin. rewrite Hnum in Hin.
    apply one_to_bound in Hin. lia.
Qed.

Lemma part_failure_witness :
  run (MainGo.main flags2) (upload_fails_env abc 1) =
    (fst (run (MainGo.main flags2) (upload_fails_env abc 1)), Exited 1) /\
  length (uploads (fst (run (MainGo.main flags2) (upload_fails_env abc 1)))) = 2%nat /\
  aborts (fst (run (MainGo.main flags2) (upload_fails_env abc 1))) = [("b", "k", "id-1")].
Proof.
  pose proof (part_failure_aborts_and_stops flags2 (upload_fails_env abc 1)
                (fst (run (MainGo.main flags2) (upload_fails_env abc 1))) (Exited 1)
                1%nat (part_input "b" "k" "id-1" 2 [Byte.x63]) (Failure "503 Slow Down")
                eq_refl eq_refl eq_refl) as (Hlen & _).
  split; [reflexivity|]. split; [exact Hlen | reflexivity].
Defined.

(** C5, as amended.  In every successful run of src/main.go with fewer than
    [2^31] parts, the one manifest passed to [CompleteMultipartUpload] has
    the part numbers [1, 2, ..., N], [N] the number of parts uploaded:
    ascending, without gap or duplicate. *)
Theorem manifest_is_one_to_N a env t :
  run (MainGo.main a) env = (t, Returned) ->
  Z.of_nat (length (uploads t)) < 2147483648 ->
  exists manifest,
    completions t = [manifest] /\
    map PartNumber manifest = one_to (length (uploads t)) /\
    StronglySorted Z.lt (map PartNumber manifest).
Proof.
  intros Hrun Hsmall.
  destruct (returned_run a env t Hrun) as (manifest & Hin).
  destruct (completed_run a env t Returned manifest Hrun Hin)
    as (f & uploadID & tl & parts & _ & _ & _ & Hm & _ & _ & Hc & Hnum & _).
  rewrite (numbered_one_to _ Hsmall) in Hnum.
  assert (Hsorted : sort_Slice parts = parts).
  { apply sort_Slice_sorted. rewrite Hnum. apply one_to_sorted. }
  exists manifest. rewrite Hm, Hsorted, Hnum.
  repeat split; [now rewrite Hc, Hm, Hsorted | apply one_to_sorted].
Qed.

Lemma manifest_is_one_to_N_witness :
  Z.of_nat (length (uploads (fst (run (MainGo.main flags2) (ok_env abc))))) < 2147483648 /\
  exists manifest,
    completions (fst (run (MainGo.main flags2) (ok_env abc))) = [manifest] /\
    map PartNumber manifest = [1; 2].
Proof.
  split; [reflexivity|].
  destruct (manifest_is_one_to_N flags2 (ok_env abc)
              (fst (run (MainGo.main flags2) (ok_env abc))) eq_refl eq_refl)
    as (manifest & Hc & Hn & _).
  exists manifest. split; [exact Hc | exact Hn].
Defined.

(** C5, as stated, fails: a file of [2^31] chunks is uploaded successfully,
    the last part carries the number [-2^31] ([partNum++] wrapped around),
    and the manifest is not [1, ..., N]. *)
Lemma manifest_wraps_at_2_31_parts :
  exists t manifest,
    run (MainGo.main flags_min) (ok_env big_file) = (t, Returned) /\
    completions t = [manifest] /\
    Z.of_nat (length (uploads t)) = 2147483648 /\
    In (-2147483648) (map PartNumber manifest) /\
    map PartNumber manifest <> one_to (length (uploads t)).
Proof.
  set (f := {| name := "f"; data := big_file |}).
  assert (Hret : snd (run (MainGo.main flags_min) (ok_env big_file)) = Returned).
  { apply (main_succeeds flags_min (ok_env big_file) f "id-1"); try reflexivity.
    - discriminate.
    - intros i inp. now exists "etag". }
  destruct (run (MainGo.main flags_min) (ok_env big_file)) as [t h] eqn:Hrun.
  cbn [snd] in Hret. subst h.
  destruct (returned_run _ _ _ Hrun) as (manifest & Hin).
  destruct (completed_run _ _ _ _ manifest Hrun Hin)
    as (f' & uploadID & tl & parts & Hopen & _ & _ & Hm & _ & _ & Hc & Hnum & Hb & _).
  change (@inl File error f = inl f') in Hopen. injection Hopen as <-.
  destruct Hb as (_ & Hcount); [reflexivity|].
  assert (Hlen : Z.of_nat (length (data f)) = 2147483648 * 5242880).
  { unfold f, big_file. cbn [data]. rewrite repeat_length. apply Z2Nat.id. lia. }
  rewrite Hlen in Hcount.
  change (ceil_div (2147483648 * 5242880) (chunkSize flags_min)) with 2147483648 in Hcount.
  assert (Hneg : In (-2147483648) (map PartNumber manifest)).
  { rewrite Hm. apply in_map_iff.
    assert (Hp : In (-2147483648) (map PartNumber parts)).
    { rewrite Hnum. unfold numbered. apply in_map_iff.
      exists (Z.to_nat 2147483647). split.
      - rewrite Z2Nat.id by lia. reflexivity.
      - apply in_seq. lia. }
    apply in_map_iff in Hp. destruct Hp as (p & Hp & Hpin).
    exists p. split; [exact Hp | now apply sort_Slice_in]. }
  exists t, manifest. repeat split; try assumption.
  intros Heq. rewrite Heq in Hneg. apply one_to_bound in Hneg. lia.
Qed.



(** C7, on the code.  With [-chunkSize 0] the run of src/main.go over a
    three-byte file succeeds with no part uploaded: the payloads, put
    together, are empty and not the file. *)
Lemma zero_chunk_size_loses_the_file :
  snd (run (MainGo.main flags0) (ok_env abc)) = Returned /\
  uploads (fst (run (MainGo.main flags0) (ok_env abc))) = [] /\
  concat (map Body (uploads (fst (run (MainGo.main flags0) (ok_env abc))))) <> abc.
Proof. repeat split; try (vm_compute; reflexivity). vm_compute. discriminate. Qed.

(** C8.  In every run of src/main.go in which the completion call fails, the
    session is left open: [AbortMultipartUpload] is never called, the
    completion call is made once, and the process exits with status 1 on the
    one [log.Fatalf] of the run, which names the completion and carries its
    error; it is not the message of a failed part upload. *)
Theorem completion_failure_leaves_session_open a env t h manifest err :
  run (MainGo.main a) env = (t, h) ->
  In manifest (completions t) ->
  CompleteMultipartUpload_resp env manifest = Some err ->
  aborts t = [] /\
  completions t = [manifest] /\
  h = Exited 1 /\
  fatals t = [("failed to complete multipart upload: %v", [VErr err])] /\
  (forall args, ~ In ("failed to upload part %d: %v", args) (fatals t)) /\
  exists t0 uploadID,
    t = t0 ++ [CompleteMultipartUpload (bucket a) (key a) uploadID manifest;
               log_Fatalf "failed to complete multipart upload: %v" [VErr err]].
Proof.
  intros Hrun Hin Hresp.
  destruct (completed_run a env t h manifest Hrun Hin) as
    (f & uploadID & tl & parts & _ & _ & _ & _ & _ & Ha & Hc & _ & _ &
     [(err' & He & Hh & Ht & Hf & _) | (He & _)]); [|congruence].
  assert (err' = err) by congruence. subst err'.
  repeat split; try assumption.
  - intros args Hargs. rewrite Hf in Hargs. destruct Hargs as [[=]|[]].
  - exists (session_opened a uploadID ++ tl), uploadID. now rewrite <- app_assoc.
Qed.

Lemma completion_failure_witness :
  aborts (fst (run (MainGo.main flags2) (complete_fails_env abc))) = [] /\
  snd (run (MainGo.main flags2) (complete_fails_env abc)) = Exited 1.
Proof.
  destruct (completion_failure_leaves_session_open flags2 (complete_fails_env abc)
              (fst (run (MainGo.main flags2) (complete_fails_env abc)))
              (snd (run (MainGo.main flags2) (complete_fails_env abc)))
              [{| ETag := "etag"; PartNumber := 1 |}; {| ETag := "etag"; PartNumber := 2 |}]
              (Failure "500 Internal Error") eq_refl (or_introl eq_refl) eq_refl)
    as (Ha & _ & Hh & _).
  split; [exact Ha | exact Hh].
Defined.

(** C9.  With [-chunkSize 0] and a file that is not empty, src/main.go
    prints its warning and goes on: it creates the session, reads zero bytes
    into the empty buffer, leaves the loop without an upload, completes the
    session with an empty manifest and returns as a success, having sent
    none of the file's bytes. *)
Theorem zero_chunk_size_completes_empty_upload a env f uploadID :
  chunkSize a = 0 ->
  missing_flag (bucket a) (key a) (filePath a) = false ->
  LoadDefaultConfig env = None ->
  os_Open env (filePath a) = inl f ->
  data f <> [] ->
  CreateMultipartUpload_resp env (bucket a) (key a) = inl uploadID ->
  read_fault env 0 = None ->
  CompleteMultipartUpload_resp env [] = None ->
  run (MainGo.main a) env =
    ([fmt_Println [VStr "--chunkSize must be greater than: "; VInt minimumChunkSize];
      Open (filePath a);
      CreateMultipartUpload (bucket a) (key a);
      fmt_Println [VStr "Upload ID: "; VStr uploadID];
      Read 0 None;
      CompleteMultipartUpload (bucket a) (key a) uploadID [];
      fmt_Println [VStr "Upload completed successfully!"];
      Close (name f)],
     Returned) /\
  concat (map Body (uploads (fst (run (MainGo.main a) env)))) <> data f.
Proof.
  intros Hzero Hflags Hcfg Hopen Hdata Hcreate Hread Hcomplete.
  assert (Hrun : run (MainGo.main a) env =
    ([fmt_Println [VStr "--chunkSize must be greater than: "; VInt minimumChunkSize];
      Open (filePath a);
      CreateMultipartUpload (bucket a) (key a);
      fmt_Println [VStr "Upload ID: "; VStr uploadID];
      Read 0 None;
      CompleteMultipartUpload (bucket a) (key a) uploadID [];
      fmt_Println [VStr "Upload completed successfully!"];
      Close (name f)],
     Returned)).
  { rewrite (main_session env a f uploadID Hcfg Hopen Hcreate) by lia.
    rewrite Hzero. change (repeat Byte.x00 (Z.to_nat 0)) with (@nil byte).
    rewrite (loop_break env (bucket a) (key a) f uploadID (length (data f)) [] 1 []
               (loop_start f) Hread eq_refl).
    cbn [sort_Slice zero_read_error]. rewrite Hcomplete.
    unfold session_opened, validation. rewrite Hflags, Hzero. reflexivity. }
  split; [exact Hrun|]. rewrite Hrun. cbn. congruence.
Qed.

Lemma zero_chunk_size_witness :
  data {| name := "f"; data := abc |} <> [] /\
  snd (run (MainGo.main flags0) (ok_env abc)) = Returned /\
  completions (fst (run (MainGo.main flags0) (ok_env abc))) = [[]].
Proof.
  split; [discriminate|].
  destruct (zero_chunk_size_completes_empty_upload flags0 (ok_env abc)
              {| name := "f"; data := abc |} "id-1"
              eq_refl eq_refl eq_refl eq_refl ltac:(discriminate) eq_refl eq_refl eq_refl)
    as (Hrun & _).
  rewrite Hrun. split; reflexivity.
Defined.

(** C10.  On the same file, with the same chunk size and the same answers of
    the storage client, [uploadParts] of the refactored variant and lines
    64-112 of src/main.go issue the same [UploadPart] calls in the same
    order, and one yields a completed-parts list exactly when the other
    does, the same list; where the inline loop exits the process,
    [uploadParts] returns an error and no list. *)
Theorem uploadParts_matches_inline_loop cfg env uploadId f st :
  os_Open env (filePath cfg) = inl f ->
  let inline := MainGo.collect cfg f uploadId env (opened st) in
  let refactored := Refactored.uploadParts cfg uploadId env st in
  uploads (fst (fst inline)) = uploads (fst (fst refactored)) /\
  (forall parts, snd inline = Val parts <-> snd refactored = Val (parts, None)) /\
  (snd inline = Halt (Exited 1) <-> exists err, snd refactored = Val ([], Some err)).
Proof.
  intros Hopen inline refactored. subst inline refactored.
  unfold MainGo.collect, Refactored.uploadParts, call, bind, Open_, defer, make_bytes.
  cbn [offset n_read n_upload defers opened]. rewrite Hopen.
  destruct (chunkSize cfg <? 0) eqn:Hneg.
  - cbn. repeat split; try discriminate. intros (err & H). discriminate.
  - pose proof (loops_in_step env cfg f uploadId (S (length (data f)))
                  (repeat Byte.x00 (Z.to_nat (chunkSize cfg))) 1 [] (opened st)
                  {| offset := 0; n_read := n_read st; n_upload := n_upload st;
                     defers := [defer_Close f] |}
                  ltac:(repeat split)) as Hsim.
    cbn -[loop Refactored.loop sort_Slice].
    destruct (loop _ _ _ _ _ _ _ _ _ _) as [[t1 s1] r1].
    destruct (Refactored.loop _ _ _ _ _ _ _ _ _) as [[t2 s2] r2].
    inversion Hsim; subst; cbn -[sort_Slice];
      rewrite ?uploads_app, ?uploads_deferred, ?app_nil_r; cbn -[sort_Slice];
      rewrite ?app_nil_r.
    + repeat split; try discriminate; try congruence.
      intros (err & H). discriminate.
    + repeat split; try discriminate; try congruence. intros _. now eexists.
    + repeat split; try discriminate; try congruence. intros _. now eexists.
    + repeat split; try discriminate; try congruence.
      intros (err & H). discriminate.
Qed.

Lemma uploadParts_matches_witness :
  uploads (fst (fst (MainGo.collect flags2 {| name := "f"; data := abc |} "id-1"
                       (ok_env abc) (opened init_state)))) =
  uploads (fst (fst (Refactored.uploadParts flags2 "id-1" (ok_env abc) init_state))).
Proof.
  exact (proj1 (uploadParts_matches_inline_loop flags2 (ok_env abc) "id-1"
                  {| name := "f"; data := abc |} init_state eq_refl)).
Defined.

(** * The same properties on the other variants *)

(** The refactored variant stops on a missing flag or a chunk size below the
    minimum: it exits with status 1 before it loads a configuration, opens
    the file or creates a session. *)
Theorem refactored_rejects_invalid_flags a env :
  missing_flag (bucket a) (key a) (filePath a) = true \/ chunkSize a < minimumChunkSize ->
  snd (run (Refactored.main a) env) = Exited 1 /\
  creates (fst (run (Refactored.main a) env)) = [] /\
  opens (fst (run (Refactored.main a) env)) = [] /\
  uploads (fst (run (Refactored.main a) env)) = [].
Proof.
  intros H. unfold run, call, Refactored.main, bind, when.
  destruct (missing_flag _ _ _) eqn:Hm; [now repeat split|].
  destruct H as [H|H]; [discriminate|].
  apply Z.ltb_lt in H. rewrite H. now repeat split.
Qed.

Lemma refactored_rejects_witness :
  snd (run (Refactored.main flags2) (ok_env abc)) = Exited 1 /\
  creates (fst (run (Refactored.main flags2) (ok_env abc))) = [].
Proof.
  destruct (refactored_rejects_invalid_flags flags2 (ok_env abc)
              (or_intror eq_refl)) as (Hh & Hc & _).
  split; [exact Hh | exact Hc].
Defined.

(** A run of the refactored variant that gets a session: [uploadParts]
    opens the file, runs its loop, closes the file and returns; [main] then
    aborts the session on an error and completes it otherwise. *)
Lemma refactored_session a env f uploadId :
  missing_flag (bucket a) (key a) (filePath a) = false ->
  minimumChunkSize <= chunkSize a ->
  LoadDefaultConfig env = None ->
  CreateMultipartUpload_resp env (bucket a) (key a) = inl uploadId ->
  os_Open env (filePath a) = inl f ->
  exists tl st v,
    Refactored.loop (S (length (data f))) a f uploadId
      (repeat Byte.x00 (Z.to_nat (chunkSize a))) 1 [] env (loop_start f) = (tl, st, Val v) /\
    run (Refactored.main a) env =
      let opened_and_closed :=
        [CreateMultipartUpload (bucket a) (key a);
         fmt_Println [VStr "Upload ID: "; VStr uploadId];
         Open (filePath a)] ++ tl ++ [Close (name f)] in
      match v with
      | inr err =>
          (opened_and_closed ++
           [AbortMultipartUpload (bucket a) (key a) uploadId;
            log_Fatalf "failed to upload parts: %v" [VErr err]],
           Exited 1)
      | inl parts =>
          match CompleteMultipartUpload_resp env (sort_Slice parts) with
          | Some err =>
              (opened_and_closed ++
               [CompleteMultipartUpload (bucket a) (key a) uploadId (sort_Slice parts);
                log_Fatalf "failed to complete multipart upload: %v" [VErr err]],
               Exited 1)
          | None =>
              (opened_and_closed ++
               [CompleteMultipartUpload (bucket a) (key a) uploadId (sort_Slice parts);
                fmt_Println [VStr "Upload completed successfully!"]],
               Returned)
          end
      end.
Proof.
  intros Hflags Hmin Hcfg Hcreate Hopen.
  assert (Hneg : (chunkSize a <? 0) = false)
    by (apply Z.ltb_ge; unfold minimumChunkSize in Hmin; lia).
  assert (Hsmall : (chunkSize a <? minimumChunkSize) = false) by (apply Z.ltb_ge; lia).
  destruct (uploadParts_loop_returns env a f uploadId (S (length (data f)))
              (repeat Byte.x00 (Z.to_nat (chunkSize a))) 1 [] (loop_start f) (start_fuel f))
    as ((v & Hv) & Hd & _).
  destruct (Refactored.loop _ _ _ _ _ _ _ _ _) as [[tl st] r] eqn:Hloop.
  cbn [fst snd] in Hv, Hd. subst r.
  exists tl, st, v. split; [reflexivity|].
  unfold run, call, Refactored.main, Refactored.uploadParts, call,
    Refactored.uploadParts, call, bind, when, initializeClient,
    config_LoadDefaultConfig, bind, ret, Open_, client_CreateMultipartUpload,
    make_bytes, client_CompleteMultipartUpload, client_AbortMultipartUpload, ret, defer,
    Println, emit, opened, Fatalf, stop.
  rewrite Hflags, Hsmall, Hcfg.
  cbn [init_state offset n_read n_upload defers]. rewrite Hcreate.
  cbn [init_state offset n_read n_upload defers]. rewrite Hopen, Hneg.
  cbn [init_state offset n_read n_upload defers].
  fold (loop_start f). rewrite Hloop. cbn [loop_start defers] in Hd.
  destruct v as [parts|err].
  - cbn -[sort_Slice]. rewrite Hd.
    destruct (CompleteMultipartUpload_resp env (sort_Slice parts));
      cbn -[sort_Slice]; rewrite ?app_nil_r, <- ?app_assoc; reflexivity.
  - cbn. rewrite Hd. cbn. rewrite ?app_nil_r, <- ?app_assoc. reflexivity.
Qed.

(** src/unnamed/part_001 stops on a missing flag too: [log.Fatal] right
    after the usage text, before anything is loaded, opened or created. *)
Theorem fixed_chunk_rejects_missing_flags bucket key filePath env :
  missing_flag bucket key filePath = true ->
  run (FixedChunk.main bucket key filePath) env =
    ([flag_Usage; log_Fatal [VStr "bucket, key, and file must all be provided"]],
     Exited 1).
Proof.
  intros H. unfold run, call, FixedChunk.main, bind, when. now rewrite H.
Qed.

Lemma fixed_chunk_rejects_witness :
  creates (fst (run (FixedChunk.main "" "k" "f") (ok_env abc))) = [] /\
  snd (run (FixedChunk.main "" "k" "f") (ok_env abc)) = Exited 1.
Proof.
  rewrite (fixed_chunk_rejects_missing_flags "" "k" "f" (ok_env abc) eq_refl).
  split; reflexivity.
Defined.

Section RefactoredRun.

Variables (env : Env) (a : UploadConfiguration).

Lemma refactored_missing_flag :
  missing_flag (bucket a) (key a) (filePath a) = true ->
  run (Refactored.main a) env =
    ([flag_Usage; fmt_Println [VStr "bucket, key, and file must all be provided"];
      os_Exit 1], Exited 1).
Proof.
  intros H. unfold run, call, Refactored.main, bind, when. now rewrite H.
Qed.

Lemma refactored_small_chunk :
  missing_flag (bucket a) (key a) (filePath a) = false ->
  chunkSize a < minimumChunkSize ->
  run (Refactored.main a) env =
    ([fmt_Println [VStr "-chunkSize must be greater than: "; VInt minimumChunkSize];
      os_Exit 1], Exited 1).
Proof.
  intros H Hs. apply Z.ltb_lt in Hs.
  unfold run, call, Refactored.main, bind, when. now rewrite H, Hs.
Qed.

Lemma refactored_config_error err :
  missing_flag (bucket a) (key a) (filePath a) = false ->
  minimumChunkSize <= chunkSize a ->
  LoadDefaultConfig env = Some err ->
  run (Refactored.main a) env =
    ([log_Fatalf "%v" [VErr (Errorf "unable to load SDK config: %v" [VErr err])]],
     Exited 1).
Proof.
  intros H Hs Hc. apply Z.ltb_ge in Hs.
  unfold run, call, Refactored.main, bind, when, initializeClient,
    config_LoadDefaultConfig, bind, ret.
  now rewrite H, Hs, Hc.
Qed.

Lemma refactored_create_error err :
  missing_flag (bucket a) (key a) (filePath a) = false ->
  minimumChunkSize <= chunkSize a ->
  LoadDefaultConfig env = None ->
  CreateMultipartUpload_resp env (bucket a) (key a) = inr err ->
  run (Refactored.main a) env =
    ([CreateMultipartUpload (bucket a) (key a);
      log_Fatalf "failed to create multipart upload: %v" [VErr err]],
     Exited 1).
Proof.
  intros H Hs Hc Hcr. apply Z.ltb_ge in Hs.
  unfold run, call, Refactored.main, bind, when, initializeClient,
    config_LoadDefaultConfig, bind, ret, client_CreateMultipartUpload.
  rewrite H, Hs, Hc. cbn [init_state offset n_read n_upload defers]. now rewrite Hcr.
Qed.

(** The file does not open: [uploadParts] returns the error and [main]
    aborts the session. *)
Lemma refactored_open_error uploadId err :
  missing_flag (bucket a) (key a) (filePath a) = false ->
  minimumChunkSize <= chunkSize a ->
  LoadDefaultConfig env = None ->
  CreateMultipartUpload_resp env (bucket a) (key a) = inl uploadId ->
  os_Open env (filePath a) = inr err ->
  run (Refactored.main a) env =
    ([CreateMultipartUpload (bucket a) (key a);
      fmt_Println [VStr "Upload ID: "; VStr uploadId];
      Open (filePath a);
      AbortMultipartUpload (bucket a) (key a) uploadId;
      log_Fatalf "failed to upload parts: %v"
        [VErr (Errorf "failed to open file: %v" [VErr err])]],
     Exited 1).
Proof.
  intros H Hs Hc Hcr Ho. apply Z.ltb_ge in Hs.
  unfold run, call, Refactored.main, Refactored.uploadParts, call, bind, when,
    initializeClient, config_LoadDefaultConfig, bind, ret, client_CreateMultipartUpload,
    Open_.
  rewrite H, Hs, Hc. cbn [init_state offset n_read n_upload defers]. rewrite Hcr.
  cbn [init_state offset n_read n_upload defers]. now rewrite Ho.
Qed.

End RefactoredRun.

(** Case analysis on the phase in which a run of the refactored variant ends. *)
Ltac refactored_phases env a :=
  let cerr := fresh "cerr" in
  let oerr := fresh "oerr" in
  let crerr := fresh "crerr" in
  let f := fresh "f" in
  let uploadId := fresh "uploadId" in
  let Hflags := fresh "Hflags" in
  let Hmin := fresh "Hmin" in
  let Hcfg := fresh "Hcfg" in
  let Hopen := fresh "Hopen" in
  let Hcreate := fresh "Hcreate" in
  destruct (missing_flag (bucket a) (key a) (filePath a)) eqn:Hflags;
  [ rewrite (refactored_missing_flag env a Hflags) in *
  | destruct (Z.lt_ge_cases (chunkSize a) minimumChunkSize) as [Hmin|Hmin];
    [ rewrite (refactored_small_chunk env a Hflags Hmin) in *
    | destruct (LoadDefaultConfig env) as [cerr|] eqn:Hcfg;
      [ rewrite (refactored_config_error env a cerr Hflags Hmin Hcfg) in *
      | destruct (CreateMultipartUpload_resp env (bucket a) (key a))
          as [uploadId|crerr] eqn:Hcreate;
        [ destruct (os_Open env (filePath a)) as [f|oerr] eqn:Hopen;
          [ destruct (refactored_session a env f uploadId Hflags Hmin Hcfg Hcreate Hopen)
              as (tl & stl & v & Hloop & Hmain);
            rewrite Hmain in *
          | rewrite (refactored_open_error env a uploadId oerr
                       Hflags Hmin Hcfg Hcreate Hopen) in * ]
        | rewrite (refactored_create_error env a crerr Hflags Hmin Hcfg Hcreate) in * ] ] ] ].

(** C1 on the refactored variant: a read error in the loop, after the
    session was created, makes [uploadParts] return; the file is closed, the
    session is aborted, and only then the process exits, reporting the read
    error. *)
Theorem refactored_read_failure_aborts a env t h n msg :
  run (Refactored.main a) env = (t, h) ->
  In (Read n (Some (Failure msg))) t ->
  exists t0 f uploadId,
    CreateMultipartUpload_resp env (bucket a) (key a) = inl uploadId /\
    os_Open env (filePath a) = inl f /\
    t = t0 ++ [Read 0 (Some (Failure msg)); Close (name f);
               AbortMultipartUpload (bucket a) (key a) uploadId;
               log_Fatalf "failed to upload parts: %v"
                 [VErr (Errorf "failed to read file: %v" [VErr (Failure msg)])]] /\
    h = Exited 1.
Proof.
  intros Hrun Hin.
  refactored_phases env a;
    try (injection Hrun as <- <-; cbn in Hin;
         repeat (destruct Hin as [Hin|Hin]; try discriminate); contradiction).
  destruct (uploadParts_loop_returns env a f uploadId (S (length (data f)))
              (repeat Byte.x00 (Z.to_nat (chunkSize a))) 1 [] (loop_start f) (start_fuel f))
    as (_ & _ & _ & _ & _ & _ & _ & _ & Hread).
  rewrite Hloop in Hread. cbn [fst snd] in Hread.
  assert (Hintl : In (Read n (Some (Failure msg))) tl).
  { cbv zeta in Hrun.
    destruct v as [parts|err];
      [destruct (CompleteMultipartUpload_resp env (sort_Slice parts))|];
      injection Hrun as <- <-;
      cbn [In app] in Hin; rewrite ?in_app_iff in Hin; cbn [In] in Hin;
      intuition congruence. }
  destruct (Hread n msg Hintl) as ([= ->] & t0 & ->).
  cbv zeta in Hrun. injection Hrun as <- <-.
  exists ([CreateMultipartUpload (bucket a) (key a);
           fmt_Println [VStr "Upload ID: "; VStr uploadId];
           Open (filePath a)] ++ t0), f, uploadId.
  repeat split. now rewrite <- !app_assoc.
Qed.

Lemma refactored_read_failure_witness :
  aborts (fst (run (Refactored.main flags_min) (read_fails_env abc 1))) = [("b", "k", "id-1")] /\
  closes (fst (run (Refactored.main flags_min) (read_fails_env abc 1))) = ["f"].
Proof.
  destruct (refactored_read_failure_aborts flags_min (read_fails_env abc 1)
              (fst (run (Refactored.main flags_min) (read_fails_env abc 1)))
              (snd (run (Refactored.main flags_min) (read_fails_env abc 1)))
              0%nat "input/output error") as (t0 & f & uploadId & _ & _ & Ht & _).
  - now destruct (run (Refactored.main flags_min) (read_fails_env abc 1)).
  - vm_compute. do 6 right. now left.
  - split; vm_compute; reflexivity.
Defined.

(** C2 on the refactored variant: whenever the file was opened, it is
    closed before the process ends, however the run ends. *)
Theorem refactored_closes_the_file a env t h f :
  run (Refactored.main a) env = (t, h) ->
  os_Open env (filePath a) = inl f ->
  opens t <> [] ->
  closes t = [name f] /\ opens t = [filePath a].
Proof.
  intros Hrun Hopen Ho.
  refactored_phases env a;
    try (injection Hrun as <- <-; now elim Ho); try congruence.
  injection Hopen as ->.
  destruct (uploadParts_loop_returns env a f uploadId (S (length (data f)))
              (repeat Byte.x00 (Z.to_nat (chunkSize a))) 1 [] (loop_start f) (start_fuel f))
    as (_ & _ & Hop & Hcl & _).
  rewrite Hloop in Hop, Hcl. cbn [fst snd] in Hop, Hcl.
  cbv zeta in Hrun.
  destruct v as [parts|err];
    [destruct (CompleteMultipartUpload_resp env (sort_Slice parts))|];
    apply pair_equal_spec in Hrun; destruct Hrun as [<- <-];
    rewrite !closes_app, !opens_app, Hcl, Hop; split; reflexivity.
Qed.

Lemma refactored_closes_the_file_witness :
  closes (fst (run (Refactored.main flags_min) (upload_fails_env abc 0))) = ["f"] /\
  snd (run (Refactored.main flags_min) (upload_fails_env abc 0)) = Exited 1.
Proof.
  split; [|vm_compute; reflexivity].
  refine (proj1 (refactored_closes_the_file flags_min (upload_fails_env abc 0)
                   (fst (run (Refactored.main flags_min) (upload_fails_env abc 0)))
                   (snd (run (Refactored.main flags_min) (upload_fails_env abc 0)))
                   {| name := "f"; data := abc |} _ eq_refl _)).
  - now destruct (run (Refactored.main flags_min) (upload_fails_env abc 0)).
  - vm_compute. discriminate.
Defined.


(** * Further properties of src/main.go *)

(** In every run of src/main.go the [j]-th [UploadPart] call carries the
    part number [int32 j]. *)
Lemma main_uploads_numbered a env t h :
  run (MainGo.main a) env = (t, h) ->
  map PartNumber_ (uploads t) = numbered 1 (length (uploads t)).
Proof.
  intros Hrun.
  main_phases env a; apply pair_equal_spec in Hrun; destruct Hrun as [<- <-];
    rewrite ?uploads_app;
    try (destruct (validation_quiet a) as (Hq & _); rewrite Hq; reflexivity);
    destruct (session_opened_quiet a uploadID) as (Hq & _); rewrite Hq;
    try reflexivity;
    pose proof (loop_uploads_numbered env (bucket a) (key a) f uploadID
                  (S (length (data f))) (repeat Byte.x00 (Z.to_nat (chunkSize a)))
                  1 [] (loop_start f) (start_fuel f) eq_refl) as Hnum;
    rewrite Hloop in Hnum; cbn [fst] in Hnum;
    cbn [uploads flat_map app]; rewrite ?app_nil_r; exact Hnum.
Qed.

(** Round trip.  In every run of src/main.go with a positive chunk size that
    reaches the completion call, the payloads of the [UploadPart] calls, in
    the order of the calls (the [j]-th call carries the number [int32 j]),
    put together are the bytes of the file. *)
Theorem payloads_rebuild_the_file a env t h f :
  run (MainGo.main a) env = (t, h) ->
  completions t <> [] ->
  os_Open env (filePath a) = inl f ->
  0 < chunkSize a ->
  concat (map Body (uploads t)) = data f /\
  map PartNumber_ (uploads t) = numbered 1 (length (uploads t)).
Proof.
  intros Hrun Hc Hopen Hpos.
  split; [|exact (main_uploads_numbered a env t h Hrun)].
  destruct (completions t) as [|manifest ms] eqn:Hcs; [now elim Hc|].
  destruct (completed_run a env t h manifest Hrun) as
    (f' & uploadID & tl & parts & Hopen' & _ & _ & _ & _ & _ & _ & _ & Hb & _).
  { rewrite Hcs. now left. }
  assert (f' = f) by congruence. subst f'.
  apply (Hb Hpos).
Qed.

Lemma payloads_rebuild_witness :
  0 < chunkSize flags2 /\
  concat (map Body (uploads (fst (run (MainGo.main flags2) (ok_env abc))))) = abc.
Proof.
  split; [reflexivity|].
  refine (proj1 (payloads_rebuild_the_file flags2 (ok_env abc)
                   (fst (run (MainGo.main flags2) (ok_env abc)))
                   (snd (run (MainGo.main flags2) (ok_env abc)))
                   {| name := "f"; data := abc |} eq_refl _ eq_refl eq_refl)).
  vm_compute. discriminate.
Defined.


(** A failed read in a run of src/main.go: what the run has done and how it
    ends. *)
Lemma main_read_failure a env t h n msg :
  run (MainGo.main a) env = (t, h) ->
  In (Read n (Some (Failure msg))) t ->
  aborts t = [] /\ closes t = [] /\ h = Exited 1 /\
  exists t0 uploadID,
    CreateMultipartUpload_resp env (bucket a) (key a) = inl uploadID /\
    creates t = [(bucket a, key a)] /\
    t = t0 ++ [Read 0 (Some (Failure msg));
               log_Fatalf "failed to read file: %v" [VErr (Failure msg)]].
Proof.
  intros Hrun Hin.
  assert (Hval : ~ In (Read n (Some (Failure msg))) (validation a)).
  { unfold validation.
    destruct (missing_flag _ _ _), (chunkSize a <? minimumChunkSize); cbn;
      intuition discriminate. }
  assert (Hses : forall u, ~ In (Read n (Some (Failure msg))) (session_opened a u)).
  { intros u. unfold session_opened. rewrite in_app_iff. cbn. intuition discriminate. }
  main_phases env a; apply pair_equal_spec in Hrun; destruct Hrun as [<- <-];
    rewrite ?in_app_iff in Hin;
    try (cbn [In] in Hin; exfalso; intuition discriminate).
  - exfalso. destruct Hin as [Hin|Hin]; [now elim (Hses uploadID)|].
    cbn in Hin. intuition discriminate.
  - destruct Hin as [Hin|Hin]; [now elim (Hses uploadID)|].
    pose proof (loop_read_failure env (bucket a) (key a) f uploadID (S (length (data f)))
                  (repeat Byte.x00 (Z.to_nat (chunkSize a))) 1 [] (loop_start f)
                  (start_fuel f) n msg) as Hfail.
    pose proof (loop_quiet env (bucket a) (key a) f uploadID (S (length (data f)))
                  (repeat Byte.x00 (Z.to_nat (chunkSize a))) 1 [] (loop_start f)
                  (start_fuel f)) as (_ & Hcl & Hcr).
    rewrite Hloop in Hfail, Hcl, Hcr. cbn [fst snd] in Hfail, Hcl, Hcr.
    destruct (Hfail Hin) as (_ & Ha & t0 & Ht).
    destruct (session_opened_quiet a uploadID) as (_ & Hqa & _ & Hqcl & _ & Hqcr).
    rewrite aborts_app, closes_app, creates_app, Hqa, Hqcl, Hqcr, Ha, Hcl, Hcr.
    repeat split.
    exists (session_opened a uploadID ++ t0), uploadID.
    repeat split. rewrite Ht. now rewrite app_assoc.
  - exfalso.
    pose proof (loop_read_failure env (bucket a) (key a) f uploadID (S (length (data f)))
                  (repeat Byte.x00 (Z.to_nat (chunkSize a))) 1 [] (loop_start f)
                  (start_fuel f) n msg) as Hfail.
    rewrite Hloop in Hfail. cbn [fst snd] in Hfail.
    destruct Hin as [Hin|[Hin|Hin]]; [now elim (Hses uploadID) | |].
    + destruct (Hfail Hin) as (Hr & _). discriminate.
    + cbn in Hin. intuition discriminate.
  - exfalso.
    pose proof (loop_read_failure env (bucket a) (key a) f uploadID (S (length (data f)))
                  (repeat Byte.x00 (Z.to_nat (chunkSize a))) 1 [] (loop_start f)
                  (start_fuel f) n msg) as Hfail.
    rewrite Hloop in Hfail. cbn [fst snd] in Hfail.
    destruct Hin as [Hin|[Hin|Hin]]; [now elim (Hses uploadID) | |].
    + destruct (Hfail Hin) as (Hr & _). discriminate.
    + cbn in Hin. intuition discriminate.
Qed.

(** In every run of src/main.go in which a read fails, nothing is aborted
    and nothing is closed: the read error is followed by [log.Fatalf] and
    the exit, whatever was created and uploaded before. *)
Theorem main_read_failure_never_aborts a env t h n msg :
  run (MainGo.main a) env = (t, h) ->
  In (Read n (Some (Failure msg))) t ->
  aborts t = [] /\ closes t = [] /\ h = Exited 1 /\
  exists t0 uploadID,
    CreateMultipartUpload_resp env (bucket a) (key a) = inl uploadID /\
    creates t = [(bucket a, key a)] /\
    t = t0 ++ [Read 0 (Some (Failure msg));
               log_Fatalf "failed to read file: %v" [VErr (Failure msg)]].
Proof. exact (main_read_failure a env t h n msg). Qed.

Lemma main_read_failure_witness :
  aborts (fst (run (MainGo.main flags2) (read_fails_env abc 1))) = [] /\
  snd (run (MainGo.main flags2) (read_fails_env abc 1)) = Exited 1.
Proof.
  destruct (main_read_failure_never_aborts flags2 (read_fails_env abc 1)
              (fst (run (MainGo.main flags2) (read_fails_env abc 1)))
              (snd (run (MainGo.main flags2) (read_fails_env abc 1)))
              0%nat "input/output error" eq_refl) as (Ha & _ & Hh & _).
  - vm_compute. do 7 right. now left.
  - split; [exact Ha | exact Hh].
Defined.

(** In src/main.go the deferred [f.Close()] runs only when [main] returns
    or panics: a run that ends by [os.Exit] closes nothing. *)
Theorem main_exit_skips_close a env t c :
  run (MainGo.main a) env = (t, Exited c) ->
  closes t = [].
Proof.
  intros Hrun.
  main_phases env a; apply pair_equal_spec in Hrun; destruct Hrun as [<- Hh];
    try discriminate; rewrite ?closes_app;
    try (destruct (validation_quiet a) as (_ & _ & _ & _ & Hq & _); rewrite Hq;
         reflexivity);
    destruct (session_opened_quiet a uploadID) as (_ & _ & _ & Hq & _); rewrite Hq;
    pose proof (loop_quiet env (bucket a) (key a) f uploadID (S (length (data f)))
                  (repeat Byte.x00 (Z.to_nat (chunkSize a))) 1 [] (loop_start f)
                  (start_fuel f)) as (_ & Hcl & _);
    rewrite Hloop in Hcl; cbn [fst] in Hcl; rewrite Hcl; reflexivity.
Qed.

Lemma main_exit_skips_close_witness :
  closes (fst (run (MainGo.main flags2) (upload_fails_env abc 0))) = [] /\
  opens (fst (run (MainGo.main flags2) (upload_fails_env abc 0))) = ["f"].
Proof.
  split; [|reflexivity].
  exact (main_exit_skips_close flags2 (upload_fails_env abc 0)
           (fst (run (MainGo.main flags2) (upload_fails_env abc 0))) 1 eq_refl).
Defined.

(** The model of [sort.Slice] sorts: its result is a permutation of its
    argument in which part numbers never decrease. *)
Theorem sort_Slice_sorts l :
  Permutation (sort_Slice l) l /\
  Sorted (fun p q => PartNumber p <= PartNumber q) (sort_Slice l).
Proof.
  split; [apply sort_Slice_perm|].
  induction l as [|p l IH]; cbn; [constructor|].
  revert IH. generalize (sort_Slice l). clear l.
  induction l as [|q l IHl]; intros Hs; cbn.
  - repeat constructor.
  - destruct (Z.ltb_spec (PartNumber q) (PartNumber p)) as [Hlt|Hge].
    + inversion Hs as [|x xs Hs' Hhd]; subst.
      constructor; [now apply IHl|].
      destruct l as [|r l]; cbn.
      * constructor. lia.
      * destruct (Z.ltb_spec (PartNumber r) (PartNumber p)).
        -- inversion Hhd; subst. now constructor.
        -- constructor. lia.
    + constructor; [exact Hs|]. now constructor.
Qed.

(** In src/main.go nothing depends on the validation of the flags: whenever
    the configuration loads and the file opens, [CreateMultipartUpload] is
    called, once, with the bucket and key as given, be they empty and be
    the chunk size below the minimum. *)
Theorem main_creates_session_whatever_the_flags a env f :
  LoadDefaultConfig env = None ->
  os_Open env (filePath a) = inl f ->
  creates (fst (run (MainGo.main a) env)) = [(bucket a, key a)].
Proof.
  intros Hc Ho.
  main_phases env a; try discriminate; cbn [fst]; rewrite ?creates_app;
    try (destruct (session_opened_quiet a uploadID) as (_ & _ & _ & _ & _ & Hq);
         rewrite Hq);
    try (destruct (validation_quiet a) as (_ & _ & Hq & _); rewrite Hq; reflexivity);
    try reflexivity;
    pose proof (loop_quiet env (bucket a) (key a) f0 uploadID (S (length (data f0)))
                  (repeat Byte.x00 (Z.to_nat (chunkSize a))) 1 [] (loop_start f0)
                  (start_fuel f0)) as (_ & _ & Hcr);
    rewrite Hloop in Hcr; cbn [fst] in Hcr; rewrite Hcr; reflexivity.
Qed.

Lemma main_creates_session_witness :
  missing_flag (bucket flags_no_bucket) (key flags_no_bucket) (filePath flags_no_bucket)
  = true /\
  creates (fst (run (MainGo.main flags_no_bucket) (ok_env abc))) = [("", "k")].
Proof.
  split; [reflexivity|].
  exact (main_creates_session_whatever_the_flags flags_no_bucket (ok_env abc)
           {| name := "f"; data := abc |} eq_refl eq_refl).
Defined.

(** Which algorithm [sort.Slice] runs does not matter here: a list whose
    part numbers strictly increase has one sorted permutation, itself. *)
Theorem sorted_permutation_unique (l l' : list CompletedPart) :
  StronglySorted Z.lt (map PartNumber l) ->
  Permutation l' l ->
  StronglySorted (fun p q => PartNumber p <= PartNumber q) l' ->
  l' = l.
Proof.
  revert l. induction l' as [|p l' IH]; intros l Hl Hperm Hl'.
  - apply Permutation_nil in Hperm. now subst.
  - destruct l as [|q l]; [now apply Permutation_sym, Permutation_nil in Hperm|].
    cbn in Hl. inversion Hl as [|x xs Hls Hq]; subst.
    inversion Hl' as [|y ys Hl's Hp]; subst.
    assert (Hpin : In p (q :: l)) by (apply (Permutation_in _ Hperm); now left).
    assert (Hqin : In q (p :: l'))
      by (apply (Permutation_in _ (Permutation_sym Hperm)); now left).
    assert (p = q) as ->.
    { destruct Hpin as [<-|Hpin]; [reflexivity|].
      destruct Hqin as [->|Hqin]; [reflexivity|].
      rewrite Forall_forall in Hq, Hp.
      specialize (Hq (PartNumber p) (in_map PartNumber _ _ Hpin)).
      specialize (Hp q Hqin). lia. }
    f_equal. apply IH; [exact Hls | now apply Permutation_cons_inv in Hperm | exact Hl's].
Qed.

Lemma sorted_permutation_unique_witness :
  sort_Slice [{| ETag := "a"; PartNumber := 1 |}; {| ETag := "b"; PartNumber := 2 |}] =
  [{| ETag := "a"; PartNumber := 1 |}; {| ETag := "b"; PartNumber := 2 |}].
Proof.
  apply sorted_permutation_unique.
  - repeat constructor.
  - apply sort_Slice_perm.
  - repeat constructor; cbn; lia.
Defined.


(** On valid flags the two variants do the same work: in the same
    environment they make the same [UploadPart] calls in the same order,
    pass the same manifests to [CompleteMultipartUpload], and end with the
    same status. *)
Theorem variants_agree_on_valid_flags a env :
  missing_flag (bucket a) (key a) (filePath a) = false ->
  minimumChunkSize <= chunkSize a ->
  uploads (fst (run (MainGo.main a) env)) = uploads (fst (run (Refactored.main a) env)) /\
  completions (fst (run (MainGo.main a) env)) =
    completions (fst (run (Refactored.main a) env)) /\
  snd (run (MainGo.main a) env) = snd (run (Refactored.main a) env).
Proof.
  intros Hflags Hmin.
  assert (Hpos : 0 <= chunkSize a) by (unfold minimumChunkSize in Hmin; lia).
  assert (Hsmall : (chunkSize a <? minimumChunkSize) = false) by (apply Z.ltb_ge; lia).
  assert (Hval : validation a = []) by (unfold validation; now rewrite Hflags, Hsmall).
  destruct (LoadDefaultConfig env) as [cerr|] eqn:Hcfg.
  { rewrite (main_config_error env a cerr Hcfg),
      (refactored_config_error env a cerr Hflags Hmin Hcfg), Hval. now repeat split. }
  destruct (os_Open env (filePath a)) as [f|oerr] eqn:Hopen;
    destruct (CreateMultipartUpload_resp env (bucket a) (key a))
      as [uploadID|crerr] eqn:Hcreate.
  - (* a session and an open file: the loops run in step *)
    destruct (main_session_run env a f uploadID Hcfg Hopen Hcreate Hpos)
      as (tl & st & r & Hloop & Hmain).
    destruct (refactored_session a env f uploadID Hflags Hmin Hcfg Hcreate Hopen)
      as (tl' & st' & v & Hloop' & ->).
    pose proof (loops_in_step env a f uploadID (S (length (data f)))
                  (repeat Byte.x00 (Z.to_nat (chunkSize a))) 1 []
                  (loop_start f) (loop_start f) ltac:(repeat split)) as Hsim.
    rewrite Hloop, Hloop' in Hsim.
    pose proof (loop_quiet env (bucket a) (key a) f uploadID (S (length (data f)))
                  (repeat Byte.x00 (Z.to_nat (chunkSize a))) 1 [] (loop_start f)
                  (start_fuel f)) as (Hc & _).
    rewrite Hloop in Hc. cbn [fst] in Hc.
    destruct (session_opened_quiet a uploadID) as (Hqu & _ & Hqc & _).
    cbv zeta.
    inversion Hsim; subst.
    + destruct Hmain as [(Hr & _) | [(ps & err & [= <-] & He & ->) | (ps & [= <-] & He & ->)]];
        [discriminate| |]; rewrite He; cbn [fst snd];
        rewrite !uploads_app, !completions_app, Hqu, Hqc, Hc;
        cbn [uploads completions flat_map app]; rewrite ?app_nil_r; repeat split.
    + destruct Hmain as [(_ & ->) | [(ps & err & Hr & _) | (ps & Hr & _)]];
        try discriminate. cbn [fst snd].
      rewrite !uploads_app, !completions_app in *. rewrite Hqu, Hqc, Hc.
      apply app_eq_nil in Hc. destruct Hc as (Hc & _). rewrite Hc.
      cbn [uploads completions flat_map app]. rewrite ?app_nil_r. repeat split.
    + destruct Hmain as [(_ & ->) | [(ps & err & Hr & _) | (ps & Hr & _)]];
        try discriminate. cbn [fst snd].
      rewrite !uploads_app, !completions_app in *. rewrite Hqu, Hqc, Hc.
      apply app_eq_nil in Hc. destruct Hc as (Hc & _). rewrite Hc.
      cbn [uploads completions flat_map app]. rewrite ?app_nil_r. repeat split.
  - rewrite (main_create_error env a f crerr Hcfg Hopen Hcreate),
      (refactored_create_error env a crerr Hflags Hmin Hcfg Hcreate), Hval.
    now repeat split.
  - rewrite (main_open_error env a oerr Hcfg Hopen),
      (refactored_open_error env a uploadID oerr Hflags Hmin Hcfg Hcreate Hopen), Hval.
    now repeat split.
  - rewrite (main_open_error env a oerr Hcfg Hopen),
      (refactored_create_error env a crerr Hflags Hmin Hcfg Hcreate), Hval.
    now repeat split.
Qed.

Lemma variants_agree_witness :
  completions (fst (run (MainGo.main flags_min) (ok_env abc))) =
  completions (fst (run (Refactored.main flags_min) (ok_env abc))).
Proof.
  refine (proj1 (proj2 (variants_agree_on_valid_flags flags_min (ok_env abc) eq_refl _))).
  unfold flags_min. cbn. lia.
Defined.

(** * More of the loop *)

Lemma progress_app t1 t2 : progress (t1 ++ t2) = progress t1 ++ progress t2.
Proof. apply flat_map_app. Qed.

Lemma sessions_used_app t1 t2 :
  sessions_used (t1 ++ t2) = sessions_used t1 ++ sessions_used t2.
Proof. apply flat_map_app. Qed.


Section LoopPayloads.

Variables (env : Env) (bucket key : string) (f : File) (uploadID : string).

Abbreviation request b pn st :=
  (part_input bucket key uploadID pn (firstn (chunk_len f b st) (unread f st))).

Abbreviation run_loop fuel b pn acc st :=
  (loop fuel bucket key f uploadID b pn acc env st).


(** The progress lines and the recorded parts are the acknowledged uploads:
    one line per upload the service accepted, with its number and ETag, and
    when the loop is left the recorded parts are these, in order, each
    upload having been accepted. *)
Lemma loop_acknowledged fuel b pn acc st :
  (length (unread f st) < fuel)%nat ->
  let res := run_loop fuel b pn acc st in
  let acks := acknowledged env (n_upload st) (uploads (fst (fst res))) in
  progress (fst (fst res)) = map (fun p => (PartNumber p, ETag p)) acks /\
  forall parts,
    snd res = Val parts ->
    parts = acc ++ acks /\ length acks = length (uploads (fst (fst res))).
Proof.
  intros Hfuel. revert fuel b pn acc st Hfuel.
  apply (loop_cases env bucket key f uploadID
           (fun _ _ acc st res =>
              let acks := acknowledged env (n_upload st) (uploads (fst (fst res))) in
              progress (fst (fst res)) = map (fun p => (PartNumber p, ETag p)) acks /\
              forall parts,
                snd res = Val parts ->
                parts = acc ++ acks /\ length acks = length (uploads (fst (fst res))))).
  - intros b pn acc st msg _. cbn. split; [reflexivity|discriminate].
  - intros b pn acc st _ _. cbn. split; [reflexivity|].
    intros parts [= <-]. now rewrite app_nil_r.
  - intros b pn acc st err _ _ Hu. cbn [fst snd].
    change (uploads _) with [request b pn st]. cbn [acknowledged]. rewrite Hu.
    split; [reflexivity|discriminate].
  - intros b pn acc st etag t st' r _ _ Hu (Hp & Hparts). cbn [fst snd] in *.
    change (uploads (_ ++ t)) with (request b pn st :: uploads t).
    change (progress (_ ++ t)) with ((pn, etag) :: progress t).
    cbv zeta. cbn [acknowledged]. rewrite Hu.
    change (n_upload (after_part f b st)) with (S (n_upload st)) in *.
    cbn [map PartNumber ETag PartNumber_ part_input]. rewrite Hp.
    split; [reflexivity|].
    intros parts Hr. destruct (Hparts parts Hr) as (-> & Hlen).
    rewrite <- app_assoc. cbn [app length]. now rewrite Hlen.
Qed.

(** Every call of the loop addresses the one session it was given. *)
Lemma loop_sessions_used fuel b pn acc st :
  (length (unread f st) < fuel)%nat ->
  Forall (fun s => s = (bucket, key, uploadID))
    (sessions_used (fst (fst (run_loop fuel b pn acc st)))).
Proof.
  apply (loop_cases env bucket key f uploadID
           (fun _ _ _ _ res =>
              Forall (fun s => s = (bucket, key, uploadID))
                (sessions_used (fst (fst res))))).
  - intros. constructor.
  - intros. constructor.
  - intros. cbn. repeat constructor.
  - intros b' pn' acc' st' etag t st'' r _ _ _ IH. cbn [fst] in *.
    change (sessions_used (_ ++ t)) with ((bucket, key, uploadID) :: sessions_used t).
    now constructor.
Qed.

(** The loop aborts at most once, and only after an upload was refused; it
    then ends the process. *)
Lemma loop_aborts fuel b pn acc st :
  (length (unread f st) < fuel)%nat ->
  let res := run_loop fuel b pn acc st in
  aborts (fst (fst res)) = [] \/
  (aborts (fst (fst res)) = [(bucket, key, uploadID)] /\
   snd res = Halt (Exited 1) /\
   exists i inp err,
     nth_error (uploads (fst (fst res))) i = Some inp /\
     UploadPart_resp env (n_upload st + i) inp = inr err).
Proof.
  intros Hfuel. revert fuel b pn acc st Hfuel.
  apply (loop_cases env bucket key f uploadID
           (fun _ _ _ st res =>
              aborts (fst (fst res)) = [] \/
              (aborts (fst (fst res)) = [(bucket, key, uploadID)] /\
               snd res = Halt (Exited 1) /\
               exists i inp err,
                 nth_error (uploads (fst (fst res))) i = Some inp /\
                 UploadPart_resp env (n_upload st + i) inp = inr err))).
  - intros. now left.
  - intros. now left.
  - intros b pn acc st err _ _ Hu. right. repeat split.
    exists 0%nat, (request b pn st), err. rewrite Nat.add_0_r. now split.
  - intros b pn acc st etag t st' r _ _ _ IH. cbn [fst snd] in *.
    change (aborts (_ ++ t)) with (aborts t).
    change (uploads (_ ++ t)) with (request b pn st :: uploads t).
    destruct IH as [IH | (Ha & Hr & i & inp & err & Hi & Hresp)]; [now left|].
    right. repeat split; try assumption.
    exists (S i), inp, err. split; [exact Hi|].
    change (n_upload (after_part f b st)) with (S (n_upload st)) in Hresp.
    now rewrite <- Nat.add_succ_comm.
Qed.

End LoopPayloads.

Lemma validation_silent a :
  progress (validation a) = [] /\ sessions_used (validation a) = [] /\
  opens (validation a) = [].
Proof.
  unfold validation.
  destruct (missing_flag _ _ _), (chunkSize a <? minimumChunkSize); repeat split.
Qed.

Lemma session_opened_silent a uploadID :
  progress (session_opened a uploadID) = [] /\
  sessions_used (session_opened a uploadID) = [] /\
  opens (session_opened a uploadID) = [filePath a].
Proof.
  unfold session_opened. rewrite progress_app, sessions_used_app, opens_app.
  destruct (validation_silent a) as (-> & -> & ->). repeat split.
Qed.

(** Pushing the readings of a trace through its pieces. *)
Ltac project :=
  rewrite ?uploads_app, ?progress_app, ?sessions_used_app, ?aborts_app,
    ?completions_app, ?closes_app, ?creates_app, ?fatals_app, ?opens_app.

(** What a run of src/main.go calls, read off its loop: a run that gets no
    buffer calls nothing after [CreateMultipartUpload]; every other run is
    the run of its loop, followed by the completion call when the loop is
    left. *)
Lemma main_run_by_loop a env t h :
  run (MainGo.main a) env = (t, h) ->
  (uploads t = [] /\ progress t = [] /\ sessions_used t = [] /\ aborts t = [] /\
   completions t = [] /\ (length (creates t) <= 1)%nat /\ h <> Returned) \/
  exists f uploadID tl stl rl,
    LoadDefaultConfig env = None /\
    os_Open env (filePath a) = inl f /\
    CreateMultipartUpload_resp env (bucket a) (key a) = inl uploadID /\
    0 <= chunkSize a /\
    loop (S (length (data f))) (bucket a) (key a) f uploadID
      (repeat Byte.x00 (Z.to_nat (chunkSize a))) 1 [] env (loop_start f) = (tl, stl, rl) /\
    uploads t = uploads tl /\ progress t = progress tl /\ aborts t = aborts tl /\
    creates t = [(bucket a, key a)] /\
    ((rl = Halt (Exited 1) /\ h = Exited 1 /\
      sessions_used t = sessions_used tl /\ completions t = []) \/
     (exists ps,
        rl = Val ps /\
        sessions_used t = sessions_used tl ++ [(bucket a, key a, uploadID)] /\
        completions t = [sort_Slice ps])).
Proof.
  intros Hrun.
  main_phases env a; apply pair_equal_spec in Hrun; destruct Hrun as [<- <-].
  1, 2, 6, 7: left; project;
    try (destruct (session_opened_quiet a uploadID) as (-> & -> & -> & _ & _ & ->));
    try (destruct (session_opened_silent a uploadID) as (-> & -> & _));
    try (destruct (validation_quiet a) as (-> & -> & -> & -> & _));
    try (destruct (validation_silent a) as (-> & -> & _));
    repeat split; cbn; try lia; discriminate.
  all: right; exists f, uploadID, tl, stl;
    pose proof (loop_quiet env (bucket a) (key a) f uploadID (S (length (data f)))
                  (repeat Byte.x00 (Z.to_nat (chunkSize a))) 1 [] (loop_start f)
                  (start_fuel f)) as (Hc & _ & Hcr);
    rewrite Hloop in Hc, Hcr; cbn [fst] in Hc, Hcr;
    destruct (session_opened_quiet a uploadID) as (Hqu & Hqa & Hqc & _ & _ & Hqcr);
    destruct (session_opened_silent a uploadID) as (Hqp & Hqs & _);
    eexists; (do 5 (split; [eassumption || reflexivity|]));
    project; rewrite Hqu, Hqa, Hqc, Hqcr, Hqp, Hqs, Hc, Hcr; cbn [app].
  - repeat split. left. repeat split.
  - change (uploads [_; _]) with (@nil UploadPartInput).
    change (progress [_; _]) with (@nil (Z * string)).
    change (aborts [_; _]) with (@nil (string * string * string)).
    change (creates [_; _]) with (@nil (string * string)).
    rewrite !app_nil_r. repeat split. right. exists ps. repeat split.
  - change (uploads [_; _; _]) with (@nil UploadPartInput).
    change (progress [_; _; _]) with (@nil (Z * string)).
    change (aborts [_; _; _]) with (@nil (string * string * string)).
    change (creates [_; _; _]) with (@nil (string * string)).
    rewrite !app_nil_r. repeat split. right. exists ps. repeat split.
Qed.

Lemma acknowledged_all env k ups :
  length (acknowledged env k ups) = length ups ->
  forall j inp,
    nth_error ups j = Some inp ->
    exists etag,
      UploadPart_resp env (k + j) inp = inl etag /\
      nth_error (acknowledged env k ups) j =
        Some {| ETag := etag; PartNumber := PartNumber_ inp |}.
Proof.
  revert k. induction ups as [|u ups IH]; intros k Hlen [|j] inp Hj; try discriminate.
  - injection Hj as ->. cbn in *. rewrite Nat.add_0_r.
    destruct (UploadPart_resp env k inp) as [etag|err]; [|discriminate].
    now exists etag.
  - cbn in Hj, Hlen |- *.
    destruct (UploadPart_resp env k u) as [etag|err]; [|discriminate].
    injection Hlen as Hlen. rewrite <- Nat.add_succ_comm. cbn [nth_error].
    now apply IH.
Qed.

Lemma acknowledged_numbers env k ups :
  length (acknowledged env k ups) = length ups ->
  map PartNumber (acknowledged env k ups) = map PartNumber_ ups.
Proof.
  revert k. induction ups as [|u ups IH]; intros k Hlen; [reflexivity|].
  cbn in *. destruct (UploadPart_resp env k u) as [etag|err]; [|discriminate].
  injection Hlen as Hlen. cbn. now rewrite IH.
Qed.

Lemma sort_Slice_length l : length (sort_Slice l) = length l.
Proof. apply Permutation_length, sort_Slice_perm. Qed.

(** * What src/main.go uploads and records *)



(** The manifest pairs each part number with the ETag the service returned
    for that part.  In every run of src/main.go that calls
    [CompleteMultipartUpload], every [UploadPart] call of the run was
    accepted, and the manifest is the sorted list of one entry per call:
    the call's part number with the ETag of its answer.  With fewer than
    [2^31] parts the entries stand in the order of the calls. *)
Theorem main_manifest_pairs_etags a env t h manifest :
  run (MainGo.main a) env = (t, h) ->
  In manifest (completions t) ->
  manifest = sort_Slice (acknowledged env 0 (uploads t)) /\
  length manifest = length (uploads t) /\
  (forall j inp,
      nth_error (uploads t) j = Some inp ->
      exists etag,
        UploadPart_resp env j inp = inl etag /\
        In {| ETag := etag; PartNumber := PartNumber_ inp |} manifest) /\
  (Z.of_nat (length (uploads t)) < 2147483648 ->
   forall j inp,
     nth_error (uploads t) j = Some inp ->
     exists etag,
       UploadPart_resp env j inp = inl etag /\
       nth_error manifest j = Some {| ETag := etag; PartNumber := Z.of_nat (S j) |}).
Proof.
  intros Hrun Hin.
  destruct (main_run_by_loop a env t h Hrun)
    as [(_ & _ & _ & _ & Hc & _) |
        (f & uploadID & tl & stl & rl & _ & _ & _ & Hpos & Hloop & Hu & _ & _ & _ &
         [(_ & _ & _ & Hc) | (ps & -> & _ & Hc)])];
    rewrite Hc in Hin; try contradiction.
  destruct Hin as [<-|[]].
  pose proof (loop_acknowledged env (bucket a) (key a) f uploadID (S (length (data f)))
                (repeat Byte.x00 (Z.to_nat (chunkSize a))) 1 [] (loop_start f)
                (start_fuel f)) as Hack.
  pose proof (loop_uploads_numbered env (bucket a) (key a) f uploadID
                (S (length (data f))) (repeat Byte.x00 (Z.to_nat (chunkSize a)))
                1 [] (loop_start f) (start_fuel f) eq_refl) as Hnum.
  rewrite Hloop in Hack, Hnum. cbn [fst snd] in Hack, Hnum. cbv zeta in Hack.
  destruct Hack as (_ & Hack). destruct (Hack ps eq_refl) as (Hps & Hlen).
  cbn [app loop_start n_upload] in Hps, Hlen. rewrite <- Hu in *. subst ps.
  split; [reflexivity|]. split; [now rewrite sort_Slice_length|]. split.
  - intros j inp Hj.
    destruct (acknowledged_all env 0 (uploads t) Hlen j inp Hj) as (etag & Hresp & Hnth).
    exists etag. split; [exact Hresp|].
    apply sort_Slice_in. eapply nth_error_In. exact Hnth.
  - intros Hsmall j inp Hj.
    destruct (acknowledged_all env 0 (uploads t) Hlen j inp Hj) as (etag & Hresp & Hnth).
    exists etag. split; [exact Hresp|].
    rewrite sort_Slice_sorted.
    + rewrite Hnth. do 2 f_equal.
      assert (Hn : nth_error (map PartNumber_ (uploads t)) j = Some (PartNumber_ inp))
        by (rewrite nth_error_map, Hj; reflexivity).
      rewrite Hnum, (numbered_one_to _ Hsmall) in Hn.
      rewrite nth_error_one_to in Hn by (apply nth_error_Some; congruence).
      now injection Hn as <-.
    + rewrite (acknowledged_numbers env 0 (uploads t) Hlen), Hnum,
        (numbered_one_to _ Hsmall).
      apply one_to_sorted.
Qed.

Lemma main_manifest_pairs_etags_witness :
  exists etag,
    UploadPart_resp (etags_env abc) 1 (part_input "b" "k" "id-1" 2 [Byte.x63]) = inl etag /\
    nth_error [{| ETag := "etag-1"; PartNumber := 1 |}; {| ETag := "etag-2"; PartNumber := 2 |}]
      1 = Some {| ETag := etag; PartNumber := 2 |}.
Proof.
  refine (proj2 (proj2 (proj2
            (main_manifest_pairs_etags flags2 (etags_env abc)
               (fst (run (MainGo.main flags2) (etags_env abc)))
               (snd (run (MainGo.main flags2) (etags_env abc)))
               [{| ETag := "etag-1"; PartNumber := 1 |};
                {| ETag := "etag-2"; PartNumber := 2 |}] eq_refl _))) _ 1%nat
            (part_input "b" "k" "id-1" 2 [Byte.x63]) eq_refl).
  - vm_compute. now left.
  - vm_compute. reflexivity.
Defined.

(** The progress lines of src/main.go tell what the service accepted: one
    line per accepted [UploadPart] call, in the order of the calls, with the
    part number sent and the ETag received; a refused upload prints no
    line. *)
Theorem main_progress_lines a env :
  progress (fst (run (MainGo.main a) env)) =
    map (fun p => (PartNumber p, ETag p))
      (acknowledged env 0 (uploads (fst (run (MainGo.main a) env)))).
Proof.
  destruct (run (MainGo.main a) env) as [t h] eqn:Hrun. cbn [fst].
  destruct (main_run_by_loop a env t h Hrun)
    as [(-> & -> & _) |
        (f & uploadID & tl & stl & rl & _ & _ & _ & _ & Hloop & -> & -> & _)];
    [reflexivity|].
  pose proof (loop_acknowledged env (bucket a) (key a) f uploadID (S (length (data f)))
                (repeat Byte.x00 (Z.to_nat (chunkSize a))) 1 [] (loop_start f)
                (start_fuel f)) as Hack.
  rewrite Hloop in Hack. cbn [fst snd] in Hack. cbv zeta in Hack.
  exact (proj1 Hack).
Qed.

(** Every [UploadPart], [AbortMultipartUpload] and [CompleteMultipartUpload]
    call of a run of src/main.go names the bucket and the key of the flags
    and the upload id that [CreateMultipartUpload] returned. *)
Theorem main_calls_name_the_created_session a env t h s :
  run (MainGo.main a) env = (t, h) ->
  In s (sessions_used t) ->
  exists uploadID,
    CreateMultipartUpload_resp env (bucket a) (key a) = inl uploadID /\
    s = (bucket a, key a, uploadID).
Proof.
  intros Hrun Hin.
  destruct (main_run_by_loop a env t h Hrun)
    as [(_ & _ & Hs & _) |
        (f & uploadID & tl & stl & rl & _ & _ & Hcreate & _ & Hloop & _ & _ & _ & _ &
         Hend)].
  { rewrite Hs in Hin. contradiction. }
  pose proof (loop_sessions_used env (bucket a) (key a) f uploadID (S (length (data f)))
                (repeat Byte.x00 (Z.to_nat (chunkSize a))) 1 [] (loop_start f)
                (start_fuel f)) as Hall.
  rewrite Hloop in Hall. cbn [fst] in Hall. rewrite Forall_forall in Hall.
  exists uploadID. split; [exact Hcreate|].
  destruct Hend as [(_ & _ & Hs & _) | (ps & _ & Hs & _)]; rewrite Hs in Hin.
  - now apply Hall.
  - apply in_app_or in Hin. destruct Hin as [Hin | [<- | []]]; [now apply Hall | reflexivity].
Qed.

Lemma main_calls_name_the_created_session_witness :
  exists uploadID,
    CreateMultipartUpload_resp (upload_fails_env abc 1) (bucket flags2) (key flags2)
    = inl uploadID /\
    ("b", "k", "id-1") = (bucket flags2, key flags2, uploadID).
Proof.
  refine (main_calls_name_the_created_session flags2 (upload_fails_env abc 1)
            (fst (run (MainGo.main flags2) (upload_fails_env abc 1)))
            (snd (run (MainGo.main flags2) (upload_fails_env abc 1)))
            ("b", "k", "id-1") eq_refl _).
  vm_compute. do 2 right. now left.
Defined.

(** src/main.go aborts only to answer a refused upload: a run with an
    [AbortMultipartUpload] call has exactly one, some [UploadPart] call of
    the run was refused, no completion is attempted and the process exits
    with status 1. *)
Theorem main_aborts_only_after_a_refused_upload a env t h :
  run (MainGo.main a) env = (t, h) ->
  aborts t <> [] ->
  (exists i inp err,
      nth_error (uploads t) i = Some inp /\ UploadPart_resp env i inp = inr err) /\
  length (aborts t) = 1%nat /\ completions t = [] /\ h = Exited 1.
Proof.
  intros Hrun Hab.
  destruct (main_run_by_loop a env t h Hrun)
    as [(_ & _ & _ & Ha & _) |
        (f & uploadID & tl & stl & rl & _ & _ & _ & _ & Hloop & Hu & _ & Ha & _ & Hend)].
  { now elim Hab. }
  pose proof (loop_aborts env (bucket a) (key a) f uploadID (S (length (data f)))
                (repeat Byte.x00 (Z.to_nat (chunkSize a))) 1 [] (loop_start f)
                (start_fuel f)) as Hl.
  rewrite Hloop in Hl. cbn [fst snd] in Hl. cbv zeta in Hl.
  rewrite Ha, Hu in *.
  destruct Hl as [Hl | (Hl & -> & i & inp & err & Hi & Hresp)]; [now elim Hab|].
  destruct Hend as [(_ & -> & _ & Hc) | (ps & [=] & _)].
  rewrite Hl. repeat split; try assumption.
  now exists i, inp, err.
Qed.

Lemma main_aborts_only_witness :
  completions (fst (run (MainGo.main flags2) (upload_fails_env abc 1))) = [] /\
  snd (run (MainGo.main flags2) (upload_fails_env abc 1)) = Exited 1.
Proof.
  refine (proj2 (proj2 (main_aborts_only_after_a_refused_upload flags2
                          (upload_fails_env abc 1)
                          (fst (run (MainGo.main flags2) (upload_fails_env abc 1)))
                          (snd (run (MainGo.main flags2) (upload_fails_env abc 1)))
                          eq_refl _))).
  vm_compute. discriminate.
Defined.

(** A run of src/main.go creates at most one session and ends it at most
    once: it never calls [CreateMultipartUpload] twice, and of
    [AbortMultipartUpload] and [CompleteMultipartUpload] it makes at most
    one call in all. *)
Theorem main_ends_the_session_at_most_once a env :
  (length (creates (fst (run (MainGo.main a) env))) <= 1)%nat /\
  (length (aborts (fst (run (MainGo.main a) env))) +
   length (completions (fst (run (MainGo.main a) env))) <= 1)%nat.
Proof.
  destruct (run (MainGo.main a) env) as [t h] eqn:Hrun. cbn [fst].
  destruct (main_run_by_loop a env t h Hrun)
    as [(_ & _ & _ & -> & -> & Hcr & _) |
        (f & uploadID & tl & stl & rl & _ & _ & _ & _ & Hloop & _ & _ & -> & -> & Hend)].
  { split; [exact Hcr | cbn; lia]. }
  pose proof (loop_aborts env (bucket a) (key a) f uploadID (S (length (data f)))
                (repeat Byte.x00 (Z.to_nat (chunkSize a))) 1 [] (loop_start f)
                (start_fuel f)) as Hl.
  rewrite Hloop in Hl. cbn [fst snd] in Hl. cbv zeta in Hl.
  split; [cbn; lia|].
  destruct Hend as [(_ & _ & _ & ->) | (ps & -> & _ & ->)];
    destruct Hl as [-> | (-> & Hr & _)]; try discriminate; cbn; lia.
Qed.

(** A negative chunk size is not refused: src/main.go opens the file and
    creates the session, then [make] panics.  The panic runs the deferred
    [f.Close()]; nothing is uploaded and the session is neither aborted nor
    completed. *)
Theorem main_negative_chunk_size_panics a env f uploadID :
  LoadDefaultConfig env = None ->
  os_Open env (filePath a) = inl f ->
  CreateMultipartUpload_resp env (bucket a) (key a) = inl uploadID ->
  chunkSize a < 0 ->
  snd (run (MainGo.main a) env) = Panicked "makeslice: len out of range" /\
  creates (fst (run (MainGo.main a) env)) = [(bucket a, key a)] /\
  uploads (fst (run (MainGo.main a) env)) = [] /\
  aborts (fst (run (MainGo.main a) env)) = [] /\
  completions (fst (run (MainGo.main a) env)) = [] /\
  closes (fst (run (MainGo.main a) env)) = [name f].
Proof.
  intros Hcfg Hopen Hcreate Hneg.
  rewrite (main_negative_chunk env a f uploadID Hcfg Hopen Hcreate Hneg). cbn [fst snd].
  project.
  destruct (session_opened_quiet a uploadID) as (-> & -> & -> & -> & _ & ->).
  repeat split.
Qed.

Lemma main_negative_chunk_size_witness :
  snd (run (MainGo.main {| bucket := "b"; key := "k"; filePath := "f"; chunkSize := -1 |})
         (ok_env abc)) = Panicked "makeslice: len out of range".
Proof.
  exact (proj1 (main_negative_chunk_size_panics
                  {| bucket := "b"; key := "k"; filePath := "f"; chunkSize := -1 |}
                  (ok_env abc) {| name := "f"; data := abc |} "id-1"
                  eq_refl eq_refl eq_refl eq_refl)).
Defined.



(** * What the refactored variant uploads and records *)

Lemma loop_sim_uploads r1 r2 :
  loop_sim r1 r2 ->
  uploads (fst (fst r1)) = uploads (fst (fst r2)) /\
  progress (fst (fst r1)) = progress (fst (fst r2)).
Proof.
  intros H. inversion H; subst; cbn [fst]; project; cbn [app];
    rewrite ?app_nil_r; split; reflexivity.
Qed.

(** A run of the refactored variant, read off the two loops: a run that
    opens no file uploads and completes nothing and exits; every other run
    is the run of the loop of [uploadParts], which the inline loop of
    src/main.go follows step by step, then [f.Close()], then the abort or
    the completion call. *)
Lemma refactored_run_by_loop a env t h :
  run (Refactored.main a) env = (t, h) ->
  (uploads t = [] /\ completions t = [] /\ closes t = [] /\ h = Exited 1 /\
   (creates t = [] \/
    (exists e, CreateMultipartUpload_resp env (bucket a) (key a) = inr e) \/
    (exists uploadId,
        CreateMultipartUpload_resp env (bucket a) (key a) = inl uploadId /\
        aborts t = [(bucket a, key a, uploadId)]))) \/
  exists f uploadId tl stl rl tl' stl' v,
    minimumChunkSize <= chunkSize a /\
    CreateMultipartUpload_resp env (bucket a) (key a) = inl uploadId /\
    os_Open env (filePath a) = inl f /\
    loop (S (length (data f))) (bucket a) (key a) f uploadId
      (repeat Byte.x00 (Z.to_nat (chunkSize a))) 1 [] env (loop_start f) = (tl, stl, rl) /\
    loop_sim (tl, stl, rl) (tl', stl', Val v) /\
    uploads t = uploads tl /\ closes t = [name f] /\
    match v with
    | inr err =>
        t = refactored_opened a uploadId ++ tl' ++
            [Close (name f); AbortMultipartUpload (bucket a) (key a) uploadId;
             log_Fatalf "failed to upload parts: %v" [VErr err]] /\
        h = Exited 1 /\ aborts t = [(bucket a, key a, uploadId)] /\ completions t = [] /\
        fatals t = [("failed to upload parts: %v", [VErr err])]
    | inl parts =>
        aborts t = [] /\ completions t = [sort_Slice parts] /\
        ((exists e,
             CompleteMultipartUpload_resp env (sort_Slice parts) = Some e /\
             h = Exited 1 /\
             t = refactored_opened a uploadId ++ tl' ++
                 [Close (name f);
                  CompleteMultipartUpload (bucket a) (key a) uploadId (sort_Slice parts);
                  log_Fatalf "failed to complete multipart upload: %v" [VErr e]] /\
             fatals t = [("failed to complete multipart upload: %v", [VErr e])]) \/
         (CompleteMultipartUpload_resp env (sort_Slice parts) = None /\
          h = Returned /\
          t = refactored_opened a uploadId ++ tl' ++
              [Close (name f);
               CompleteMultipartUpload (bucket a) (key a) uploadId (sort_Slice parts);
               fmt_Println [VStr "Upload completed successfully!"]] /\
          fatals t = []))
    end.
Proof.
  intros Hrun.
  refactored_phases env a;
    try (apply pair_equal_spec in Hrun; destruct Hrun as [<- <-]; left;
         repeat split; eauto).
  right.
  pose proof (loops_in_step env a f uploadId (S (length (data f)))
                (repeat Byte.x00 (Z.to_nat (chunkSize a))) 1 []
                (loop_start f) (loop_start f) ltac:(repeat split)) as Hsim.
  destruct (loop (S (length (data f))) (bucket a) (key a) f uploadId
              (repeat Byte.x00 (Z.to_nat (chunkSize a))) 1 [] env (loop_start f))
    as [[tl0 stl0] rl0] eqn:Hinline.
  rewrite Hloop in Hsim.
  destruct (uploadParts_loop_returns env a f uploadId (S (length (data f)))
              (repeat Byte.x00 (Z.to_nat (chunkSize a))) 1 [] (loop_start f) (start_fuel f))
    as (_ & _ & _ & Hcl & _ & Hab & Hco & Hfa & _).
  rewrite Hloop in Hcl, Hab, Hco, Hfa. cbn [fst] in Hcl, Hab, Hco, Hfa.
  destruct (loop_sim_uploads _ _ Hsim) as (Hup & _). cbn [fst] in Hup.
  exists f, uploadId, tl0, stl0, rl0, tl, stl, v.
  do 5 (split; [assumption || reflexivity|]).
  cbv zeta in Hrun. fold (refactored_opened a uploadId) in Hrun.
  destruct v as [parts|err];
    [destruct (CompleteMultipartUpload_resp env (sort_Slice parts)) as [e|] eqn:He|];
    apply pair_equal_spec in Hrun; destruct Hrun as [<- <-];
    project; rewrite Hcl, Hab, Hco, Hfa, Hup; cbn [app]; rewrite <- ?app_assoc.
  - repeat split; try (now rewrite app_nil_r). left. exists e. repeat split.
  - repeat split; try (now rewrite app_nil_r). right. repeat split.
  - repeat split; now rewrite app_nil_r.
Qed.

Lemma app_inj_tail2 {A} (x y : list A) (a b c d : A) :
  x ++ [a; b] = y ++ [c; d] -> x = y /\ a = c /\ b = d.
Proof.
  change (x ++ [a; b]) with (x ++ [a] ++ [b]). change (y ++ [c; d]) with (y ++ [c] ++ [d]).
  rewrite !app_assoc. intros H.
  apply app_inj_tail in H. destruct H as (H & ->).
  apply app_inj_tail in H. destruct H as (-> & ->). now repeat split.
Qed.

(** C4 on the refactored variant.  A refused [UploadPart] call is the last
    one: [uploadParts] returns its error, which closes the file; [main]
    then aborts the session, reports the error wrapped twice and exits with
    status 1.  No completion is attempted. *)
Theorem refactored_part_failure_aborts a env t h i inp err :
  run (Refactored.main a) env = (t, h) ->
  nth_error (uploads t) i = Some inp ->
  UploadPart_resp env i inp = inr err ->
  exists t0 f,
    os_Open env (filePath a) = inl f /\
    t = t0 ++ [UploadPart inp; Close (name f);
               AbortMultipartUpload (bucket a) (key a) (UploadId inp);
               log_Fatalf "failed to upload parts: %v"
                 [VErr (Errorf "failed to upload part %d: %v"
                          [VInt (PartNumber_ inp); VErr err])]] /\
    length (uploads t) = S i /\ aborts t = [(bucket a, key a, UploadId inp)] /\
    completions t = [] /\ h = Exited 1.
Proof.
  intros Hrun Hi Hresp.
  destruct (refactored_run_by_loop a env t h Hrun)
    as [(Hu & _) |
        (f & uploadId & tl & stl & rl & tl' & stl' & v & _ & _ & Hopen & Hloop & Hsim &
         Hu & _ & Hv)].
  { rewrite Hu in Hi. destruct i; discriminate. }
  pose proof (loop_upload_failure env (bucket a) (key a) f uploadId (S (length (data f)))
                (repeat Byte.x00 (Z.to_nat (chunkSize a))) 1 [] (loop_start f)
                (start_fuel f) i inp err) as Hfail.
  pose proof (loop_uploads_session env (bucket a) (key a) f uploadId (S (length (data f)))
                (repeat Byte.x00 (Z.to_nat (chunkSize a))) 1 [] (loop_start f)
                (start_fuel f)) as Hses.
  rewrite Hloop in Hfail, Hses. cbn [fst snd] in Hfail, Hses. rewrite <- Hu in Hfail, Hses.
  destruct (Hfail Hi Hresp) as (Hlen & -> & t0 & -> & _).
  assert (Hid : UploadId inp = uploadId).
  { rewrite Forall_forall in Hses.
    now destruct (Hses inp (nth_error_In _ _ Hi)) as (_ & _ & ?). }
  inversion Hsim as [| t1 s1 s2 e Hs Ht | t1 s1 s2 b k u pn e Hs Ht |]; subst.
  - exfalso.
    change (t0 ++ [UploadPart inp; AbortMultipartUpload (bucket a) (key a) (UploadId inp);
                   log_Fatalf "failed to upload part %d: %v"
                     [VInt (PartNumber_ inp); VErr err]])
      with (t0 ++ [UploadPart inp; AbortMultipartUpload (bucket a) (key a) (UploadId inp)]
               ++ [log_Fatalf "failed to upload part %d: %v"
                     [VInt (PartNumber_ inp); VErr err]]) in Ht.
    rewrite app_assoc in Ht. apply app_inj_tail in Ht. destruct Ht as (_ & Ht).
    discriminate.
  - change (t0 ++ [UploadPart inp; AbortMultipartUpload (bucket a) (key a) (UploadId inp);
                   log_Fatalf "failed to upload part %d: %v"
                     [VInt (PartNumber_ inp); VErr err]])
      with (t0 ++ [UploadPart inp] ++
            [AbortMultipartUpload (bucket a) (key a) (UploadId inp);
             log_Fatalf "failed to upload part %d: %v"
               [VInt (PartNumber_ inp); VErr err]]) in Ht.
    rewrite app_assoc in Ht. apply app_inj_tail2 in Ht.
    destruct Ht as (-> & _ & [= <- <-]).
    destruct Hv as (-> & -> & Ha & Hc & _).
    exists (refactored_opened a (UploadId inp) ++ t0), f.
    repeat split; try assumption.
    now rewrite <- !app_assoc.
Qed.

Lemma refactored_part_failure_witness :
  aborts (fst (run (Refactored.main flags_min) (upload_fails_env abc 0)))
  = [("b", "k", "id-1")] /\
  snd (run (Refactored.main flags_min) (upload_fails_env abc 0)) = Exited 1.
Proof.
  destruct (refactored_part_failure_aborts flags_min (upload_fails_env abc 0)
              (fst (run (Refactored.main flags_min) (upload_fails_env abc 0)))
              (snd (run (Refactored.main flags_min) (upload_fails_env abc 0)))
              0%nat (part_input "b" "k" "id-1" 1 abc) (Failure "503 Slow Down"))
    as (t0 & f & _ & _ & _ & Ha & _ & Hh).
  - now destruct (run (Refactored.main flags_min) (upload_fails_env abc 0)).
  - vm_compute. reflexivity.
  - reflexivity.
  - split; [exact Ha | exact Hh].
Defined.

(** C8 on the refactored variant.  When [CompleteMultipartUpload] is
    refused the process exits with status 1 without aborting the session;
    unlike src/main.go it has closed the file before the call, since
    [uploadParts] had returned. *)
Theorem refactored_completion_failure a env t h manifest err :
  run (Refactored.main a) env = (t, h) ->
  In manifest (completions t) ->
  CompleteMultipartUpload_resp env manifest = Some err ->
  exists t0 f uploadId,
    os_Open env (filePath a) = inl f /\
    t = t0 ++ [Close (name f);
               CompleteMultipartUpload (bucket a) (key a) uploadId manifest;
               log_Fatalf "failed to complete multipart upload: %v" [VErr err]] /\
    aborts t = [] /\ closes t = [name f] /\ h = Exited 1.
Proof.
  intros Hrun Hin Herr.
  destruct (refactored_run_by_loop a env t h Hrun)
    as [(_ & Hc & _) |
        (f & uploadId & tl & stl & rl & tl' & stl' & v & _ & _ & Hopen & _ & _ &
         _ & Hcl & Hv)].
  { rewrite Hc in Hin. contradiction. }
  destruct v as [parts|e].
  - destruct Hv as (Ha & Hc & Hend). rewrite Hc in Hin. destruct Hin as [<-|[]].
    destruct Hend as [(e & He & -> & Ht & _) | (He & _)]; [|congruence].
    assert (e = err) by congruence. subst e.
    exists (refactored_opened a uploadId ++ tl'), f, uploadId.
    rewrite <- app_assoc. repeat split; assumption.
  - destruct Hv as (_ & _ & _ & Hc & _). rewrite Hc in Hin. contradiction.
Qed.

Lemma refactored_completion_failure_witness :
  closes (fst (run (Refactored.main flags_min) (complete_fails_env abc))) = ["f"] /\
  snd (run (Refactored.main flags_min) (complete_fails_env abc)) = Exited 1.
Proof.
  destruct (refactored_completion_failure flags_min (complete_fails_env abc)
              (fst (run (Refactored.main flags_min) (complete_fails_env abc)))
              (snd (run (Refactored.main flags_min) (complete_fails_env abc)))
              [{| ETag := "etag"; PartNumber := 1 |}] (Failure "500 Internal Error"))
    as (t0 & f & uploadId & Hf & _ & _ & Hcl & Hh).
  - now destruct (run (Refactored.main flags_min) (complete_fails_env abc)).
  - vm_compute. now left.
  - reflexivity.
  - injection Hf as <-. split; [exact Hcl | exact Hh].
Defined.





(** The two variants order the first steps differently.  src/main.go opens
    the file before it creates the session: a file that does not open costs
    no session.  The refactored variant creates the session first: a file
    that does not open costs a session, which is aborted. *)
Theorem unopenable_file a env err :
  LoadDefaultConfig env = None ->
  os_Open env (filePath a) = inr err ->
  (snd (run (MainGo.main a) env) = Exited 1 /\
   creates (fst (run (MainGo.main a) env)) = [] /\
   fatals (fst (run (MainGo.main a) env)) = [("failed to open file, %v", [VErr err])]) /\
  (forall uploadId,
      missing_flag (bucket a) (key a) (filePath a) = false ->
      minimumChunkSize <= chunkSize a ->
      CreateMultipartUpload_resp env (bucket a) (key a) = inl uploadId ->
      snd (run (Refactored.main a) env) = Exited 1 /\
      creates (fst (run (Refactored.main a) env)) = [(bucket a, key a)] /\
      aborts (fst (run (Refactored.main a) env)) = [(bucket a, key a, uploadId)] /\
      fatals (fst (run (Refactored.main a) env)) =
        [("failed to upload parts: %v",
          [VErr (Errorf "failed to open file: %v" [VErr err])])]).
Proof.
  intros Hcfg Hopen. split.
  - rewrite (main_open_error env a err Hcfg Hopen). cbn [fst snd]. project.
    destruct (validation_quiet a) as (_ & _ & -> & _ & _ & ->). repeat split.
  - intros uploadId Hflags Hmin Hcreate.
    rewrite (refactored_open_error env a uploadId err Hflags Hmin Hcfg Hcreate Hopen).
    repeat split.
Qed.

Lemma unopenable_file_witness :
  creates (fst (run (MainGo.main flags_min) no_file_env)) = [] /\
  aborts (fst (run (Refactored.main flags_min) no_file_env)) = [("b", "k", "id-1")].
Proof.
  destruct (unopenable_file flags_min no_file_env (Failure "no such file")
              eq_refl eq_refl) as ((_ & Hc & _) & Hr).
  split; [exact Hc|].
  refine (proj1 (proj2 (proj2 (Hr "id-1" eq_refl _ eq_refl)))).
  unfold flags_min, minimumChunkSize. cbn. lia.
Defined.

(** A configuration that does not load stops every variant before any
    file is opened and any call to the service is made, with status 1.
    [initializeClient] wraps the cause in "unable to load SDK config";
    src/unnamed/part_001 reports it itself. *)
Theorem config_failure_stops_before_any_call a env err :
  LoadDefaultConfig env = Some err ->
  (snd (run (MainGo.main a) env) = Exited 1 /\
   opens (fst (run (MainGo.main a) env)) = [] /\
   creates (fst (run (MainGo.main a) env)) = [] /\
   fatals (fst (run (MainGo.main a) env)) =
     [("%v", [VErr (Errorf "unable to load SDK config: %v" [VErr err])])]) /\
  (missing_flag (bucket a) (key a) (filePath a) = false ->
   (minimumChunkSize <= chunkSize a ->
    run (Refactored.main a) env =
      ([log_Fatalf "%v" [VErr (Errorf "unable to load SDK config: %v" [VErr err])]],
       Exited 1)) /\
   run (FixedChunk.main (bucket a) (key a) (filePath a)) env =
     ([log_Fatalf "unable to load SDK config, %v" [VErr err]], Exited 1)).
Proof.
  intros Hcfg. split.
  - rewrite (main_config_error env a err Hcfg). cbn [fst snd]. project.
    destruct (validation_quiet a) as (_ & _ & -> & _ & _ & ->).
    destruct (validation_silent a) as (_ & _ & ->). repeat split.
  - intros Hflags. split.
    + intros Hmin. exact (refactored_config_error env a err Hflags Hmin Hcfg).
    + unfold run, call, FixedChunk.main, bind, when, config_LoadDefaultConfig.
      now rewrite Hflags, Hcfg.
Qed.

Lemma config_failure_witness :
  creates (fst (run (MainGo.main flags_min) (no_config_env abc))) = [] /\
  opens (fst (run (MainGo.main flags_min) (no_config_env abc))) = [].
Proof.
  destruct (config_failure_stops_before_any_call flags_min (no_config_env abc)
              (Failure "no credentials") eq_refl) as ((_ & Ho & Hc & _) & _).
  split; [exact Hc | exact Ho].
Defined.

(** * src/unnamed/part_001 *)

(** The runs of src/unnamed/part_001, by its first two checks; past them it
    runs as src/main.go does with the chunk size [5*1024*1024]. *)
Lemma fixed_chunk_run b k path env :
  run (FixedChunk.main b k path) env =
    if missing_flag b k path
    then ([flag_Usage; log_Fatal [VStr "bucket, key, and file must all be provided"]],
          Exited 1)
    else match LoadDefaultConfig env with
         | Some err =>
             ([log_Fatalf "unable to load SDK config, %v" [VErr err]], Exited 1)
         | None => run (MainGo.main (fixed_flags b k path)) env
         end.
Proof.
  unfold run, call, FixedChunk.main, MainGo.main, MainGo.collect, complete, bind, when,
    initializeClient, config_LoadDefaultConfig, bind, ret, Open_,
    client_CreateMultipartUpload, make_bytes, defer, Println, emit.
  cbn [fixed_flags bucket key filePath chunkSize].
  change (5 * 1024 * 1024 <? minimumChunkSize) with false.
  change (5 * 1024 * 1024 <? 0) with false.
  destruct (missing_flag b k path); [reflexivity|].
  destruct (LoadDefaultConfig env); [reflexivity|].
  cbn [init_state offset n_read n_upload defers].
  destruct (os_Open env path) as [f|oerr]; [|reflexivity].
  destruct (CreateMultipartUpload_resp env b k) as [uploadID|crerr]; [|reflexivity].
  cbn [opened offset n_read n_upload defers ret].
  destruct (loop _ _ _ _ _ _ _ _ _ _) as [[t st] [parts|h]].
  - unfold client_CompleteMultipartUpload.
    destruct (CompleteMultipartUpload_resp env (sort_Slice parts));
      cbn -[sort_Slice]; rewrite ?app_nil_r; reflexivity.
  - destruct h; cbn; rewrite ?app_nil_r; reflexivity.
Qed.

(** A run of src/unnamed/part_001 that reads or completes anything is a run
    of src/main.go. *)
Lemma fixed_chunk_run_of_main b k path env t h :
  run (FixedChunk.main b k path) env = (t, h) ->
  (exists e, In e t /\
             match e with
             | Read _ _ | CompleteMultipartUpload _ _ _ _ => True
             | _ => False
             end) ->
  run (MainGo.main (fixed_flags b k path)) env = (t, h).
Proof.
  intros Hrun (e & Hin & He). rewrite fixed_chunk_run in Hrun.
  destruct (missing_flag b k path).
  { injection Hrun as <- <-. destruct Hin as [<-|[<-|[]]]; contradiction. }
  destruct (LoadDefaultConfig env).
  { injection Hrun as <- <-. destruct Hin as [<-|[]]; contradiction. }
  exact Hrun.
Qed.

Lemma completions_in t manifest :
  In manifest (completions t) ->
  exists b k u, In (CompleteMultipartUpload b k u manifest) t.
Proof.
  induction t as [|e t IH]; [contradiction|].
  change (e :: t) with ([e] ++ t) at 1. rewrite completions_app.
  intros Hin. apply in_app_or in Hin. destruct Hin as [Hin|Hin].
  - destruct e; try contradiction. destruct Hin as [<-|[]].
    eexists _, _, _. now left.
  - destruct (IH Hin) as (b & k & u & H). exists b, k, u. now right.
Qed.

(** The manifest of a run of src/main.go is the sorted list of the
    acknowledged uploads. *)
Lemma manifest_acknowledged a env t h manifest :
  run (MainGo.main a) env = (t, h) ->
  In manifest (completions t) ->
  manifest = sort_Slice (acknowledged env 0 (uploads t)).
Proof.
  intros Hrun Hin.
  destruct (main_run_by_loop a env t h Hrun)
    as [(_ & _ & _ & _ & Hc & _) |
        (f & uploadID & tl & stl & rl & _ & _ & _ & Hpos & Hloop & Hu & _ & _ & _ &
         [(_ & _ & _ & Hc) | (ps & -> & _ & Hc)])];
    rewrite Hc in Hin; try contradiction.
  destruct Hin as [<-|[]].
  pose proof (loop_acknowledged env (bucket a) (key a) f uploadID (S (length (data f)))
                (repeat Byte.x00 (Z.to_nat (chunkSize a))) 1 [] (loop_start f)
                (start_fuel f)) as Hack.
  rewrite Hloop in Hack. cbn [fst snd] in Hack. cbv zeta in Hack.
  destruct (proj2 Hack ps eq_refl) as (-> & _). now rewrite Hu.
Qed.

(** src/unnamed/part_001 is src/main.go with the chunk size fixed at
    [5*1024*1024]: when no flag is missing and the configuration loads, the
    two programs have the same run, event by event, in every environment. *)
Theorem fixed_chunk_is_main_at_five_MiB b k path env :
  missing_flag b k path = false ->
  LoadDefaultConfig env = None ->
  run (FixedChunk.main b k path) env = run (MainGo.main (fixed_flags b k path)) env.
Proof.
  intros Hflags Hcfg. now rewrite fixed_chunk_run, Hflags, Hcfg.
Qed.

Lemma fixed_chunk_is_main_witness :
  run (FixedChunk.main "b" "k" "f") (ok_env abc) =
  run (MainGo.main (fixed_flags "b" "k" "f")) (ok_env abc).
Proof.
  exact (fixed_chunk_is_main_at_five_MiB "b" "k" "f" (ok_env abc) eq_refl eq_refl).
Defined.

(** Round trip on src/unnamed/part_001: in every run that calls
    [CompleteMultipartUpload] the payloads of the [UploadPart] calls, in the
    order of the calls, put together are the bytes of the file; their
    number is [ceil (size / (5*1024*1024))]; and the manifest is the sorted
    list of their part numbers, each with the ETag returned for it. *)
Theorem fixed_chunk_completed_upload b k path env t h manifest :
  run (FixedChunk.main b k path) env = (t, h) ->
  In manifest (completions t) ->
  exists f,
    os_Open env path = inl f /\
    concat (map Body (uploads t)) = data f /\
    Z.of_nat (length (uploads t)) =
      ceil_div (Z.of_nat (length (data f))) (5 * 1024 * 1024) /\
    map PartNumber_ (uploads t) = numbered 1 (length (uploads t)) /\
    manifest = sort_Slice (acknowledged env 0 (uploads t)).
Proof.
  intros Hrun Hin.
  assert (Hmain : run (MainGo.main (fixed_flags b k path)) env = (t, h)).
  { apply (fixed_chunk_run_of_main b k path env t h Hrun).
    destruct (completions_in t manifest Hin) as (b' & k' & u & H).
    now exists (CompleteMultipartUpload b' k' u manifest). }
  destruct (completed_run (fixed_flags b k path) env t h manifest Hmain Hin)
    as (f & uploadID & tl & parts & Hopen & _ & _ & _ & _ & _ & _ & _ & Hb & _).
  destruct (Hb eq_refl) as (Hbytes & Hcount).
  exists f. repeat split; try assumption.
  - exact (main_uploads_numbered (fixed_flags b k path) env t h Hmain).
  - exact (manifest_acknowledged (fixed_flags b k path) env t h manifest Hmain Hin).
Qed.

Lemma fixed_chunk_completed_upload_witness :
  exists f,
    os_Open (ok_env abc) "f" = inl f /\
    concat (map Body (uploads (fst (run (FixedChunk.main "b" "k" "f") (ok_env abc)))))
    = data f.
Proof.
  destruct (fixed_chunk_completed_upload "b" "k" "f" (ok_env abc)
              (fst (run (FixedChunk.main "b" "k" "f") (ok_env abc)))
              (snd (run (FixedChunk.main "b" "k" "f") (ok_env abc)))
              [{| ETag := "etag"; PartNumber := 1 |}])
    as (f & Hf & Hb & _).
  - now destruct (run (FixedChunk.main "b" "k" "f") (ok_env abc)).
  - vm_compute. now left.
  - exists f. split; [exact Hf | exact Hb].
Defined.

(** C1 and C2 on src/unnamed/part_001, whose loop is the loop of
    src/main.go: a read that fails ends the process by [log.Fatalf] at
    once; the session that was created is not aborted and the file is not
    closed. *)
Theorem fixed_chunk_read_failure_leaves_session b k path env t h n msg :
  run (FixedChunk.main b k path) env = (t, h) ->
  In (Read n (Some (Failure msg))) t ->
  creates t = [(b, k)] /\ aborts t = [] /\ closes t = [] /\ h = Exited 1 /\
  exists t0,
    t = t0 ++ [Read 0 (Some (Failure msg));
               log_Fatalf "failed to read file: %v" [VErr (Failure msg)]].
Proof.
  intros Hrun Hin.
  assert (Hmain : run (MainGo.main (fixed_flags b k path)) env = (t, h)).
  { apply (fixed_chunk_run_of_main b k path env t h Hrun).
    now exists (Read n (Some (Failure msg))). }
  destruct (main_read_failure (fixed_flags b k path) env t h n msg Hmain Hin)
    as (Ha & Hcl & Hh & t0 & uploadID & _ & Hcr & Ht).
  repeat split; try assumption. now exists t0.
Qed.

Lemma fixed_chunk_read_failure_witness :
  aborts (fst (run (FixedChunk.main "b" "k" "f") (read_fails_env abc 1))) = [] /\
  snd (run (FixedChunk.main "b" "k" "f") (read_fails_env abc 1)) = Exited 1.
Proof.
  destruct (fixed_chunk_read_failure_leaves_session "b" "k" "f" (read_fails_env abc 1)
              (fst (run (FixedChunk.main "b" "k" "f") (read_fails_env abc 1)))
              (snd (run (FixedChunk.main "b" "k" "f") (read_fails_env abc 1)))
              0%nat "input/output error") as (_ & Ha & _ & Hh & _).
  - now destruct (run (FixedChunk.main "b" "k" "f") (read_fails_env abc 1)).
  - vm_compute. do 6 right. now left.
  - split; [exact Ha | exact Hh].
Defined.

(** * The first and the last step *)

(** A session that the service does not create stops both variants with
    status 1 before anything is uploaded.  src/main.go has opened the file
    by then and exits without closing it; the refactored variant has not
    opened it yet. *)
Theorem create_failure_stops_the_run a env f err :
  LoadDefaultConfig env = None ->
  os_Open env (filePath a) = inl f ->
  CreateMultipartUpload_resp env (bucket a) (key a) = inr err ->
  (snd (run (MainGo.main a) env) = Exited 1 /\
   uploads (fst (run (MainGo.main a) env)) = [] /\
   opens (fst (run (MainGo.main a) env)) = [filePath a] /\
   closes (fst (run (MainGo.main a) env)) = [] /\
   fatals (fst (run (MainGo.main a) env)) =
     [("failed to create multipart upload: %v", [VErr err])]) /\
  (missing_flag (bucket a) (key a) (filePath a) = false ->
   minimumChunkSize <= chunkSize a ->
   run (Refactored.main a) env =
     ([CreateMultipartUpload (bucket a) (key a);
       log_Fatalf "failed to create multipart upload: %v" [VErr err]],
      Exited 1)).
Proof.
  intros Hcfg Hopen Hcreate. split.
  - rewrite (main_create_error env a f err Hcfg Hopen Hcreate). cbn [fst snd]. project.
    destruct (validation_quiet a) as (-> & _ & _ & _ & -> & ->).
    destruct (validation_silent a) as (_ & _ & ->). repeat split.
  - intros Hflags Hmin. exact (refactored_create_error env a err Hflags Hmin Hcfg Hcreate).
Qed.

Lemma create_failure_witness :
  closes (fst (run (MainGo.main flags_min) (no_session_env abc))) = [] /\
  opens (fst (run (MainGo.main flags_min) (no_session_env abc))) = ["f"].
Proof.
  destruct (create_failure_stops_the_run flags_min (no_session_env abc)
              {| name := "f"; data := abc |} (Failure "403 Access Denied")
              eq_refl eq_refl eq_refl) as ((_ & _ & Ho & Hc & _) & _).
  split; [exact Hc | exact Ho].
Defined.

Section LoopPrints.

Variables (env : Env) (bucket key : string) (f : File) (uploadID : string).

(** The loop prints its progress with [fmt.Printf] only. *)
Lemma loop_prints_no_line fuel b pn acc st :
  (length (unread f st) < fuel)%nat ->
  forall args,
    ~ In (fmt_Println args) (fst (fst (loop fuel bucket key f uploadID b pn acc env st))).
Proof.
  apply (loop_cases env bucket key f uploadID
           (fun _ _ _ _ res => forall args, ~ In (fmt_Println args) (fst (fst res)))).
  - intros b' pn' acc' st' msg _ args. cbn. intuition discriminate.
  - intros b' pn' acc' st' _ _ args. cbn. intuition discriminate.
  - intros b' pn' acc' st' err _ _ _ args. cbn. intuition discriminate.
  - intros b' pn' acc' st' etag t st'' r _ _ _ IH args. cbn [fst] in *.
    intros Hin. apply in_app_or in Hin. destruct Hin as [Hin|Hin].
    + cbn in Hin. intuition discriminate.
    + now apply (IH args).
Qed.

End LoopPrints.

(** src/main.go reports success exactly when it returns, and it returns
    only after the one [CompleteMultipartUpload] call of the run was
    accepted, nothing having been aborted. *)
Theorem main_reports_success_only_after_completion a env t h :
  run (MainGo.main a) env = (t, h) ->
  (In (fmt_Println [VStr "Upload completed successfully!"]) t <-> h = Returned) /\
  (h = Returned ->
   aborts t = [] /\
   exists manifest,
     completions t = [manifest] /\ CompleteMultipartUpload_resp env manifest = None).
Proof.
  intros Hrun.
  assert (Hval : ~ In (fmt_Println [VStr "Upload completed successfully!"]) (validation a)).
  { unfold validation.
    destruct (missing_flag _ _ _), (chunkSize a <? minimumChunkSize); cbn;
      intuition discriminate. }
  assert (Hses : forall u,
             ~ In (fmt_Println [VStr "Upload completed successfully!"])
                 (session_opened a u)).
  { intros u. unfold session_opened. rewrite in_app_iff. cbn. intuition discriminate. }
  main_phases env a; apply pair_equal_spec in Hrun; destruct Hrun as [<- <-];
    try (split; [split; [rewrite ?in_app_iff; cbn [In]; try specialize (Hses uploadID);
                         intuition discriminate | discriminate]
                | discriminate]).
  - (* the loop ended the process *)
    pose proof (loop_prints_no_line env (bucket a) (key a) f uploadID (S (length (data f)))
                  (repeat Byte.x00 (Z.to_nat (chunkSize a))) 1 [] (loop_start f)
                  (start_fuel f) [VStr "Upload completed successfully!"]) as Hno.
    rewrite Hloop in Hno. cbn [fst] in Hno. specialize (Hses uploadID).
    split; [|discriminate]. split; [|discriminate].
    rewrite in_app_iff. intuition.
  - (* the completion call was refused *)
    pose proof (loop_prints_no_line env (bucket a) (key a) f uploadID (S (length (data f)))
                  (repeat Byte.x00 (Z.to_nat (chunkSize a))) 1 [] (loop_start f)
                  (start_fuel f) [VStr "Upload completed successfully!"]) as Hno.
    rewrite Hloop in Hno. cbn [fst] in Hno. specialize (Hses uploadID).
    split; [|discriminate]. split; [|discriminate].
    rewrite !in_app_iff. cbn [In]. intuition discriminate.
  - split; [split; [reflexivity|]|].
    + intros _. rewrite !in_app_iff. right. right. cbn. auto.
    + intros _.
      pose proof (loop_done env (bucket a) (key a) f uploadID (S (length (data f)))
                    (repeat Byte.x00 (Z.to_nat (chunkSize a))) 1 [] (loop_start f)
                    (start_fuel f) ps) as Hdone.
      rewrite Hloop in Hdone. cbn [fst snd] in Hdone.
      destruct (Hdone eq_refl) as (Ha & _ & Hc & _).
      destruct (session_opened_quiet a uploadID) as (_ & Hqa & Hqc & _).
      project. rewrite Hqa, Hqc, Ha, Hc. split; [reflexivity|].
      exists (sort_Slice ps). split; [reflexivity | exact Hcomplete].
Qed.

Lemma main_reports_success_witness :
  In (fmt_Println [VStr "Upload completed successfully!"])
     (fst (run (MainGo.main flags2) (ok_env abc))).
Proof.
  refine (proj2 (proj1 (main_reports_success_only_after_completion flags2 (ok_env abc)
                          (fst (run (MainGo.main flags2) (ok_env abc)))
                          (snd (run (MainGo.main flags2) (ok_env abc)))
                          eq_refl)) _).
  vm_compute. reflexivity.
Defined.
